(** * Object_Detection_Projects: losses, anchors and MTCNN heads

    A shallow embedding of

    - [projects/04_pytorch_retinaface/layers/loss.py]
      ([FocalLoss], [OHEM], [MultiBoxLoss]),
    - [projects/04_pytorch_retinaface/layers/anchor.py]
      ([AnchorGenerator]),
    - [solutions/solution07/Optimize_MTCNN_PyTorch/nets/modules.py]
      ([PNet], [RNet], [ONet]).

    Tensors of floating-point numbers are modelled over the real numbers
    [R] (loss.py, the softmax heads) or over the rationals [Q] (anchor.py,
    which only divides and multiplies): rounding is left out, every other
    step of the code is kept.  A tensor is a list in row-major order, a
    batch is a list of rows.  Integer tensors (labels, ranks, counts) are
    lists of [Z] and [nat], masks are lists of [bool].

    Inputs are taken to have the shapes the code documents; the shape
    errors of the framework are modelled only where the shape depends on
    the data ([F.one_hot] without [num_classes]).  Device placement
    ([.cuda()]) is left out. *)

From Stdlib Require Import String.
From Stdlib Require Import Reals Lra Lia List Bool Arith ZArith.
From Stdlib Require Import QArith Qround.
From Stdlib Require Import Permutation Sorted.
Import ListNotations.

Open Scope R_scope.

(** ** The tensor primitives of the framework used by the code *)

Module Torch.

(** Exceptions that the modelled code can raise. *)
Inductive error : Type :=
| ValueError
| RuntimeError
| IndexError
| UnboundLocalError.

Inductive result (A : Type) : Type :=
| Ok (a : A)
| Raise (e : error).
Arguments Ok {A} a.
Arguments Raise {A} e.

Definition bind {A B : Type} (m : result A) (k : A -> result B) : result B :=
  match m with
  | Ok a => k a
  | Raise e => Raise e
  end.

(** A result of a loss function: a 0-dimensional tensor ([Scalar]) or a
    tensor with the elements of its input ([Elems]). *)
Inductive tensor : Type :=
| Scalar (r : R)
| Elems (l : list R).

(** The [reduction] argument of the functional losses: ['none'],
    ['mean'], ['sum']. *)
Inductive reduction : Type := none | mean_ | sum_.

Fixpoint map2 {A B C : Type} (f : A -> B -> C) (l : list A) (m : list B)
  : list C :=
  match l, m with
  | a :: l', b :: m' => f a b :: map2 f l' m'
  | _, _ => []
  end.

(** [t.sum()] and [t.mean()] over all elements.  (The mean of an empty
    tensor, not a number in the framework, is 0 here.) *)
Definition sum (l : list R) : R := fold_right Rplus 0 l.
Definition mean (l : list R) : R := sum l / INR (length l).

(** [t.long().sum()] of an integer tensor. *)
Definition sumZ (l : list Z) : Z := fold_right Z.add 0%Z l.

(** The number of [True] entries of a mask row: [mask.long().sum(1)]. *)
Definition count_true (m : list bool) : Z :=
  sumZ (map (fun b : bool => if b then 1%Z else 0%Z) m).

Definition reduce (red : reduction) (l : list R) : tensor :=
  match red with
  | none => Elems l
  | mean_ => Scalar (mean l)
  | sum_ => Scalar (sum l)
  end.

(** [a * c], where [c] is broadcast when it is 0-dimensional. *)
Definition mul_broadcast (a : list R) (c : tensor) : list R :=
  match c with
  | Scalar r => map (fun x => x * r) a
  | Elems l => map2 Rmult a l
  end.

(** [x.sigmoid()]. *)
Definition sigmoid (x : R) : R := 1 / (1 + exp (- x)).

(** One element of [F.binary_cross_entropy_with_logits]:
    [-(t * log(sigmoid x) + (1 - t) * log(1 - sigmoid x))]. *)
Definition bce_with_logits (x t : R) : R :=
  - (t * ln (sigmoid x) + (1 - t) * ln (1 - sigmoid x)).

(** [F.binary_cross_entropy_with_logits(input, target, reduction=red)];
    the framework raises [ValueError] when the target's size is not the
    input's. *)
Definition binary_cross_entropy_with_logits
    (input target : list R) (red : reduction) : result tensor :=
  if Nat.eqb (length target) (length input)
  then Ok (reduce red (map2 bce_with_logits input target))
  else Raise ValueError.

(** [torch.where(cond, a, b)], element by element. *)
Fixpoint where_ {A : Type} (cond : list bool) (a b : list A) : list A :=
  match cond, a, b with
  | c :: cond', x :: a', y :: b' =>
      (if c then x else y) :: where_ cond' a' b'
  | _, _, _ => []
  end.

(** [t == v] on a tensor of reals. *)
Definition eq_scalar (t : list R) (v : R) : list bool :=
  map (fun x => if Req_dec_T x v then true else false) t.

(** One sample of [F.cross_entropy(input, target)]: minus the logarithm
    of the softmax of the logits [x] at the class [c]. *)
Definition cross_entropy (x : list R) (c : Z) : R :=
  ln (sum (map exp x)) - nth (Z.to_nat c) x 0.

(** One element of [F.smooth_l1_loss] (beta = 1). *)
Definition smooth_l1 (x y : R) : R :=
  let d := Rabs (x - y) in
  if Rlt_dec d 1 then 5 / 10 * d ^ 2 else d - 5 / 10.

(** [F.smooth_l1_loss(input, target, reduction='sum')] of two tensors of
    shape (n, d). *)
Definition smooth_l1_loss_sum (input target : list (list R)) : R :=
  sum (map2 smooth_l1 (concat input) (concat target)).

(** [t[mask]] for a mask over the first two dimensions (batch, anchor):
    the selected entries in row-major order. *)
Definition select_row {A : Type} (mask : list bool) (row : list A) : list A :=
  map snd (filter fst (combine mask row)).
Definition masked_select {A : Type} (mask : list (list bool))
    (t : list (list A)) : list A :=
  concat (map2 select_row mask t).

(** [t[mask] = v], in place. *)
Definition masked_fill {A : Type} (mask : list (list bool)) (v : A)
    (t : list (list A)) : list (list A) :=
  map2 (map2 (fun (m : bool) x => if m then v else x)) mask t.

(** [nn.Softmax(dim=1)] on one vector along dimension 1. *)
Definition softmax (v : list R) : list R :=
  map (fun x => exp x / sum (map exp v)) v.

(** A vector of two class scores that is a probability distribution. *)
Definition distribution (v : list R) : Prop :=
  length v = 2%nat /\ Forall (fun p => 0 <= p <= 1) v /\ sum v = 1.

(** [F.one_hot(labels)] without [num_classes]: the number of classes is
    one more than the largest label.  The result is flattened in
    row-major order, with its number of columns.  The framework raises on
    an empty tensor and on a negative label. *)
Definition one_hot_row (width : nat) (l : Z) : list R :=
  map (fun c => if Z.eqb (Z.of_nat c) l then 1 else 0) (seq 0 width).
Definition one_hot (labels : list Z) : result (nat * list R) :=
  match labels with
  | [] => Raise RuntimeError
  | l0 :: ls =>
      if existsb (fun l => Z.ltb l 0) labels then Raise RuntimeError
      else
        let width := Z.to_nat (fold_right Z.max l0 ls + 1) in
        Ok (width, concat (map (one_hot_row width) labels))
  end.

(** *** Sorting

    [values.sort(1)] returns the sorted values and the indices that sort
    them.  The order in which equal values come out is not specified by
    the framework, so the sort of real values is a parameter of the code
    that uses it, constrained by [sorts_descending]. *)
Definition sorter : Type := list R -> list nat.

Definition sorts_descending (srt : sorter) : Prop :=
  forall v : list R,
    Permutation (srt v) (seq 0 (length v)) /\
    StronglySorted Rge (map (fun i => nth i v 0) (srt v)).

(** Sorting indices by insertion, where [le i j] compares the values at
    the indices [i] and [j]; equal values keep their order. *)
Fixpoint insert_by (le : nat -> nat -> bool) (i : nat) (l : list nat)
  : list nat :=
  match l with
  | [] => [i]
  | j :: l' => if le i j then i :: l else j :: insert_by le i l'
  end.

Definition argsort_by (le : nat -> nat -> bool) (n : nat) : list nat :=
  fold_right (insert_by le) [] (seq 0 n).

(** The indices of [p.sort(1)] (ascending) for a row of integers.  The
    code sorts a row of distinct indices, so the order of equal values
    plays no role. *)
Definition argsort_asc (p : list nat) : list nat :=
  argsort_by (fun i j => Nat.leb (nth i p 0%nat) (nth j p 0%nat)) (length p).

(** One sorter that meets [sorts_descending]. *)
Definition insertion_sorter : sorter :=
  fun v =>
    argsort_by (fun i j => if Rle_dec (nth j v 0) (nth i v 0) then true
                           else false) (length v).

End Torch.

Notation "x <- m ;; k" := (Torch.bind m (fun x => k))
  (at level 61, m at next level, right associativity).

(** ** loss.py: [FocalLoss] *)

Module FocalLoss.
Import Torch.

Record t : Type := mk {
  reduction : Torch.reduction;
  alpha : R;
  gamma : nat
}.

(** [__init__(self, alpha=0.25, gamma=2, num_classes=2, reduction='sum')] *)
Definition default : t := mk sum_ (25 / 100) 2.

Definition forward (self : t) (pred_logits targets : list R) : result R :=
  let preds := map sigmoid pred_logits in
  ce <- binary_cross_entropy_with_logits pred_logits targets
          (reduction self) ;;
  let alpha := map (fun tg => tg * alpha self + (1 - tg) * (1 - alpha self))
                 targets in
  let pt := where_ (eq_scalar targets 1) preds (map (fun p => 1 - p) preds) in
  let loss :=
    mul_broadcast
      (map2 Rmult alpha (map (fun p => (1 - p) ^ gamma self) pt)) ce in
  Ok (mean loss).

(** The focal loss of the cited paper (arXiv 1708.02002, eq. 5), for one
    element with logit [x] and binary target [tg]:
    [alpha_t * (1 - p_t)^gamma * ce_t]. *)
Definition paper_p_t (x tg : R) : R :=
  if Req_dec_T tg 1 then sigmoid x else 1 - sigmoid x.
Definition paper_alpha_t (a tg : R) : R :=
  if Req_dec_T tg 1 then a else 1 - a.
Definition paper_elem (a : R) (g : nat) (x tg : R) : R :=
  paper_alpha_t a tg * (1 - paper_p_t x tg) ^ g * bce_with_logits x tg.
Definition paper_mean (a : R) (g : nat) (logits targets : list R) : R :=
  mean (map2 (paper_elem a g) logits targets).

(** The factor that [forward] puts on the cross-entropy, for one element:
    [alpha * (1. - pt) ** self.gamma]. *)
Definition weight (self : t) (x tg : R) : R :=
  (tg * alpha self + (1 - tg) * (1 - alpha self))
  * (1 - (if Req_dec_T tg 1 then sigmoid x else 1 - sigmoid x)) ^ gamma self.

(** A tensor of binary targets. *)
Definition binary (targets : list R) : Prop :=
  Forall (fun tg => tg = 0 \/ tg = 1) targets.

End FocalLoss.

(** ** loss.py: [OHEM] *)

Module OHEM.
Import Torch.

Record t : Type := mk {
  neg_pos_ratio : Z;
  num_classes : nat
}.

(** [pos_boxes_mask.size(1)]: the number of anchors of a batch row. *)
Definition size1 {A : Type} (t : list (list A)) : Z :=
  match t with
  | [] => 0%Z
  | row :: _ => Z.of_nat (length row)
  end.

(** The masks computed by [forward]: [pos_boxes_mask] and
    [neg_boxes_mask]. *)
Definition pos_boxes_mask (targets : list (list Z)) : list (list bool) :=
  map (map (fun l => Z.eqb l 1)) targets.

Definition neg_boxes_mask (self : t) (srt : sorter)
    (pred_logits : list (list (list R))) (targets : list (list Z))
  : list (list bool) :=
  let pos_boxes_mask := pos_boxes_mask targets in
  let loss_c := map2 (map2 cross_entropy) pred_logits targets in
  let loss_c := masked_fill pos_boxes_mask 0 loss_c in
  let loss_idx := map srt loss_c in
  let idx_rank := map argsort_asc loss_idx in
  let num_pos := map count_true pos_boxes_mask in
  let num_neg :=
    map (fun n => Z.min (neg_pos_ratio self * n) (size1 pos_boxes_mask - 1))
      num_pos in
  map2 (fun ranks n => map (fun r => Z.ltb (Z.of_nat r) n) ranks)
    idx_rank num_neg.

Definition forward (self : t) (srt : sorter)
    (pred_logits : list (list (list R))) (targets : list (list Z)) : R :=
  let pos_boxes_mask := pos_boxes_mask targets in
  let neg_boxes_mask := neg_boxes_mask self srt pred_logits targets in
  let num_pos := map count_true pos_boxes_mask in
  let keep := map2 (map2 orb) pos_boxes_mask neg_boxes_mask in
  let cls_pred := masked_select keep pred_logits in
  let cls_gt := masked_select keep targets in
  let cls_loss := sum (map2 cross_entropy cls_pred cls_gt) in
  let N := Rmax (IZR (sumZ num_pos)) 1 in
  cls_loss / N.

(** *** One row of the batch

    Every statement of [forward] before the final sum works on the rows
    of the batch one by one; [row_neg_mask] is [neg_boxes_mask] for one
    row of [anchors] anchors. *)
Definition row_neg_mask (self : t) (srt : sorter) (anchors : Z)
    (logits_row : list (list R)) (targets_row : list Z) : list bool :=
  let pos := map (fun l => Z.eqb l 1) targets_row in
  let loss_c := map2 cross_entropy logits_row targets_row in
  let loss_c := map2 (fun (m : bool) x => if m then 0 else x) pos loss_c in
  let loss_idx := srt loss_c in
  let idx_rank := argsort_asc loss_idx in
  let num_neg := Z.min (neg_pos_ratio self * count_true pos) (anchors - 1) in
  map (fun r => Z.ltb (Z.of_nat r) num_neg) idx_rank.

(** The anchors that enter the loss as negatives: in [neg_boxes_mask] and
    not in [pos_boxes_mask]. *)
Definition hard_row (pos neg : list bool) : list bool :=
  map2 (fun p n : bool => n && negb p) pos neg.

Definition hard_negative_mask (self : t) (srt : sorter)
    (pred_logits : list (list (list R))) (targets : list (list Z))
  : list (list bool) :=
  map2 hard_row (pos_boxes_mask targets)
    (neg_boxes_mask self srt pred_logits targets).

(** The indices of the [True] entries of a mask row. *)
Definition indices (mask : list bool) : list nat :=
  filter (fun m => nth m mask false) (seq 0 (length mask)).

(** The cross-entropy of the anchor [m] of a row. *)
Definition loss_at (logits_row : list (list R)) (targets_row : list Z)
    (m : nat) : R :=
  cross_entropy (nth m logits_row []) (nth m targets_row 0%Z).

(** The number of anchors of a row that are not positive. *)
Definition non_positives (targets_row : list Z) : nat :=
  length (filter (fun l => negb (Z.eqb l 1)) targets_row).

(** [num_neg] of a row with [anchors] anchors. *)
Definition num_neg (self : t) (anchors : nat) (targets_row : list Z) : Z :=
  Z.min (neg_pos_ratio self
         * count_true (map (fun l => Z.eqb l 1) targets_row))
        (Z.of_nat anchors - 1).

(** The documented shapes: logits (B, A, C), targets (B, A) with class
    indices below C. *)
Definition well_shaped (A C : nat) (pred_logits : list (list (list R)))
    (targets : list (list Z)) : Prop :=
  Forall2
    (fun logits_row targets_row =>
       length logits_row = A /\ length targets_row = A /\
       Forall (fun x => length x = C) logits_row /\
       Forall (fun l => (0 <= l < Z.of_nat C)%Z) targets_row)
    pred_logits targets.

(** A batch of one row with three anchors and two classes: two positive
    anchors, one negative anchor, all logits zero; and the loss with
    [neg_pos_ratio = 3]. *)
Definition example_logits : list (list (list R)) :=
  [[[0; 0]; [0; 0]; [0; 0]]].
Definition example_targets : list (list Z) := [[1; 1; 0]%Z].
Definition example : t := mk 3 2.

End OHEM.

(** ** loss.py: [MultiBoxLoss] *)

Module MultiBoxLoss.
Import Torch.

(** The fields of the configuration that [__init__] reads. *)
Record Config : Type := mkConfig {
  MODEL_num_classes : nat;
  TRAIN_overlap_thresholds : list R;
  TRAIN_cls_loss_type : string;
  TRAIN_neg_pos_ratio : Z;
  TRAIN_encode_variance : list R;
  TRAIN_use_gpu : bool
}.

(** What a matching procedure returns: [matched_labels] (batch, anchor),
    [matched_boxes] (batch, anchor, 4) and [matched_landmarks]
    (batch, anchor, 10). *)
Definition matched : Type :=
  (list (list Z) * list (list (list R)) * list (list (list R)))%type.

(** [from tools.box_utils import match, match_atss]: the two matching
    procedures live in a module that is not part of the sources at hand;
    they are parameters of the loss. *)
Record box_utils : Type := mkTools {
  match_ : list R -> list (list (list R)) -> list (list R) -> list R
           -> matched;
  match_atss : Config -> list (list (list R)) -> list (list R) -> list R
               -> matched
}.

Record t : Type := mk {
  num_classes : nat;
  thresholds : list R;
  cls_loss_type : string;
  neg_pos_ratio : Z;
  variance : list R;
  use_gpu : bool;
  focal_loss : FocalLoss.t;
  ohem : OHEM.t;
  cfg : Config
}.

Definition init (cfg : Config) : t :=
  mk (MODEL_num_classes cfg)
     (TRAIN_overlap_thresholds cfg)
     (TRAIN_cls_loss_type cfg)
     (TRAIN_neg_pos_ratio cfg)
     (TRAIN_encode_variance cfg)
     (TRAIN_use_gpu cfg)
     FocalLoss.default
     (OHEM.mk (TRAIN_neg_pos_ratio cfg) (MODEL_num_classes cfg))
     cfg.

(** Lines 127-137 of [forward]: the landmark loss and its divisor [N1]. *)
Definition pos_ldmks_mask (matched_labels : list (list Z))
  : list (list bool) :=
  map (map (fun l => Z.ltb 0 l)) matched_labels.

Definition N1 (matched_labels : list (list Z)) : R :=
  let num_pos_ldmks := map count_true (pos_ldmks_mask matched_labels) in
  Rmax (IZR (sumZ num_pos_ldmks)) 1.

Definition landmark_loss (matched_labels : list (list Z))
    (matched_landmarks pred_landmarks : list (list (list R))) : R :=
  let pos_ldmks_mask := pos_ldmks_mask matched_labels in
  let pos_ldmks_pred := masked_select pos_ldmks_mask pred_landmarks in
  let pos_ldmks_gt := masked_select pos_ldmks_mask matched_landmarks in
  let landmark_loss := smooth_l1_loss_sum pos_ldmks_pred pos_ldmks_gt in
  landmark_loss / N1 matched_labels.

(** Lines 140-149 of [forward]: the box loss and its divisor [N]. *)
Definition pos_boxes_mask (matched_labels : list (list Z))
  : list (list bool) :=
  map (map (fun l => negb (Z.eqb l 0))) matched_labels.

Definition N (matched_labels : list (list Z)) : R :=
  let num_pos := map count_true (pos_boxes_mask matched_labels) in
  Rmax (IZR (sumZ num_pos)) 1.

Definition box_loss (matched_labels : list (list Z))
    (matched_boxes pred_boxes : list (list (list R))) : R :=
  let pos_boxes_mask := pos_boxes_mask matched_labels in
  let pos_boxes_pred := masked_select pos_boxes_mask pred_boxes in
  let pos_boxes_gt := masked_select pos_boxes_mask matched_boxes in
  let box_loss := smooth_l1_loss_sum pos_boxes_pred pos_boxes_gt in
  box_loss / N matched_labels.

(** Line 141: [matched_labels[pos_boxes_mask] = 1] overwrites the labels
    in place; the classification loss reads the overwritten tensor. *)
Definition relabel (matched_labels : list (list Z)) : list (list Z) :=
  masked_fill (pos_boxes_mask matched_labels) 1%Z matched_labels.

(** Lines 171-181: [cls_loss] is a local variable that only the two [if]
    statements assign; [None] is the unassigned variable. *)
Definition cls_loss_of (self : t) (srt : sorter)
    (pred_logits : list (list (list R))) (matched_labels : list (list Z))
  : result (option R) :=
  let cls_loss : option R := None in
  let cls_loss :=
    if String.eqb (cls_loss_type self) "OHEM"
    then Some (OHEM.forward (ohem self) srt pred_logits matched_labels)
    else cls_loss in
  if String.eqb (cls_loss_type self) "FocalLoss"
  then
    oh <- one_hot (concat matched_labels) ;;
    let matched_labels_target := snd oh in
    r <- FocalLoss.forward (focal_loss self)
           (concat (concat pred_logits)) matched_labels_target ;;
    Ok (Some r)
  else Ok cls_loss.

(** The part of [forward] after the matching. *)
Definition losses_of (self : t) (srt : sorter) (m : matched)
    (predictions : list (list (list R)) * list (list (list R))
                   * list (list (list R)))
  : result (R * R * R) :=
  let '(matched_labels, matched_boxes, matched_landmarks) := m in
  let '(pred_logits, pred_boxes, pred_landmarks) := predictions in
  let landmark_loss :=
    landmark_loss matched_labels matched_landmarks pred_landmarks in
  let box_loss := box_loss matched_labels matched_boxes pred_boxes in
  let matched_labels := relabel matched_labels in
  cls_loss <- cls_loss_of self srt pred_logits matched_labels ;;
  match cls_loss with
  | Some cls_loss => Ok (cls_loss, box_loss, landmark_loss)
  | None => Raise UnboundLocalError
  end.

Definition forward (tools : box_utils) (srt : sorter) (self : t)
    (predictions : list (list (list R)) * list (list (list R))
                   * list (list (list R)))
    (anchor_boxes : list (list R)) (targets : list (list (list R)))
  : result (R * R * R) :=
  losses_of self srt
    (match_atss tools (cfg self) targets anchor_boxes (variance self))
    predictions.

(** *** The two regression losses, anchor by anchor

    The reading of the losses that goes over the anchors one by one: the
    smooth-L1 distance of an anchor is added when its matched label
    passes [sel], and the sum is divided by the larger of the number of
    such anchors and 1. *)
Definition anchor_smooth_l1 (pred gt : list R) : R :=
  sum (map2 smooth_l1 pred gt).

Fixpoint row_sum_where (sel : Z -> bool) (labels : list Z)
    (preds gts : list (list R)) : R :=
  match labels, preds, gts with
  | l :: labels', p :: preds', g :: gts' =>
      (if sel l then anchor_smooth_l1 p g else 0)
      + row_sum_where sel labels' preds' gts'
  | _, _, _ => 0
  end.

Fixpoint batch_sum_where (sel : Z -> bool) (labels : list (list Z))
    (preds gts : list (list (list R))) : R :=
  match labels, preds, gts with
  | l :: labels', p :: preds', g :: gts' =>
      row_sum_where sel l p g + batch_sum_where sel labels' preds' gts'
  | _, _, _ => 0
  end.

Definition count_where (sel : Z -> bool) (labels : list (list Z)) : nat :=
  length (filter sel (concat labels)).

Definition regression_loss_where (sel : Z -> bool) (labels : list (list Z))
    (gts preds : list (list (list R))) : R :=
  batch_sum_where sel labels preds gts / Rmax (INR (count_where sel labels)) 1.

(** A label strictly greater than 0; a label other than 0. *)
Definition is_positive (l : Z) : bool := Z.ltb 0 l.
Definition is_nonzero (l : Z) : bool := negb (Z.eqb l 0).

(** Labels (batch, anchor), predictions and targets (batch, anchor, d)
    of matching shapes. *)
Definition aligned (labels : list (list Z))
    (preds gts : list (list (list R))) : Prop :=
  Forall2 (fun (lrow : list Z) (prow : list (list R)) =>
             length lrow = length prow) labels preds /\
  Forall2 (Forall2 (fun p g : list R => length p = length g)) preds gts.

(** *** Examples

    One image with one anchor.  The adaptive matching gives the anchor
    the label -1 (a face without usable landmarks), the fixed-threshold
    matching the label 0 (background).  The predicted box and landmarks
    are off by 2 in their first coordinate. *)
Definition zeros (n : nat) : list R := repeat 0 n.

Definition example_tools : box_utils :=
  mkTools
    (fun _ _ _ _ => ([[0%Z]], [[zeros 4]], [[zeros 10]]))
    (fun _ _ _ _ => ([[(-1)%Z]], [[zeros 4]], [[zeros 10]])).

Definition example_predictions
  : list (list (list R)) * list (list (list R)) * list (list (list R)) :=
  ([[[0; 0]]], [[2 :: zeros 3]], [[2 :: zeros 9]]).

Definition example_anchor_boxes : list (list R) := [zeros 4].
Definition example_targets : list (list (list R)) := [[zeros 15]].

Definition example_config (cls_loss_type : string) : Config :=
  mkConfig 2 [35 / 100; 5 / 10] cls_loss_type 7 [1 / 10; 2 / 10] true.

End MultiBoxLoss.

(** ** anchor.py: [AnchorGenerator] *)

Module AnchorGenerator.
Import Torch.
Local Open Scope Q_scope.

(** The fields of the configuration that [__init__] reads;
    [image_size] is (height, width). *)
Record Config : Type := mkConfig {
  MODEL_anchor_sizes : list (list Q);
  MODEL_strides : list Z;
  TRAIN_clip_box : bool;
  DATA_image_size : Z * Z;
  TRAIN_use_gpu : bool
}.

Record t : Type := mk {
  min_sizes : list (list Q);
  steps : list Z;
  clip : bool;
  image_size : Z * Z;
  feature_maps : list (Z * Z);
  use_gpu : bool
}.

(** [ceil(a / b)] of Python: true division, then the ceiling. *)
Definition ceil_div (a b : Z) : Z := Qceiling (inject_Z a / inject_Z b).

(** [__init__]: the division by a stride raises [ZeroDivisionError] when
    the stride is 0; [None] stands for it. *)
Definition init (cfg : Config) : option t :=
  if existsb (fun step => Z.eqb step 0) (MODEL_strides cfg) then None
  else
    Some (mk (MODEL_anchor_sizes cfg)
             (MODEL_strides cfg)
             (TRAIN_clip_box cfg)
             (DATA_image_size cfg)
             (map (fun step =>
                     (ceil_div (fst (DATA_image_size cfg)) step,
                      ceil_div (snd (DATA_image_size cfg)) step))
                  (MODEL_strides cfg))
             (TRAIN_use_gpu cfg)).

(** [range(n)]. *)
Definition range (n : Z) : list Z := map Z.of_nat (seq 0 (Z.to_nat n)).

(** [product(a, b)] of itertools: the pairs, the second index running
    fastest. *)
Definition product {A B : Type} (a : list A) (b : list B) : list (A * B) :=
  list_prod a b.

Definition half : Q := 5 # 10.

(** The four numbers that the innermost loop appends for the cell
    [(i, j)] of level [k] and the size [min_size]. *)
Definition cell_anchor (self : t) (step : Z) (i j : Z) (min_size : Q)
  : list Q :=
  let s_kx := min_size / inject_Z (snd (image_size self)) in
  let s_ky := min_size / inject_Z (fst (image_size self)) in
  let dense_cx :=
    map (fun x => x * inject_Z step / inject_Z (snd (image_size self)))
      [inject_Z j + half] in
  let dense_cy :=
    map (fun y => y * inject_Z step / inject_Z (fst (image_size self)))
      [inject_Z i + half] in
  flat_map (fun '(cy, cx) => [cx; cy; s_kx; s_ky]) (product dense_cy dense_cx).

(** The body of the loop over the levels, for level [k] with feature map
    [f]: [None] is the [IndexError] of [self.min_sizes[k]]. *)
Definition level_anchors (self : t) (k : nat) (f : Z * Z)
  : option (list Q) :=
  match nth_error (min_sizes self) k with
  | None => None
  | Some min_sizes =>
      Some (flat_map
              (fun '(i, j) =>
                 flat_map
                   (fun min_size =>
                      cell_anchor self (nth k (steps self) 0%Z) i j min_size)
                   min_sizes)
              (product (range (fst f)) (range (snd f))))
  end.

(** The loop [for k, f in enumerate(self.feature_maps)], from level [k]
    on. *)
Fixpoint levels_from (self : t) (k : nat) (fs : list (Z * Z))
  : option (list Q) :=
  match fs with
  | [] => Some []
  | f :: fs' =>
      match level_anchors self k f with
      | None => None
      | Some here =>
          match levels_from self (S k) fs' with
          | None => None
          | Some rest => Some (here ++ rest)
          end
      end
  end.

(** [torch.Tensor(anchors).view(-1, 4)]: rows of four numbers. *)
Fixpoint view4 (l : list Q) : list (list Q) :=
  match l with
  | a :: b :: c :: d :: l' => [a; b; c; d] :: view4 l'
  | _ => []
  end.

(** [output.clamp_(max=1, min=0)]. *)
Definition clamp01 (x : Q) : Q :=
  if Qlt_le_dec x 0 then 0 else if Qlt_le_dec 1 x then 1 else x.

Definition generate_anchors (self : t) : option (list (list Q)) :=
  match levels_from self 0 (feature_maps self) with
  | None => None
  | Some anchors =>
      let output := view4 anchors in
      let output := if clip self then map (map clamp01) output else output in
      Some output
  end.

(** The number of anchors that the claim gives for the levels [k, k+1,
    ...] with strides [steps] and sizes [sizes]. *)
Fixpoint expected_count (H W : Z) (steps : list Z) (sizes : list (list Q))
  : Z :=
  match steps, sizes with
  | step :: steps', ms :: sizes' =>
      (ceil_div H step * ceil_div W step * Z.of_nat (length ms)
       + expected_count H W steps' sizes')%Z
  | _, _ => 0%Z
  end.

(** The anchor (center_x, center_y, width, height) of the cell [(i, j)]
    of a level with stride [step], for the size [min_size], normalized by
    the width [W] and the height [H] of the image. *)
Definition anchor_at (H W step i j : Z) (min_size : Q) : list Q :=
  [ (inject_Z j + half) * inject_Z step / inject_Z W;
    (inject_Z i + half) * inject_Z step / inject_Z H;
    min_size / inject_Z W;
    min_size / inject_Z H ].

(** The anchors of one level, one row per anchor. *)
Definition level_rows (self : t) (step : Z) (f : Z * Z) (sizes : list Q)
  : list (list Q) :=
  flat_map
    (fun '(i, j) => map (fun min_size => cell_anchor self step i j min_size)
                      sizes)
    (product (range (fst f)) (range (snd f))).

(** An anchor of the generator: level [k], cell [(i, j)], one of the
    sizes of the level. *)
Definition is_anchor (self : t) (a : list Q) : Prop :=
  exists (k : nat) (step : Z) (sizes : list Q) (i j : Z) (min_size : Q),
    nth_error (steps self) k = Some step /\
    nth_error (min_sizes self) k = Some sizes /\
    In min_size sizes /\
    (0 <= i < ceil_div (fst (image_size self)) step)%Z /\
    (0 <= j < ceil_div (snd (image_size self)) step)%Z /\
    a = anchor_at (fst (image_size self)) (snd (image_size self)) step i j
          min_size.

(** A configuration with two levels, for a 4 x 6 image. *)
Definition example_config : Config :=
  mkConfig [[1; 2]; [4]] [2; 4]%Z true (4, 6)%Z false.

End AnchorGenerator.

(** ** modules.py: the layers of [PNet], [RNet] and [ONet] *)

Module Layers.
Import Torch.
Local Open Scope Z_scope.

(** The shape (batch, channels, height, width) of an image tensor. *)
Definition shape : Type := (Z * Z * Z * Z)%type.

(** The layers of the convolutional part, with the arguments the code
    gives them: [nn.Conv2d(in, out, kernel, stride)], [nn.PReLU(n)],
    [nn.MaxPool2d(kernel, stride, ceil_mode=False)]. *)
Inductive layer : Type :=
| Conv2d (in_channels out_channels kernel_size stride : Z)
| PReLU (num_parameters : Z)
| MaxPool2d (kernel_size stride : Z) (ceil_mode : bool).

(** The size of one spatial dimension after a window of [k] moved by
    [s], without padding: [floor((n - k) / s) + 1]; in ceil mode the
    quotient is rounded up, and a last window that would start outside
    of the input is dropped. *)
Definition window_out (n k s : Z) (ceil_mode : bool) : Z :=
  if ceil_mode
  then
    let out := (n - k + s - 1) / s + 1 in
    if (out - 1) * s >=? n then out - 1 else out
  else (n - k) / s + 1.

(** The shape a layer produces; [None] is the error the framework raises
    for a wrong number of channels or an input smaller than the window. *)
Definition layer_shape (l : layer) (x : shape) : option shape :=
  let '(n, c, h, w) := x in
  match l with
  | Conv2d cin cout k s =>
      if (c =? cin) && (k <=? h) && (k <=? w)
      then Some (n, cout, window_out h k s false, window_out w k s false)
      else None
  | PReLU p =>
      if (p =? 1) || (p =? c) then Some x else None
  | MaxPool2d k s cm =>
      if (k <=? h) && (k <=? w)
      then Some (n, c, window_out h k s cm, window_out w k s cm)
      else None
  end.

(** [nn.Sequential]: the layers one after the other. *)
Fixpoint sequential_shape (ls : list layer) (x : shape) : option shape :=
  match ls with
  | [] => Some x
  | l :: ls' =>
      match layer_shape l x with
      | None => None
      | Some y => sequential_shape ls' y
      end
  end.

End Layers.

(** ** modules.py: [PNet] *)

Module PNet.
Import Torch Layers.

(** [self.features], [self.conv4_1] and [self.conv4_2] as [__init__]
    builds them. *)
Definition features_layers : list layer :=
  [ Conv2d 3 10 3 1; PReLU 10; MaxPool2d 2 2 false;
    Conv2d 10 16 3 1; PReLU 16;
    Conv2d 16 32 3 1; PReLU 32 ].
Definition conv4_1_layer : layer := Conv2d 32 2 1 1.
Definition conv4_2_layer : layer := Conv2d 32 4 1 1.

(** The shapes of the two tensors that [forward] returns for an input of
    shape [x]; the softmax keeps the shape of [scores]. *)
Definition forward_shape (is_train : bool) (x : shape)
  : option (shape * shape) :=
  match sequential_shape features_layers x with
  | None => None
  | Some fx =>
      match layer_shape conv4_1_layer fx, layer_shape conv4_2_layer fx with
      | Some scores, Some offsets => Some (scores, offsets)
      | _, _ => None
      end
  end.

(** The values: the layers carry learned weights, so they are fields of
    the network.  A score tensor is the list of its vectors along
    dimension 1 (the class dimension), one for every batch entry and
    location. *)
Record t (X F O : Type) : Type := mk {
  is_train : bool;
  features : X -> F;
  conv4_1 : F -> list (list R);
  conv4_2 : F -> O
}.
Arguments mk {X F O}.
Arguments is_train {X F O}.
Arguments features {X F O}.
Arguments conv4_1 {X F O}.
Arguments conv4_2 {X F O}.

Definition forward {X F O : Type} (self : t X F O) (x : X)
  : list (list R) * O :=
  let x := features self x in
  let scores := conv4_1 self x in
  let offsets := conv4_2 self x in
  let scores := if negb (is_train self) then map softmax scores else scores in
  (scores, offsets).

End PNet.

(** ** modules.py: [RNet] *)

Module RNet.
Import Torch.

Record t (X F O : Type) : Type := mk {
  is_train : bool;
  features : X -> F;
  conv5_1 : F -> list (list R);
  conv5_2 : F -> O
}.
Arguments mk {X F O}.
Arguments is_train {X F O}.
Arguments features {X F O}.
Arguments conv5_1 {X F O}.
Arguments conv5_2 {X F O}.

Definition forward {X F O : Type} (self : t X F O) (x : X)
  : list (list R) * O :=
  let x := features self x in
  let scores := conv5_1 self x in
  let offsets := conv5_2 self x in
  let scores := if negb (is_train self) then map softmax scores else scores in
  (scores, offsets).

End RNet.

(** ** modules.py: [ONet] *)

Module ONet.
Import Torch.

Record t (X F O L : Type) : Type := mk {
  is_train : bool;
  features : X -> F;
  conv6_1 : F -> list (list R);
  conv6_2 : F -> O;
  conv6_3 : F -> L
}.
Arguments mk {X F O L}.
Arguments is_train {X F O L}.
Arguments features {X F O L}.
Arguments conv6_1 {X F O L}.
Arguments conv6_2 {X F O L}.
Arguments conv6_3 {X F O L}.

(** [train_landmarks] is [config.TRAIN.train_landmarks] of
    [configs.mtcnn_config], which is not part of the sources at hand.
    The result has the landmarks only when it is set. *)
Definition forward {X F O L : Type} (train_landmarks : bool)
    (self : t X F O L) (x : X) : list (list R) * O * option L :=
  let x := features self x in
  let scores := conv6_1 self x in
  let offsets := conv6_2 self x in
  let scores := if negb (is_train self) then map softmax scores else scores in
  if train_landmarks
  then
    let landmarks := conv6_3 self x in
    (scores, offsets, Some landmarks)
  else (scores, offsets, None).

End ONet.

(** ** modules.py: [Flatten], and the shapes of [RNet] and [ONet] *)

Module Heads.
Import Layers.
Local Open Scope Z_scope.

(** The shape of a tensor between the modules of a network: an image
    tensor (batch, channels, height, width) or, after [Flatten], a matrix
    (batch, features). *)
Inductive tshape : Type :=
| Image (s : shape)
| Features (n f : Z).

(** The modules of [self.features]: the layers of the convolutional
    part, [Flatten()], [nn.Linear(in, out)] and [nn.Dropout(p)]. *)
Inductive module : Type :=
| Layer (l : layer)
| Flatten
| Linear (in_features out_features : Z)
| Dropout.

(** The shape a module produces.  [Flatten.forward] is
    [x.view(x.size(0), -1)], which the framework refuses for an empty
    batch; a convolution or a pooling refuses a matrix; [nn.Linear]
    works on the last dimension. *)
Definition module_shape (m : module) (x : tshape) : option tshape :=
  match m, x with
  | Layer l, Image s => option_map Image (layer_shape l s)
  | Layer (PReLU p), Features n f =>
      if (p =? 1) || (p =? f) then Some x else None
  | Layer _, Features _ _ => None
  | Flatten, Image (n, c, h, w) =>
      if n =? 0 then None else Some (Features n (c * h * w))
  | Flatten, Features n f => if n =? 0 then None else Some x
  | Linear i o, Features n f => if f =? i then Some (Features n o) else None
  | Linear i o, Image (n, c, h, w) =>
      if w =? i then Some (Image (n, c, h, o)) else None
  | Dropout, _ => Some x
  end.

Fixpoint sequential (ms : list module) (x : tshape) : option tshape :=
  match ms with
  | [] => Some x
  | m :: ms' =>
      match module_shape m x with
      | None => None
      | Some y => sequential ms' y
      end
  end.

(** [RNet.__init__]. *)
Definition rnet_features : list module :=
  [ Layer (Conv2d 3 28 3 1); Layer (PReLU 28); Layer (MaxPool2d 3 2 false);
    Layer (Conv2d 28 48 3 1); Layer (PReLU 48); Layer (MaxPool2d 3 2 false);
    Layer (Conv2d 48 64 2 1); Layer (PReLU 64);
    Flatten; Linear (64 * 2 * 2) 128; Layer (PReLU 128); Dropout ].
Definition conv5_1 : module := Linear 128 2.
Definition conv5_2 : module := Linear 128 4.

(** The shapes of the scores and offsets that [RNet.forward] returns. *)
Definition rnet_forward_shape (x : tshape) : option (tshape * tshape) :=
  match sequential rnet_features x with
  | None => None
  | Some fx =>
      match module_shape conv5_1 fx, module_shape conv5_2 fx with
      | Some scores, Some offsets => Some (scores, offsets)
      | _, _ => None
      end
  end.

(** [ONet.__init__]. *)
Definition onet_features : list module :=
  [ Layer (Conv2d 3 32 3 1); Layer (PReLU 32); Layer (MaxPool2d 3 2 false);
    Layer (Conv2d 32 64 3 1); Layer (PReLU 64); Layer (MaxPool2d 3 2 false);
    Layer (Conv2d 64 64 3 1); Layer (PReLU 64); Layer (MaxPool2d 2 2 false);
    Layer (Conv2d 64 128 2 1); Layer (PReLU 128);
    Flatten; Linear (128 * 2 * 2) 256; Layer (PReLU 256); Dropout ].
Definition conv6_1 : module := Linear 256 2.
Definition conv6_2 : module := Linear 256 4.
Definition conv6_3 : module := Linear 256 10.

(** The shapes that [ONet.forward] returns: scores, offsets and, when
    [config.TRAIN.train_landmarks] is set, landmarks. *)
Definition onet_forward_shape (train_landmarks : bool) (x : tshape)
  : option (tshape * tshape * option tshape) :=
  match sequential onet_features x with
  | None => None
  | Some fx =>
      match module_shape conv6_1 fx, module_shape conv6_2 fx with
      | Some scores, Some offsets =>
          if train_landmarks
          then
            match module_shape conv6_3 fx with
            | Some landmarks => Some (scores, offsets, Some landmarks)
            | None => None
            end
          else Some (scores, offsets, None)
      | _, _ => None
      end
  end.

(** The side of the feature map before [Flatten], for an image side
    [x]: [RNet] (two poolings 3/2 between convolutions) and [ONet]
    (a third pooling 2/2). *)
Definition rnet_side (x : Z) : Z := ((x - 2 - 3) / 2 + 1 - 2 - 3) / 2 + 1 - 1.
Definition onet_side (x : Z) : Z :=
  ((((x - 2 - 3) / 2 + 1 - 2 - 3) / 2 + 1 - 2) - 2) / 2 + 1 - 1.

End Heads.

(** ** modules.py: the image sizes that [RNet] and [ONet] take *)

Module Sizes.
Local Open Scope Z_scope.

(** The feature map before [Flatten] must have four locations for the
    first [nn.Linear]: 2 x 2, 1 x 4 or 4 x 1. *)
Definition rnet_takes (H W : Z) : Prop :=
  (21 <= H <= 24 /\ 21 <= W <= 24) \/
  (17 <= H <= 20 /\ 29 <= W <= 32) \/
  (29 <= H <= 32 /\ 17 <= W <= 20).

Definition onet_takes (H W : Z) : Prop :=
  (41 <= H <= 48 /\ 41 <= W <= 48) \/
  (33 <= H <= 40 /\ 57 <= W <= 64) \/
  (57 <= H <= 64 /\ 33 <= W <= 40).

End Sizes.

(** ** A second sorter

    [reverse_sorter] inserts the indices from the last to the first, so
    that equal values come out in the opposite order of
    [Torch.insertion_sorter]. *)

Module Sorters.
Import Torch.

Definition reverse_sorter : sorter :=
  fun v =>
    fold_right
      (insert_by (fun i j => if Rle_dec (nth j v 0) (nth i v 0) then true
                             else false))
      [] (rev (seq 0 (length v))).

End Sorters.

(** ** anchor.py: configurations that clipping leaves alone *)

Module Clip.
Import AnchorGenerator.
Local Open Scope Q_scope.

(** The configurations whose strides divide both sides of the image and
    whose anchors are not larger than the image. *)
Definition fits (cfg : Config) : Prop :=
  (0 < fst (DATA_image_size cfg))%Z /\
  (0 < snd (DATA_image_size cfg))%Z /\
  Forall (fun s => (0 < s)%Z /\ (s | fst (DATA_image_size cfg))%Z
                   /\ (s | snd (DATA_image_size cfg))%Z)
    (MODEL_strides cfg) /\
  Forall (Forall (fun min_size =>
                    0 <= min_size /\
                    min_size <= inject_Z (fst (DATA_image_size cfg)) /\
                    min_size <= inject_Z (snd (DATA_image_size cfg))))
    (MODEL_anchor_sizes cfg) /\
  (length (MODEL_strides cfg) <= length (MODEL_anchor_sizes cfg))%nat.

End Clip.

(** * Properties *)

(** ** Real-number facts about the primitives *)

Section TorchFacts.
Import Torch.

Lemma sigmoid_pos (x : R) : 0 < sigmoid x.
Proof.
  unfold sigmoid. pose proof (exp_pos (- x)).
  apply Rdiv_lt_0_compat; lra.
Qed.

Lemma sigmoid_lt_1 (x : R) : sigmoid x < 1.
Proof.
  unfold sigmoid. pose proof (exp_pos (- x)) as He.
  apply Rmult_lt_reg_r with (1 + exp (- x)); [lra|].
  field_simplify; lra.
Qed.

Lemma sigmoid_le (x y : R) : x <= y -> sigmoid x <= sigmoid y.
Proof.
  intros [Hlt | ->]; [|lra].
  unfold sigmoid.
  pose proof (exp_pos (- x)). pose proof (exp_pos (- y)).
  assert (exp (- y) < exp (- x)) by (apply exp_increasing; lra).
  unfold Rdiv. rewrite !Rmult_1_l.
  left. apply Rinv_lt_contravar; [|lra].
  apply Rmult_lt_0_compat; lra.
Qed.

Lemma sigmoid_0 : sigmoid 0 = / 2.
Proof. unfold sigmoid. rewrite Ropp_0, exp_0. lra. Qed.

Lemma ln_le_mono (x y : R) : 0 < x -> x <= y -> ln x <= ln y.
Proof.
  intros Hx [Hlt | ->]; [|lra].
  left. now apply ln_increasing.
Qed.

Lemma ln_neg (x : R) : 0 < x -> x < 1 -> ln x < 0.
Proof.
  intros Hx H1. rewrite <- ln_1. now apply ln_increasing.
Qed.

Lemma ln_2_pos : 0 < ln 2.
Proof. pose proof ln_lt_2. lra. Qed.

Lemma ln_half : ln (/ 2) = - ln 2.
Proof. apply ln_Rinv. lra. Qed.

Lemma bce_with_logits_1 (x : R) : bce_with_logits x 1 = - ln (sigmoid x).
Proof. unfold bce_with_logits. lra. Qed.

Lemma bce_with_logits_0 (x : R) : bce_with_logits x 0 = - ln (1 - sigmoid x).
Proof. unfold bce_with_logits. lra. Qed.

Lemma bce_with_logits_nonneg (x tg : R) :
  tg = 0 \/ tg = 1 -> 0 <= bce_with_logits x tg.
Proof.
  pose proof (sigmoid_pos x). pose proof (sigmoid_lt_1 x).
  intros [-> | ->].
  - rewrite bce_with_logits_0.
    assert (ln (1 - sigmoid x) < 0) by (apply ln_neg; lra). lra.
  - rewrite bce_with_logits_1.
    assert (ln (sigmoid x) < 0) by (apply ln_neg; lra). lra.
Qed.

(** Moving a logit towards its target does not increase the
    cross-entropy of the element. *)
Lemma bce_with_logits_towards (x x' tg : R) :
  (tg = 1 /\ x <= x') \/ (tg = 0 /\ x' <= x) ->
  bce_with_logits x' tg <= bce_with_logits x tg.
Proof.
  pose proof (sigmoid_pos x). pose proof (sigmoid_lt_1 x).
  pose proof (sigmoid_pos x'). pose proof (sigmoid_lt_1 x').
  intros [[-> Hx] | [-> Hx]]; apply sigmoid_le in Hx.
  - rewrite !bce_with_logits_1.
    assert (ln (sigmoid x) <= ln (sigmoid x')) by (apply ln_le_mono; lra).
    lra.
  - rewrite !bce_with_logits_0.
    assert (ln (1 - sigmoid x) <= ln (1 - sigmoid x'))
      by (apply ln_le_mono; lra).
    lra.
Qed.

Lemma sum_cons (a : R) (l : list R) : sum (a :: l) = a + sum l.
Proof. reflexivity. Qed.

Lemma sum_app (l m : list R) : sum (l ++ m) = sum l + sum m.
Proof.
  induction l as [|a l IH]; simpl app.
  - unfold sum at 2. simpl. lra.
  - rewrite !sum_cons, IH. lra.
Qed.

Lemma sum_map_scale (r : R) (l : list R) :
  sum (map (fun x => x * r) l) = sum l * r.
Proof.
  induction l as [|a l IH]; simpl map.
  - unfold sum. simpl. lra.
  - rewrite !sum_cons, IH. lra.
Qed.

Lemma sum_nonneg (l : list R) : Forall (fun x => 0 <= x) l -> 0 <= sum l.
Proof.
  induction 1 as [|a l Ha _ IH].
  - unfold sum. simpl. lra.
  - rewrite sum_cons. lra.
Qed.

Lemma map2_length {A B C : Type} (f : A -> B -> C) (l : list A) (m : list B) :
  length l = length m -> length (map2 f l m) = length l.
Proof.
  revert m. induction l as [|a l IH]; intros [|b m] Hlen; simpl in *;
    try reflexivity; try discriminate.
  f_equal. apply IH. now injection Hlen.
Qed.

Lemma map2_app {A B C : Type} (f : A -> B -> C) (l l' : list A)
    (m m' : list B) :
  length l = length m ->
  map2 f (l ++ l') (m ++ m') = map2 f l m ++ map2 f l' m'.
Proof.
  revert m. induction l as [|a l IH]; intros [|b m] Hlen; simpl in *;
    try reflexivity; try discriminate.
  f_equal. apply IH. now injection Hlen.
Qed.

Lemma inv_INR_nonneg (n : nat) : 0 <= / INR n.
Proof.
  destruct n as [|n].
  - simpl. rewrite Rinv_0. lra.
  - left. apply Rinv_0_lt_compat. apply lt_0_INR. lia.
Qed.

End TorchFacts.

(** ** [FocalLoss] *)

Section FocalLossFacts.
Import Torch.

Lemma FocalLoss_weights (self : FocalLoss.t) (logits targets : list R) :
  map2 Rmult
    (map (fun tg => tg * FocalLoss.alpha self
                    + (1 - tg) * (1 - FocalLoss.alpha self)) targets)
    (map (fun p => (1 - p) ^ FocalLoss.gamma self)
       (where_ (eq_scalar targets 1) (map sigmoid logits)
          (map (fun p => 1 - p) (map sigmoid logits))))
  = map2 (FocalLoss.weight self) logits targets.
Proof.
  revert targets.
  induction logits as [|x logits IH]; intros [|tg targets]; simpl;
    try reflexivity.
  rewrite IH. unfold FocalLoss.weight at 2.
  destruct (Req_dec_T tg 1); reflexivity.
Qed.

(** What [forward] computes on tensors of the same size. *)
Lemma FocalLoss_forward_eq (self : FocalLoss.t) (logits targets : list R) :
  length targets = length logits ->
  FocalLoss.forward self logits targets
  = Ok (mean (mul_broadcast (map2 (FocalLoss.weight self) logits targets)
                (reduce (FocalLoss.reduction self)
                   (map2 bce_with_logits logits targets)))).
Proof.
  intros Hlen. unfold FocalLoss.forward, binary_cross_entropy_with_logits.
  rewrite Hlen, Nat.eqb_refl. simpl bind.
  now rewrite FocalLoss_weights.
Qed.

(** With the default [reduction='sum'] the cross-entropy is summed over
    the whole tensor before it is weighted: the result is the mean of the
    weights times the total cross-entropy. *)
Lemma FocalLoss_forward_sum (self : FocalLoss.t) (logits targets : list R) :
  length targets = length logits ->
  FocalLoss.reduction self = sum_ ->
  FocalLoss.forward self logits targets
  = Ok (sum (map2 (FocalLoss.weight self) logits targets)
        * sum (map2 bce_with_logits logits targets)
        / INR (length logits)).
Proof.
  intros Hlen Hred. rewrite FocalLoss_forward_eq by assumption.
  rewrite Hred. simpl reduce. simpl mul_broadcast. unfold mean.
  rewrite sum_map_scale, length_map, map2_length by (now symmetry).
  reflexivity.
Qed.

Lemma FocalLoss_weight_paper (self : FocalLoss.t) (x tg : R) :
  tg = 0 \/ tg = 1 ->
  FocalLoss.weight self x tg * bce_with_logits x tg
  = FocalLoss.paper_elem (FocalLoss.alpha self) (FocalLoss.gamma self) x tg.
Proof.
  unfold FocalLoss.weight, FocalLoss.paper_elem, FocalLoss.paper_alpha_t,
    FocalLoss.paper_p_t.
  intros [-> | ->]; destruct (Req_dec_T _ 1); try lra; f_equal; f_equal; lra.
Qed.

(** With [reduction='none'] the code is the loss of the paper. *)
Lemma FocalLoss_forward_none_is_paper (self : FocalLoss.t)
    (logits targets : list R) :
  length targets = length logits ->
  FocalLoss.binary targets ->
  FocalLoss.reduction self = none ->
  FocalLoss.forward self logits targets
  = Ok (FocalLoss.paper_mean (FocalLoss.alpha self) (FocalLoss.gamma self)
          logits targets).
Proof.
  intros Hlen Hbin Hred. rewrite FocalLoss_forward_eq by assumption.
  rewrite Hred. simpl. unfold FocalLoss.paper_mean. do 2 f_equal.
  clear Hred. revert logits Hlen.
  induction Hbin as [|tg targets Htg _ IH]; intros [|x logits] Hlen;
    simpl in *; try reflexivity; try discriminate.
  rewrite FocalLoss_weight_paper by assumption.
  f_equal. apply IH. now injection Hlen.
Qed.

Lemma FocalLoss_weight_nonneg (self : FocalLoss.t) (x tg : R) :
  0 <= FocalLoss.alpha self <= 1 -> tg = 0 \/ tg = 1 ->
  0 <= FocalLoss.weight self x tg.
Proof.
  intros Ha Htg. unfold FocalLoss.weight.
  pose proof (sigmoid_pos x). pose proof (sigmoid_lt_1 x).
  apply Rmult_le_pos.
  - destruct Htg as [-> | ->]; lra.
  - apply pow_le. destruct (Req_dec_T tg 1); lra.
Qed.

Lemma FocalLoss_weight_towards (self : FocalLoss.t) (x x' tg : R) :
  0 <= FocalLoss.alpha self <= 1 ->
  (tg = 1 /\ x <= x') \/ (tg = 0 /\ x' <= x) ->
  FocalLoss.weight self x' tg <= FocalLoss.weight self x tg.
Proof.
  intros Ha Hmove. unfold FocalLoss.weight.
  pose proof (sigmoid_pos x). pose proof (sigmoid_lt_1 x).
  pose proof (sigmoid_pos x'). pose proof (sigmoid_lt_1 x').
  destruct Hmove as [[-> Hx] | [-> Hx]]; apply sigmoid_le in Hx;
    (apply Rmult_le_compat_l; [lra|]); apply pow_incr;
    destruct (Req_dec_T _ 1); lra.
Qed.

End FocalLossFacts.

Section FocalLossMonotone.
Import Torch.

(** [l'] is below [l], element by element, and not negative. *)
Local Abbreviation below := (Forall2 (fun a b : R => 0 <= a <= b)).

Lemma below_length (l' l : list R) : below l' l -> length l' = length l.
Proof. induction 1; simpl; congruence. Qed.

Lemma below_sum (l' l : list R) : below l' l -> 0 <= sum l' <= sum l.
Proof.
  induction 1 as [|a b l' l Hab _ IH].
  - unfold sum. simpl. lra.
  - rewrite !sum_cons. lra.
Qed.

Lemma below_sum_products (w' w c' c : list R) :
  below w' w -> below c' c ->
  sum (map2 Rmult w' c') <= sum (map2 Rmult w c).
Proof.
  intros Hw. revert c' c.
  induction Hw as [|a b w' w Hab _ IH]; intros c' c Hc.
  - simpl. lra.
  - destruct Hc as [|p q c' c Hpq Hc].
    + simpl. lra.
    + simpl map2. rewrite !sum_cons.
      specialize (IH _ _ Hc).
      assert (a * p <= b * q) by (apply Rmult_le_compat; lra).
      lra.
Qed.

Lemma below_mean_broadcast (red : reduction) (w' w c' c : list R) :
  below w' w -> below c' c -> length w = length c ->
  mean (mul_broadcast w' (reduce red c'))
  <= mean (mul_broadcast w (reduce red c)).
Proof.
  intros Hw Hc Hlen.
  pose proof (below_length _ _ Hw) as Hlw.
  pose proof (below_length _ _ Hc) as Hlc.
  pose proof (below_sum _ _ Hw) as Hsw.
  pose proof (below_sum _ _ Hc) as Hsc.
  pose proof (inv_INR_nonneg (length w)) as Hn.
  destruct red; simpl reduce; simpl mul_broadcast; unfold mean.
  - rewrite !map2_length by congruence. rewrite Hlw.
    apply Rmult_le_compat_r; [assumption|].
    now apply below_sum_products.
  - rewrite !sum_map_scale, !length_map, Hlw, Hlc, <- Hlen.
    apply Rmult_le_compat_r; [assumption|].
    apply Rmult_le_compat; try lra.
    + apply Rmult_le_pos; lra.
    + apply Rmult_le_compat_r; lra.
  - rewrite !sum_map_scale, !length_map, Hlw.
    apply Rmult_le_compat_r; [assumption|].
    apply Rmult_le_compat; lra.
Qed.

Lemma below_refl_map2 (f : R -> R -> R) (logits targets : list R) :
  Forall (fun tg => forall x, 0 <= f x tg) targets ->
  below (map2 f logits targets) (map2 f logits targets).
Proof.
  intros Hf. revert logits.
  induction Hf as [|tg targets Htg _ IH]; intros [|x logits]; simpl;
    constructor.
  - specialize (Htg x). lra.
  - apply IH.
Qed.

Lemma below_map2_move (f : R -> R -> R) (l1 l2 t1 t2 : list R)
    (x x' tg : R) :
  length t1 = length l1 ->
  Forall (fun tg => forall x, 0 <= f x tg) (t1 ++ tg :: t2) ->
  f x' tg <= f x tg ->
  below (map2 f (l1 ++ x' :: l2) (t1 ++ tg :: t2))
        (map2 f (l1 ++ x :: l2) (t1 ++ tg :: t2)).
Proof.
  intros Hlen Hf Hmove.
  rewrite !map2_app by (now symmetry). simpl map2.
  apply Forall_app in Hf. destruct Hf as [Hf1 Hf2].
  apply Forall2_app; [now apply below_refl_map2|].
  inversion Hf2 as [|? ? Htg Hf3]; subst.
  constructor.
  - specialize (Htg x'). lra.
  - now apply below_refl_map2.
Qed.

End FocalLossMonotone.

(** C1.  Code against claim at the logits [0; 0] with the targets
    [1; 0]: [forward] with the default [reduction='sum'] multiplies every
    weight by the cross-entropy summed over the whole tensor and returns
    [ln 2 / 4], while the mean of the focal loss of the cited paper,
    [alpha_t * (1 - p_t)^gamma * ce_t] with the cross-entropy of the
    element, is [ln 2 / 8]. *)
Theorem FocalLoss_forward_default_sums_cross_entropy :
  Torch.Ok (ln 2 / 4)
  = FocalLoss.forward FocalLoss.default [0; 0] [1; 0] /\
  FocalLoss.paper_mean (FocalLoss.alpha FocalLoss.default)
    (FocalLoss.gamma FocalLoss.default) [0; 0] [1; 0] = ln 2 / 8 /\
  ln 2 / 4 <> ln 2 / 8.
Proof.
  pose proof ln_2_pos as Hln.
  split; [|split].
  - rewrite FocalLoss_forward_sum by reflexivity.
    f_equal. unfold FocalLoss.weight. simpl.
    unfold Torch.sum. simpl.
    destruct (Req_dec_T 1 1) as [_|Hne]; [|lra].
    destruct (Req_dec_T 0 1) as [Heq|_]; [lra|].
    rewrite bce_with_logits_1, bce_with_logits_0, sigmoid_0.
    replace (1 - / 2) with (/ 2) by lra.
    rewrite ln_half. lra.
  - unfold FocalLoss.paper_mean, FocalLoss.paper_elem,
      FocalLoss.paper_alpha_t, FocalLoss.paper_p_t, Torch.mean, Torch.sum.
    simpl.
    destruct (Req_dec_T 1 1) as [_|Hne]; [|lra].
    destruct (Req_dec_T 0 1) as [Heq|_]; [lra|].
    rewrite bce_with_logits_1, bce_with_logits_0, sigmoid_0.
    replace (1 - / 2) with (/ 2) by lra.
    rewrite ln_half. lra.
  - lra.
Qed.

(** C6.  For binary targets and a weight [alpha] between 0 and 1, moving
    one logit towards its target (up for the target 1, down for the
    target 0), all other logits fixed, does not increase the value that
    [forward] returns. *)
Theorem FocalLoss_forward_monotone (self : FocalLoss.t)
    (l1 l2 t1 t2 : list R) (x x' tg : R) :
  0 <= FocalLoss.alpha self <= 1 ->
  length t1 = length l1 ->
  length t2 = length l2 ->
  FocalLoss.binary (t1 ++ tg :: t2) ->
  (tg = 1 /\ x <= x') \/ (tg = 0 /\ x' <= x) ->
  exists r r' : R,
    FocalLoss.forward self (l1 ++ x :: l2) (t1 ++ tg :: t2) = Torch.Ok r /\
    FocalLoss.forward self (l1 ++ x' :: l2) (t1 ++ tg :: t2) = Torch.Ok r' /\
    r' <= r.
Proof.
  intros Ha Hl1 Hl2 Hbin Hmove.
  assert (Hlen : forall y, length (t1 ++ tg :: t2) = length (l1 ++ y :: l2))
    by (intros y; rewrite !length_app; simpl; lia).
  do 2 eexists. split; [|split].
  - apply FocalLoss_forward_eq, Hlen.
  - apply FocalLoss_forward_eq, Hlen.
  - apply below_mean_broadcast.
    + apply below_map2_move; [assumption| |].
      * eapply Forall_impl; [|exact Hbin].
        intros a Hbin_a y. now apply FocalLoss_weight_nonneg.
      * now apply FocalLoss_weight_towards.
    + apply below_map2_move; [assumption| |].
      * eapply Forall_impl; [|exact Hbin].
        intros a Hbin_a y. now apply bce_with_logits_nonneg.
      * now apply bce_with_logits_towards.
    + rewrite !map2_length; auto.
Qed.

(** The default loss, on the logits [0; 0] with the targets [1; 0], when
    the first logit moves up to 1. *)
Lemma FocalLoss_forward_monotone_witness :
  exists r r' : R,
    FocalLoss.forward FocalLoss.default ([] ++ 0 :: [0]) ([] ++ 1 :: [0])
    = Torch.Ok r /\
    FocalLoss.forward FocalLoss.default ([] ++ 1 :: [0]) ([] ++ 1 :: [0])
    = Torch.Ok r' /\
    r' <= r.
Proof.
  apply (FocalLoss_forward_monotone FocalLoss.default [] [0] [] [0] 0 1 1).
  - simpl. split; lra.
  - reflexivity.
  - reflexivity.
  - constructor; [now right|]. constructor; [now left|]. constructor.
  - left. split; lra.
Defined.

(** ** Sorting indices *)

Section ArgsortFacts.
Import Torch.

Variable le : nat -> nat -> bool.

Lemma insert_by_perm (i : nat) (l : list nat) :
  Permutation (insert_by le i l) (i :: l).
Proof.
  induction l as [|j l IH]; simpl.
  - apply Permutation_refl.
  - destruct (le i j).
    + apply Permutation_refl.
    + apply perm_trans with (j :: i :: l).
      * now apply perm_skip.
      * apply perm_swap.
Qed.

Lemma argsort_by_perm_from (a n : nat) :
  Permutation (fold_right (insert_by le) [] (seq a n)) (seq a n).
Proof.
  revert a. induction n as [|n IH]; intros a; simpl.
  - apply perm_nil.
  - eapply perm_trans; [apply insert_by_perm|].
    apply perm_skip, IH.
Qed.

Lemma argsort_by_perm (n : nat) : Permutation (argsort_by le n) (seq 0 n).
Proof. apply argsort_by_perm_from. Qed.

Hypothesis le_total : forall i j, le i j = false -> le j i = true.
Hypothesis le_trans :
  forall i j k, le i j = true -> le j k = true -> le i k = true.

Local Abbreviation sorted_by := (StronglySorted (fun i j => le i j = true)).

Lemma insert_by_sorted (i : nat) (l : list nat) :
  sorted_by l -> sorted_by (insert_by le i l).
Proof.
  induction 1 as [|j l Hl IH Hj]; simpl.
  - constructor; constructor.
  - destruct (le i j) eqn:Hij.
    + constructor.
      * now constructor.
      * constructor; [assumption|].
        eapply Forall_impl; [|exact Hj].
        intros k Hjk. now apply le_trans with j.
    + constructor; [assumption|].
      eapply Permutation_Forall.
      * apply Permutation_sym, insert_by_perm.
      * constructor; [now apply le_total | assumption].
Qed.

Lemma argsort_by_sorted (n : nat) : sorted_by (argsort_by le n).
Proof.
  unfold argsort_by. generalize 0%nat as a.
  induction n as [|n IH]; intros a; simpl.
  - constructor.
  - apply insert_by_sorted, IH.
Qed.

End ArgsortFacts.

Section SortedFacts.
Import Torch.

Lemma StronglySorted_map {A B : Type} (ord : B -> B -> Prop) (f : A -> B)
    (l : list A) :
  StronglySorted (fun x y => ord (f x) (f y)) l ->
  StronglySorted ord (map f l).
Proof.
  induction 1 as [|a l _ IH Ha]; simpl; constructor.
  - assumption.
  - rewrite Forall_map. assumption.
Qed.

Lemma StronglySorted_app_order {A : Type} (ord : A -> A -> Prop)
    (l l' : list A) :
  StronglySorted ord (l ++ l') ->
  forall x y, In x l -> In y l' -> ord x y.
Proof.
  induction l as [|a l IH]; simpl; intros Hs x y Hx Hy.
  - contradiction.
  - inversion Hs as [|? ? Hs' Ha]; subst.
    destruct Hx as [<- | Hx].
    + rewrite Forall_forall in Ha. apply Ha, in_or_app. now right.
    + now apply IH.
Qed.

(** A sorted rearrangement of [a, a+1, ..., a+n-1] is that list. *)
Lemma sorted_perm_seq (n a : nat) (l : list nat) :
  StronglySorted Nat.le l -> Permutation l (seq a n) -> l = seq a n.
Proof.
  revert a l. induction n as [|n IH]; intros a l Hs Hp; simpl in *.
  - now apply Permutation_sym, Permutation_nil in Hp.
  - destruct l as [|b l].
    + apply Permutation_nil in Hp. discriminate.
    + inversion Hs as [|? ? Hs' Hb]; subst.
      assert (b = a) as ->.
      { assert (Hin : In a (b :: l))
          by (eapply Permutation_in; [apply Permutation_sym, Hp | now left]).
        assert (Hbin : In b (a :: seq (S a) n))
          by (eapply Permutation_in; [exact Hp | now left]).
        destruct Hin as [-> | Hin]; [reflexivity|].
        rewrite Forall_forall in Hb. specialize (Hb _ Hin).
        destruct Hbin as [<- | Hbin]; [reflexivity|].
        apply in_seq in Hbin. lia. }
      f_equal. apply IH; [assumption|].
      now apply Permutation_cons_inv in Hp.
Qed.

Lemma argsort_asc_perm (p : list nat) :
  Permutation (argsort_asc p) (seq 0 (length p)).
Proof. apply argsort_by_perm. Qed.

Lemma argsort_asc_length (p : list nat) : length (argsort_asc p) = length p.
Proof.
  rewrite (Permutation_length (argsort_asc_perm p)). apply length_seq.
Qed.

Lemma StronglySorted_weaken {A : Type} (r1 r2 : A -> A -> Prop)
    (l : list A) :
  (forall x y, r1 x y -> r2 x y) ->
  StronglySorted r1 l -> StronglySorted r2 l.
Proof.
  intros Hr. induction 1 as [|a l _ IH Ha]; constructor.
  - assumption.
  - eapply Forall_impl; [|exact Ha]. intros y. apply Hr.
Qed.

Lemma argsort_asc_sorted (p : list nat) :
  StronglySorted Nat.le (map (fun i => nth i p 0%nat) (argsort_asc p)).
Proof.
  apply StronglySorted_map.
  eapply StronglySorted_weaken; [|apply argsort_by_sorted].
  - intros x y Hxy. now apply Nat.leb_le.
  - intros i j Hij. apply Nat.leb_le. apply Nat.leb_gt in Hij. lia.
  - intros i j k Hij Hjk. apply Nat.leb_le.
    apply Nat.leb_le in Hij, Hjk. lia.
Qed.

(** The insertion sort of the indices by the values is a sort in the
    sense of [sorts_descending]. *)
Lemma insertion_sorter_sorts : sorts_descending insertion_sorter.
Proof.
  intros v. split.
  - apply argsort_by_perm.
  - apply StronglySorted_map.
    eapply StronglySorted_weaken; [|apply argsort_by_sorted].
    + intros x y Hxy. cbv beta in Hxy.
      destruct (Rle_dec (nth y v 0) (nth x v 0)); [lra | discriminate].
    + intros i j Hij.
      destruct (Rle_dec (nth j v 0) (nth i v 0)); [discriminate|].
      destruct (Rle_dec (nth i v 0) (nth j v 0)); [reflexivity | lra].
    + intros i j k Hij Hjk.
      destruct (Rle_dec (nth j v 0) (nth i v 0)); [|discriminate].
      destruct (Rle_dec (nth k v 0) (nth j v 0)); [|discriminate].
      destruct (Rle_dec (nth k v 0) (nth i v 0)); [reflexivity | lra].
Qed.

(** For a rearrangement [p] of [0, ..., n-1], the second sort gives every
    value its position in [p]: [argsort_asc p] is the inverse of [p]. *)
Lemma argsort_asc_inverse (p : list nat) (n : nat) :
  Permutation p (seq 0 n) ->
  forall m, (m < n)%nat ->
    (nth m (argsort_asc p) 0 < n)%nat /\
    nth (nth m (argsort_asc p) 0%nat) p 0%nat = m.
Proof.
  intros Hp m Hm.
  assert (Hlen : length p = n)
    by (rewrite (Permutation_length Hp); apply length_seq).
  pose proof (argsort_asc_perm p) as Hq. rewrite Hlen in Hq.
  assert (Hqlen : length (argsort_asc p) = n)
    by (rewrite argsort_asc_length; exact Hlen).
  split.
  - assert (Hin : In (nth m (argsort_asc p) 0%nat) (argsort_asc p))
      by (apply nth_In; lia).
    eapply Permutation_in in Hin; [|exact Hq].
    apply in_seq in Hin. lia.
  - assert (Hkeys : map (fun i => nth i p 0%nat) (argsort_asc p) = seq 0 n).
    { apply sorted_perm_seq; [apply argsort_asc_sorted|].
      eapply perm_trans; [apply Permutation_map, Hq|].
      eapply perm_trans; [|exact Hp].
      rewrite <- Hlen. clear.
      replace (map (fun i => nth i p 0%nat) (seq 0 (length p))) with p;
        [apply Permutation_refl|].
      symmetry. apply nth_ext with (d := 0%nat) (d' := 0%nat).
      - now rewrite length_map, length_seq.
      - intros i Hi. rewrite length_map, length_seq in Hi.
        rewrite (nth_indep _ 0%nat (nth 0 p 0%nat))
          by (now rewrite length_map, length_seq).
        rewrite (map_nth (fun i => nth i p 0%nat)).
        now rewrite seq_nth. }
    assert (Hnth : nth m (map (fun i => nth i p 0%nat) (argsort_asc p)) 0%nat
                   = nth m (seq 0 n) 0%nat) by (now rewrite Hkeys).
    rewrite seq_nth in Hnth by assumption. simpl in Hnth.
    rewrite <- Hnth at 2.
    rewrite <- (map_nth (fun i => nth i p 0%nat)).
    apply nth_indep. now rewrite length_map, Hqlen.
Qed.

End SortedFacts.

(** ** [OHEM]: the selection of one row *)

Section ListFacts.
Import Torch.

Lemma nth_map2 {A B C : Type} (f : A -> B -> C) (l : list A) (l' : list B)
    (m : nat) (da : A) (db : B) (dc : C) :
  (m < length l)%nat -> length l = length l' ->
  nth m (map2 f l l') dc = f (nth m l da) (nth m l' db).
Proof.
  revert l' m. induction l as [|a l IH]; intros [|b l'] m Hm Hlen;
    simpl in *; try lia.
  destruct m as [|m]; [reflexivity|].
  apply IH; lia.
Qed.

Lemma nth_map_in {A B : Type} (f : A -> B) (l : list A) (m : nat)
    (da : A) (db : B) :
  (m < length l)%nat -> nth m (map f l) db = f (nth m l da).
Proof.
  intros Hm. rewrite (nth_indep _ db (f da)) by (now rewrite length_map).
  apply map_nth.
Qed.

Lemma nth_error_map2 {A B C : Type} (f : A -> B -> C) (l : list A)
    (l' : list B) (i : nat) (a : A) (b : B) :
  nth_error l i = Some a -> nth_error l' i = Some b ->
  nth_error (map2 f l l') i = Some (f a b).
Proof.
  revert l' i. induction l as [|x l IH]; intros [|y l'] [|i] Ha Hb;
    simpl in *; try discriminate.
  - congruence.
  - now apply IH.
Qed.

Lemma filter_map_length {A B : Type} (f : B -> bool) (h : A -> B)
    (s : list A) :
  length (filter f (map h s)) = length (filter (fun x => f (h x)) s).
Proof.
  induction s as [|i s IH]; [reflexivity|].
  simpl. destruct (f (h i)); simpl; now rewrite IH.
Qed.

Lemma filter_seq_length {A : Type} (g : A -> bool) (d : A) (l : list A) :
  length (filter (fun m => g (nth m l d)) (seq 0 (length l)))
  = length (filter g l).
Proof.
  induction l as [|a l IH]; [reflexivity|].
  simpl length at 2. rewrite <- cons_seq, <- seq_shift.
  simpl filter at 1.
  pose proof (filter_map_length (fun m => g (nth m (a :: l) d)) S
                (seq 0 (length l))) as Hshift.
  simpl in Hshift. simpl.
  destruct (g a); simpl; rewrite Hshift, IH; reflexivity.
Qed.

Lemma firstn_In {A : Type} (j : nat) (l : list A) (x : A) :
  In x (firstn j l) -> In x l.
Proof.
  intros Hin. rewrite <- (firstn_skipn j l). apply in_or_app. now left.
Qed.

(** A list sorted downwards by a value that is positive on the elements
    with [f] and zero on the others has the elements with [f] first. *)
Lemma sorted_split (val : nat -> R) (f : nat -> bool) (l : list nat) :
  StronglySorted Rge (map val l) ->
  (forall x, In x l -> f x = true -> 0 < val x) ->
  (forall x, In x l -> f x = false -> val x = 0) ->
  exists l1 l2, l = l1 ++ l2 /\
    Forall (fun x => f x = true) l1 /\ Forall (fun x => f x = false) l2.
Proof.
  induction l as [|a l IH]; intros Hs Hpos Hzero.
  - exists [], []. repeat split; constructor.
  - simpl in Hs. inversion Hs as [|? ? Hs' Ha]; subst.
    destruct IH as (l1 & l2 & -> & H1 & H2); [assumption| | |].
    + intros x Hx. apply Hpos. now right.
    + intros x Hx. apply Hzero. now right.
    + destruct (f a) eqn:Hfa.
      * exists (a :: l1), l2. repeat split; [now constructor | assumption].
      * exists [], (a :: l1 ++ l2). repeat split; [constructor|].
        constructor; [assumption|].
        apply Forall_forall. intros x Hx.
        destruct (f x) eqn:Hfx; [|reflexivity].
        exfalso.
        assert (0 < val x) by (apply Hpos; [now right | assumption]).
        assert (val a = 0) by (apply Hzero; [now left | assumption]).
        rewrite Forall_forall in Ha.
        specialize (Ha (val x) (in_map val _ _ Hx)). lra.
Qed.

End ListFacts.

Section Selection.
Import Torch.

(** [p] lists the anchors [0, ..., n-1] by falling value [val]; the
    anchors with [isneg] have a positive value, the others zero.  The
    anchors selected are those with [isneg] whose rank in [p] is below
    [k]. *)
Variables (n : nat) (val : nat -> R) (isneg : nat -> bool) (p : list nat).
Variable k : nat.
Hypothesis Hp : Permutation p (seq 0 n).
Hypothesis Hs : StronglySorted Rge (map val p).
Hypothesis Hpos : forall m, (m < n)%nat -> isneg m = true -> 0 < val m.
Hypothesis Hzero : forall m, (m < n)%nat -> isneg m = false -> val m = 0.

Let rank (m : nat) : nat := nth m (argsort_asc p) 0%nat.
Let selected : list nat :=
  filter (fun m => Nat.ltb (rank m) k && isneg m) (seq 0 n).

Lemma p_length : length p = n.
Proof. rewrite (Permutation_length Hp). apply length_seq. Qed.

Lemma p_NoDup : NoDup p.
Proof.
  eapply Permutation_NoDup; [apply Permutation_sym, Hp | apply seq_NoDup].
Qed.

Lemma p_in (m : nat) : In m p <-> (m < n)%nat.
Proof.
  split; intros H.
  - eapply Permutation_in in H; [|exact Hp]. apply in_seq in H. lia.
  - eapply Permutation_in; [apply Permutation_sym, Hp|].
    apply in_seq. lia.
Qed.

Lemma rank_below_iff (m : nat) :
  (m < n)%nat -> ((rank m < k)%nat <-> In m (firstn k p)).
Proof.
  intros Hm. unfold rank.
  destruct (argsort_asc_inverse p n Hp m Hm) as [Hr Hinv].
  split.
  - intros Hk. rewrite <- Hinv.
    replace (nth (nth m (argsort_asc p) 0%nat) p 0%nat)
      with (nth (nth m (argsort_asc p) 0%nat) (firstn k p) 0%nat).
    + apply nth_In. rewrite length_firstn, p_length. lia.
    + rewrite nth_firstn.
      destruct (Nat.ltb_spec (nth m (argsort_asc p) 0%nat) k);
        [reflexivity | lia].
  - intros Hin.
    apply (In_nth _ _ 0%nat) in Hin. destruct Hin as (r & Hr' & Hnth).
    rewrite length_firstn, p_length in Hr'.
    rewrite nth_firstn in Hnth.
    destruct (Nat.ltb_spec r k) as [Hrk|Hrk]; [|lia].
    assert (r = nth m (argsort_asc p) 0%nat) as <-; [|assumption].
    pose proof p_NoDup as Hnd.
    rewrite (NoDup_nth p 0%nat) in Hnd.
    apply Hnd; rewrite ?p_length; lia.
Qed.

Lemma p_split :
  exists l1 l2, p = l1 ++ l2 /\
    Forall (fun x => isneg x = true) l1 /\
    Forall (fun x => isneg x = false) l2.
Proof.
  apply sorted_split with (val := val); [exact Hs | |].
  - intros x Hx. apply Hpos. now apply p_in.
  - intros x Hx. apply Hzero. now apply p_in.
Qed.

Lemma selected_in (l1 l2 : list nat) :
  p = l1 ++ l2 ->
  Forall (fun x => isneg x = true) l1 ->
  Forall (fun x => isneg x = false) l2 ->
  forall m, In m selected <-> In m (firstn k l1).
Proof.
  intros Hsplit H1 H2 m. unfold selected.
  rewrite Forall_forall in H1, H2.
  rewrite filter_In, in_seq, andb_true_iff, Nat.ltb_lt.
  split.
  - intros (Hm & Hk & Hneg).
    apply rank_below_iff in Hk; [|lia].
    rewrite Hsplit, firstn_app in Hk. apply in_app_or in Hk.
    destruct Hk as [Hk | Hk]; [assumption|].
    apply firstn_In in Hk. apply H2 in Hk. congruence.
  - intros Hin.
    assert (Hl1 : In m l1) by (apply firstn_In in Hin; exact Hin).
    assert (Hm : (m < n)%nat)
      by (apply p_in; rewrite Hsplit; apply in_or_app; now left).
    split; [lia|]. split; [|now apply H1].
    apply rank_below_iff; [assumption|].
    rewrite Hsplit, firstn_app. apply in_or_app. now left.
Qed.

Lemma NoDup_firstn_of {A : Type} (j : nat) (l : list A) :
  NoDup l -> NoDup (firstn j l).
Proof.
  intros Hnd. rewrite <- (firstn_skipn j l) in Hnd.
  now apply NoDup_app_remove_r in Hnd.
Qed.

Lemma selected_length :
  length selected = Nat.min k (length (filter isneg (seq 0 n))).
Proof.
  destruct p_split as (l1 & l2 & Hsplit & H1 & H2).
  pose proof p_NoDup as Hnd. rewrite Hsplit in Hnd.
  assert (Hnd1 : NoDup l1) by (now apply NoDup_app_remove_r in Hnd).
  assert (Hsel : Permutation selected (firstn k l1)).
  { apply NoDup_Permutation.
    - apply NoDup_filter, seq_NoDup.
    - now apply NoDup_firstn_of.
    - now apply selected_in with l2. }
  assert (Hall : Permutation l1 (filter isneg (seq 0 n))).
  { apply NoDup_Permutation; [assumption | apply NoDup_filter, seq_NoDup |].
    intros x. rewrite filter_In, in_seq.
    rewrite Forall_forall in H1, H2. split.
    - intros Hx. split; [|now apply H1].
      assert ((x < n)%nat)
        by (apply p_in; rewrite Hsplit; apply in_or_app; now left).
      lia.
    - intros [Hx Hneg].
      assert (Hin : In x p) by (apply p_in; lia).
      rewrite Hsplit in Hin. apply in_app_or in Hin.
      destruct Hin as [Hin | Hin]; [assumption|].
      apply H2 in Hin. congruence. }
  rewrite (Permutation_length Hsel), length_firstn.
  now rewrite (Permutation_length Hall).
Qed.

Lemma selected_order (m m' : nat) :
  In m selected -> (m' < n)%nat -> isneg m' = true -> ~ In m' selected ->
  val m' <= val m.
Proof.
  intros Hm Hm' Hneg Hnot.
  destruct p_split as (l1 & l2 & Hsplit & H1 & H2).
  rewrite (selected_in l1 l2 Hsplit H1 H2) in Hm, Hnot.
  rewrite Forall_forall in H2.
  assert (Hin : In m' (skipn k l1 ++ l2)).
  { assert (Hin : In m' p) by (now apply p_in).
    rewrite Hsplit, <- (firstn_skipn k l1), <- app_assoc in Hin.
    apply in_app_or in Hin. destruct Hin as [Hin | Hin];
      [contradiction | assumption]. }
  pose proof Hs as Hsorted.
  rewrite Hsplit, <- (firstn_skipn k l1), <- app_assoc, map_app in Hsorted.
  apply Rge_le.
  apply (StronglySorted_app_order _ _ _ Hsorted); now apply in_map.
Qed.

End Selection.

Section CrossEntropyFacts.
Import Torch.

Lemma nth_le_sum (l : list R) (i : nat) :
  Forall (fun x => 0 < x) l -> (i < length l)%nat -> nth i l 0 <= sum l.
Proof.
  intros Hl. revert i. induction Hl as [|a l Ha Hl IH]; intros i Hi.
  - simpl in Hi. lia.
  - rewrite sum_cons.
    assert (0 <= sum l).
    { apply sum_nonneg. eapply Forall_impl; [|exact Hl].
      intros x Hx. lra. }
    destruct i as [|i]; simpl.
    + lra.
    + simpl in Hi. specialize (IH i ltac:(lia)). lra.
Qed.

Lemma nth_lt_sum (l : list R) (i : nat) :
  Forall (fun x => 0 < x) l -> (2 <= length l)%nat -> (i < length l)%nat ->
  nth i l 0 < sum l.
Proof.
  intros Hl H2 Hi.
  destruct l as [|a l]; [simpl in Hi; lia|].
  inversion Hl as [|? ? Ha Hl']; subst.
  rewrite sum_cons.
  destruct i as [|i]; simpl.
  - destruct l as [|b l]; [simpl in H2; lia|].
    inversion Hl' as [|? ? Hb Hl'']; subst.
    rewrite sum_cons.
    assert (0 <= sum l).
    { apply sum_nonneg. eapply Forall_impl; [|exact Hl''].
      intros x Hx. lra. }
    lra.
  - simpl in Hi.
    pose proof (nth_le_sum l i Hl' ltac:(lia)). lra.
Qed.

(** With at least two classes, the cross-entropy of a sample is
    positive. *)
Lemma cross_entropy_pos (x : list R) (c : Z) :
  (2 <= length x)%nat -> (0 <= c < Z.of_nat (length x))%Z ->
  0 < cross_entropy x c.
Proof.
  intros H2 Hc. unfold cross_entropy.
  assert (Hi : (Z.to_nat c < length x)%nat) by lia.
  assert (Hall : Forall (fun y => 0 < y) (map exp x)).
  { rewrite Forall_map. apply Forall_forall. intros y _. apply exp_pos. }
  pose proof (nth_lt_sum (map exp x) (Z.to_nat c) Hall) as Hlt.
  rewrite length_map in Hlt. specialize (Hlt H2 Hi).
  rewrite (nth_map_in exp x _ 0 0) in Hlt by assumption.
  apply ln_increasing in Hlt; [|apply exp_pos].
  rewrite ln_exp in Hlt. lra.
Qed.

End CrossEntropyFacts.

Section OHEMRow.
Import Torch.

Variables (self : OHEM.t) (srt : sorter).
Hypothesis Hsrt : sorts_descending srt.

Variables (A C : nat) (lr : list (list R)) (tr : list Z).
Hypothesis Hlr : length lr = A.
Hypothesis Htr : length tr = A.
Hypothesis Hvec : Forall (fun x => length x = C) lr.
Hypothesis Hcls : Forall (fun l => (0 <= l < Z.of_nat C)%Z) tr.
Hypothesis HC : (2 <= C)%nat.

Let pos : list bool := map (fun l => Z.eqb l 1) tr.
Let v : list R :=
  map2 (fun (m : bool) x => if m then 0 else x) pos
    (map2 cross_entropy lr tr).
Let hard : list bool :=
  OHEM.hard_row pos (OHEM.row_neg_mask self srt (Z.of_nat A) lr tr).

Lemma row_v_length : length v = A.
Proof.
  unfold v, pos. rewrite map2_length; rewrite length_map; [assumption|].
  rewrite map2_length; congruence.
Qed.

Lemma row_v_nth (m : nat) :
  (m < A)%nat ->
  nth m v 0 = if Z.eqb (nth m tr 0%Z) 1 then 0 else OHEM.loss_at lr tr m.
Proof.
  intros Hm. unfold v, pos, OHEM.loss_at.
  rewrite (nth_map2 _ _ _ m false 0 0).
  - rewrite (nth_map_in _ tr m 0%Z false) by lia.
    rewrite (nth_map2 _ _ _ m [] 0%Z 0) by lia.
    reflexivity.
  - rewrite length_map. lia.
  - rewrite length_map, map2_length; congruence.
Qed.

Lemma row_loss_pos (m : nat) : (m < A)%nat -> 0 < OHEM.loss_at lr tr m.
Proof.
  intros Hm. unfold OHEM.loss_at.
  rewrite Forall_forall in Hvec, Hcls.
  assert (Hx : length (nth m lr []) = C) by (apply Hvec, nth_In; lia).
  assert (Hl : (0 <= nth m tr 0 < Z.of_nat C)%Z) by (apply Hcls, nth_In; lia).
  apply cross_entropy_pos; rewrite Hx; assumption.
Qed.

Lemma row_hard_length : length hard = A.
Proof.
  unfold hard, OHEM.hard_row, OHEM.row_neg_mask, pos.
  destruct (Hsrt v) as [Hperm _]. fold pos. fold v.
  assert (Hpl : length pos = A) by (unfold pos; now rewrite length_map).
  rewrite map2_length; [assumption|].
  rewrite length_map, argsort_asc_length, (Permutation_length Hperm).
  rewrite length_seq, row_v_length. congruence.
Qed.

Lemma row_hard_nth (m : nat) :
  (m < A)%nat ->
  nth m hard false
  = Nat.ltb (nth m (argsort_asc (srt v)) 0%nat)
      (Z.to_nat (OHEM.num_neg self A tr))
    && negb (Z.eqb (nth m tr 0%Z) 1).
Proof.
  intros Hm. unfold hard, OHEM.hard_row, OHEM.row_neg_mask.
  fold pos. fold v.
  destruct (Hsrt v) as [Hperm _].
  assert (Hq : length (argsort_asc (srt v)) = A).
  { rewrite argsort_asc_length, (Permutation_length Hperm), length_seq.
    apply row_v_length. }
  rewrite (nth_map2 _ _ _ m false false false).
  - unfold pos. rewrite (nth_map_in _ tr m 0%Z false) by lia.
    rewrite (nth_map_in _ _ m 0%nat false) by lia.
    f_equal. unfold OHEM.num_neg.
    set (kz := Z.min _ _).
    destruct (Z.ltb_spec (Z.of_nat (nth m (argsort_asc (srt v)) 0%nat)) kz);
      destruct (Nat.ltb_spec (nth m (argsort_asc (srt v)) 0%nat)
                  (Z.to_nat kz)); try reflexivity; lia.
  - unfold pos. rewrite length_map. lia.
  - unfold pos. rewrite !length_map. lia.
Qed.

Lemma row_indices_eq :
  OHEM.indices hard
  = filter (fun m => Nat.ltb (nth m (argsort_asc (srt v)) 0%nat)
                       (Z.to_nat (OHEM.num_neg self A tr))
                     && negb (Z.eqb (nth m tr 0%Z) 1)) (seq 0 A).
Proof.
  unfold OHEM.indices. rewrite row_hard_length.
  apply filter_ext_in. intros m Hm. apply in_seq in Hm.
  apply row_hard_nth. lia.
Qed.

Lemma OHEM_row_selection :
  length (OHEM.indices hard)
  = Nat.min (Z.to_nat (OHEM.num_neg self A tr)) (OHEM.non_positives tr) /\
  (forall m, In m (OHEM.indices hard) ->
     (m < A)%nat /\ nth m tr 0%Z <> 1%Z) /\
  (forall m m', In m (OHEM.indices hard) -> (m' < A)%nat ->
     nth m' tr 0%Z <> 1%Z -> ~ In m' (OHEM.indices hard) ->
     OHEM.loss_at lr tr m' <= OHEM.loss_at lr tr m).
Proof.
  destruct (Hsrt v) as [Hperm Hsorted]. rewrite row_v_length in Hperm.
  assert (Hpos : forall m, (m < A)%nat ->
            negb (Z.eqb (nth m tr 0%Z) 1) = true -> 0 < nth m v 0).
  { intros m Hm Hneg. rewrite row_v_nth by assumption.
    apply negb_true_iff in Hneg. rewrite Hneg. now apply row_loss_pos. }
  assert (Hzero : forall m, (m < A)%nat ->
            negb (Z.eqb (nth m tr 0%Z) 1) = false -> nth m v 0 = 0).
  { intros m Hm Hneg. rewrite row_v_nth by assumption.
    apply negb_false_iff in Hneg. now rewrite Hneg. }
  rewrite row_indices_eq. split; [|split].
  - rewrite (selected_length A (fun m => nth m v 0)
               (fun m => negb (Z.eqb (nth m tr 0%Z) 1)) (srt v)
               (Z.to_nat (OHEM.num_neg self A tr)) Hperm Hsorted Hpos Hzero).
    f_equal. unfold OHEM.non_positives. rewrite <- Htr.
    apply (filter_seq_length (fun l => negb (Z.eqb l 1)) 0%Z tr).
  - intros m Hm. apply filter_In in Hm. destruct Hm as [Hm Hb].
    apply in_seq in Hm. apply andb_true_iff in Hb. destruct Hb as [_ Hb].
    apply negb_true_iff, Z.eqb_neq in Hb. split; [lia | assumption].
  - intros m m' Hm Hm' Hneg Hnot.
    assert (Hm'' : (m < A)%nat /\ Z.eqb (nth m tr 0%Z) 1 = false).
    { apply filter_In in Hm. destruct Hm as [Hm Hb].
      apply in_seq in Hm. apply andb_true_iff in Hb. destruct Hb as [_ Hb].
      apply negb_true_iff in Hb. split; [lia | assumption]. }
    apply Z.eqb_neq in Hneg.
    pose proof (selected_order A (fun m => nth m v 0)
                  (fun m => negb (Z.eqb (nth m tr 0%Z) 1)) (srt v)
                  (Z.to_nat (OHEM.num_neg self A tr)) Hperm Hsorted Hpos Hzero
                  m m' Hm Hm') as Hord.
    cbv beta in Hord. rewrite Hneg in Hord. specialize (Hord eq_refl Hnot).
    rewrite !row_v_nth in Hord by lia.
    destruct Hm'' as [_ Hmneg]. now rewrite Hneg, Hmneg in Hord.
Qed.

End OHEMRow.

(** ** [OHEM]: the batch *)

Section OHEMBatch.
Import Torch.

Variables (self : OHEM.t) (srt : sorter).

Lemma neg_boxes_mask_rows_at (z : Z) (pl : list (list (list R)))
    (tg : list (list Z)) :
  map2 (fun ranks n => map (fun r => Z.ltb (Z.of_nat r) n) ranks)
    (map argsort_asc
       (map srt
          (masked_fill (OHEM.pos_boxes_mask tg) 0
             (map2 (map2 cross_entropy) pl tg))))
    (map (fun n => Z.min (OHEM.neg_pos_ratio self * n) (z - 1))
       (map count_true (OHEM.pos_boxes_mask tg)))
  = map2 (OHEM.row_neg_mask self srt z) pl tg.
Proof.
  unfold masked_fill, OHEM.pos_boxes_mask. revert tg.
  induction pl as [|lr pl IH]; intros [|tr tg]; simpl; try reflexivity.
  f_equal. apply IH.
Qed.

(** [neg_boxes_mask] row by row. *)
Lemma neg_boxes_mask_rows (pl : list (list (list R))) (tg : list (list Z)) :
  OHEM.neg_boxes_mask self srt pl tg
  = map2 (OHEM.row_neg_mask self srt (OHEM.size1 tg)) pl tg.
Proof.
  unfold OHEM.neg_boxes_mask.
  replace (OHEM.size1 (OHEM.pos_boxes_mask tg)) with (OHEM.size1 tg).
  - apply neg_boxes_mask_rows_at.
  - destruct tg as [|tr tg]; simpl; [reflexivity|].
    now rewrite length_map.
Qed.

Lemma well_shaped_size1 (A C i : nat) (pl : list (list (list R)))
    (tg : list (list Z)) (tr : list Z) :
  OHEM.well_shaped A C pl tg -> nth_error tg i = Some tr ->
  OHEM.size1 tg = Z.of_nat A.
Proof.
  intros Hws Hi. destruct Hws as [|lr0 tr0 pl tg (_ & Hlen & _) _].
  - destruct i; discriminate.
  - simpl. now rewrite Hlen.
Qed.

Lemma well_shaped_row (A C i : nat) (pl : list (list (list R)))
    (tg : list (list Z)) (lr : list (list R)) (tr : list Z) :
  OHEM.well_shaped A C pl tg ->
  nth_error pl i = Some lr -> nth_error tg i = Some tr ->
  length lr = A /\ length tr = A /\
  Forall (fun x => length x = C) lr /\
  Forall (fun l => (0 <= l < Z.of_nat C)%Z) tr.
Proof.
  intros Hws. revert i.
  induction Hws as [|lr0 tr0 pl tg H0 _ IH]; intros [|i] Hl Ht;
    simpl in *; try discriminate.
  - congruence.
  - now apply IH with i.
Qed.

Lemma hard_negative_mask_row (i : nat) (pl : list (list (list R)))
    (tg : list (list Z)) (lr : list (list R)) (tr : list Z) :
  nth_error pl i = Some lr -> nth_error tg i = Some tr ->
  nth_error (OHEM.hard_negative_mask self srt pl tg) i
  = Some (OHEM.hard_row (map (fun l => Z.eqb l 1) tr)
            (OHEM.row_neg_mask self srt (OHEM.size1 tg) lr tr)).
Proof.
  intros Hl Ht. unfold OHEM.hard_negative_mask.
  rewrite neg_boxes_mask_rows.
  apply nth_error_map2.
  - unfold OHEM.pos_boxes_mask. now apply map_nth_error.
  - now apply nth_error_map2.
Qed.

(** *** The sum over the selected anchors *)

Lemma select_row_cons {X : Type} (b : bool) (mask : list bool) (x : X)
    (row : list X) :
  select_row (b :: mask) (x :: row)
  = if b then x :: select_row mask row else select_row mask row.
Proof. unfold select_row. simpl. now destruct b. Qed.

Lemma select_row_length {X Y : Type} (mask : list bool) (l : list X)
    (l' : list Y) :
  length l = length l' ->
  length (select_row mask l) = length (select_row mask l').
Proof.
  revert l l'. induction mask as [|b mask IH]; intros [|x l] [|y l'] Hlen;
    simpl in *; try reflexivity; try discriminate.
  rewrite !select_row_cons. injection Hlen as Hlen.
  destruct b; simpl; auto.
Qed.

Lemma row_sum_split (pr nr : list bool) (lr : list (list R)) (tr : list Z) :
  length pr = length tr -> length nr = length tr -> length lr = length tr ->
  sum (map2 cross_entropy (select_row (map2 orb pr nr) lr)
         (select_row (map2 orb pr nr) tr))
  = sum (map2 cross_entropy (select_row pr lr) (select_row pr tr))
    + sum (map2 cross_entropy (select_row (OHEM.hard_row pr nr) lr)
             (select_row (OHEM.hard_row pr nr) tr)).
Proof.
  revert pr nr lr.
  induction tr as [|t tr IH]; intros [|p pr] [|n nr] [|x lr] Hp Hn Hl;
    simpl in *; try discriminate.
  - unfold select_row, sum. simpl. lra.
  - injection Hp as Hp. injection Hn as Hn. injection Hl as Hl.
    unfold OHEM.hard_row in *. simpl map2.
    rewrite !select_row_cons. specialize (IH pr nr lr Hp Hn Hl).
    destruct p, n; simpl; rewrite ?sum_cons; lra.
Qed.

Lemma batch_sum_split (pl : list (list (list R))) (tg : list (list Z)) :
  Forall2 (fun lr tr => length lr = length tr) pl tg ->
  forall P Nm : list (list bool),
    Forall2 (fun pr tr => length pr = length tr) P tg ->
    Forall2 (fun nr tr => length nr = length tr) Nm tg ->
    sum (map2 cross_entropy (masked_select (map2 (map2 orb) P Nm) pl)
           (masked_select (map2 (map2 orb) P Nm) tg))
    = sum (map2 cross_entropy (masked_select P pl) (masked_select P tg))
      + sum (map2 cross_entropy
               (masked_select (map2 OHEM.hard_row P Nm) pl)
               (masked_select (map2 OHEM.hard_row P Nm) tg)).
Proof.
  unfold masked_select.
  induction 1 as [|lr tr pl tg Hlen _ IH]; intros P Nm HP HN.
  - inversion HP; subst. simpl. unfold sum. simpl. lra.
  - inversion HP as [|pr ? P' ? Hpr HP']; subst.
    inversion HN as [|nr ? Nm' ? Hnr HN']; subst.
    simpl. rewrite !map2_app by (now apply select_row_length).
    rewrite !sum_app, (IH P' Nm' HP' HN'), row_sum_split by assumption.
    lra.
Qed.

End OHEMBatch.

Section OHEMForward.
Import Torch.

Lemma row_neg_mask_length (self : OHEM.t) (srt : sorter) (z : Z)
    (lr : list (list R)) (tr : list Z) :
  sorts_descending srt -> length lr = length tr ->
  length (OHEM.row_neg_mask self srt z lr tr) = length tr.
Proof.
  intros Hsrt Hlen. unfold OHEM.row_neg_mask.
  rewrite length_map, argsort_asc_length.
  match goal with |- length (srt ?v) = _ => destruct (Hsrt v) as [Hperm _] end.
  rewrite (Permutation_length Hperm), length_seq.
  rewrite map2_length; rewrite length_map; [reflexivity|].
  now rewrite map2_length.
Qed.

Lemma neg_boxes_mask_lengths (self : OHEM.t) (srt : sorter)
    (pl : list (list (list R))) (tg : list (list Z)) :
  sorts_descending srt ->
  Forall2 (fun lr tr => length lr = length tr) pl tg ->
  Forall2 (fun (nr : list bool) (tr : list Z) => length nr = length tr)
    (OHEM.neg_boxes_mask self srt pl tg) tg.
Proof.
  intros Hsrt Hlen. rewrite neg_boxes_mask_rows.
  generalize (OHEM.size1 tg) as z. intros z.
  induction Hlen as [|lr tr pl tg Hrow _ IH]; simpl; constructor.
  - now apply row_neg_mask_length.
  - assumption.
Qed.

Lemma well_shaped_lengths (A C : nat) (pl : list (list (list R)))
    (tg : list (list Z)) :
  OHEM.well_shaped A C pl tg ->
  Forall2 (fun lr tr => length lr = length tr) pl tg.
Proof.
  induction 1 as [|lr tr pl tg (Hl & Ht & _) _ IH]; constructor.
  - congruence.
  - assumption.
Qed.

(** What [forward] returns, with the negatives that enter the sum
    separated from the positives. *)
Lemma OHEM_forward_value (self : OHEM.t) (srt : sorter)
    (pl : list (list (list R))) (tg : list (list Z)) :
  sorts_descending srt ->
  Forall2 (fun lr tr => length lr = length tr) pl tg ->
  OHEM.forward self srt pl tg
  = (sum (map2 cross_entropy
            (masked_select (OHEM.pos_boxes_mask tg) pl)
            (masked_select (OHEM.pos_boxes_mask tg) tg))
     + sum (map2 cross_entropy
              (masked_select (OHEM.hard_negative_mask self srt pl tg) pl)
              (masked_select (OHEM.hard_negative_mask self srt pl tg) tg)))
    / Rmax (IZR (sumZ (map count_true (OHEM.pos_boxes_mask tg)))) 1.
Proof.
  intros Hsrt Hlen. unfold OHEM.forward, OHEM.hard_negative_mask.
  f_equal. apply batch_sum_split.
  - assumption.
  - unfold OHEM.pos_boxes_mask. clear.
    induction tg as [|tr tg IH]; simpl; constructor.
    + apply length_map.
    + assumption.
  - now apply neg_boxes_mask_lengths.
Qed.

End OHEMForward.

(** C2, as the code has it.  For logits of shape (B, A, C) with at least
    two classes, targets of shape (B, A) holding class indices, and any
    sort that sorts: in every row, the negatives that enter the loss are
    non-positive anchors, there are [min(k, n)] of them, where
    [k = min(neg_pos_ratio * positives of the row, A - 1)] and [n] is the
    number of non-positive anchors of the row, and none of the
    non-positive anchors left out has a larger cross-entropy than one of
    those taken.  The value returned is the cross-entropy summed over
    the positive anchors and over these negatives, divided by
    [max(positives of the batch, 1)]. *)
Theorem OHEM_forward_hard_negatives (self : OHEM.t) (srt : Torch.sorter)
    (A C : nat) (pred_logits : list (list (list R)))
    (targets : list (list Z)) :
  Torch.sorts_descending srt ->
  (2 <= C)%nat ->
  OHEM.well_shaped A C pred_logits targets ->
  (forall (i : nat) (lr : list (list R)) (tr : list Z),
     nth_error pred_logits i = Some lr ->
     nth_error targets i = Some tr ->
     exists hard : list bool,
       nth_error (OHEM.hard_negative_mask self srt pred_logits targets) i
       = Some hard /\
       length (OHEM.indices hard)
       = Nat.min (Z.to_nat (OHEM.num_neg self A tr)) (OHEM.non_positives tr)
       /\
       (forall m, In m (OHEM.indices hard) ->
          (m < A)%nat /\ nth m tr 0%Z <> 1%Z) /\
       (forall m m', In m (OHEM.indices hard) -> (m' < A)%nat ->
          nth m' tr 0%Z <> 1%Z -> ~ In m' (OHEM.indices hard) ->
          OHEM.loss_at lr tr m' <= OHEM.loss_at lr tr m)) /\
  OHEM.forward self srt pred_logits targets
  = (Torch.sum
       (Torch.map2 Torch.cross_entropy
          (Torch.masked_select (OHEM.pos_boxes_mask targets) pred_logits)
          (Torch.masked_select (OHEM.pos_boxes_mask targets) targets))
     + Torch.sum
         (Torch.map2 Torch.cross_entropy
            (Torch.masked_select
               (OHEM.hard_negative_mask self srt pred_logits targets)
               pred_logits)
            (Torch.masked_select
               (OHEM.hard_negative_mask self srt pred_logits targets)
               targets)))
    / Rmax (IZR (Torch.sumZ
                   (map Torch.count_true (OHEM.pos_boxes_mask targets)))) 1.
Proof.
  intros Hsrt HC Hws. split.
  - intros i lr tr Hl Ht.
    eexists. split; [exact (hard_negative_mask_row self srt i _ _ lr tr Hl Ht)|].
    rewrite (well_shaped_size1 A C i pred_logits targets tr Hws Ht).
    destruct (well_shaped_row A C i _ _ lr tr Hws Hl Ht)
      as (Hlr & Htr & Hvec & Hcls).
    now apply (OHEM_row_selection self srt Hsrt A C lr tr).
  - apply OHEM_forward_value; [assumption|].
    now apply well_shaped_lengths with A C.
Qed.

Lemma OHEM_example_well_shaped :
  OHEM.well_shaped 3 2 OHEM.example_logits OHEM.example_targets.
Proof.
  constructor; [|constructor].
  repeat split; repeat constructor; simpl; lia.
Qed.

(** The example batch, sorted by insertion. *)
Lemma OHEM_forward_hard_negatives_witness :
  (forall (i : nat) (lr : list (list R)) (tr : list Z),
     nth_error OHEM.example_logits i = Some lr ->
     nth_error OHEM.example_targets i = Some tr ->
     exists hard : list bool,
       nth_error (OHEM.hard_negative_mask OHEM.example
                    Torch.insertion_sorter OHEM.example_logits
                    OHEM.example_targets) i
       = Some hard /\
       length (OHEM.indices hard)
       = Nat.min (Z.to_nat (OHEM.num_neg OHEM.example 3 tr))
           (OHEM.non_positives tr)
       /\
       (forall m, In m (OHEM.indices hard) ->
          (m < 3)%nat /\ nth m tr 0%Z <> 1%Z) /\
       (forall m m', In m (OHEM.indices hard) -> (m' < 3)%nat ->
          nth m' tr 0%Z <> 1%Z -> ~ In m' (OHEM.indices hard) ->
          OHEM.loss_at lr tr m' <= OHEM.loss_at lr tr m)) /\
  OHEM.forward OHEM.example Torch.insertion_sorter OHEM.example_logits
    OHEM.example_targets
  = (Torch.sum
       (Torch.map2 Torch.cross_entropy
          (Torch.masked_select (OHEM.pos_boxes_mask OHEM.example_targets)
             OHEM.example_logits)
          (Torch.masked_select (OHEM.pos_boxes_mask OHEM.example_targets)
             OHEM.example_targets))
     + Torch.sum
         (Torch.map2 Torch.cross_entropy
            (Torch.masked_select
               (OHEM.hard_negative_mask OHEM.example Torch.insertion_sorter
                  OHEM.example_logits OHEM.example_targets)
               OHEM.example_logits)
            (Torch.masked_select
               (OHEM.hard_negative_mask OHEM.example Torch.insertion_sorter
                  OHEM.example_logits OHEM.example_targets)
               OHEM.example_targets)))
    / Rmax (IZR (Torch.sumZ
                   (map Torch.count_true
                      (OHEM.pos_boxes_mask OHEM.example_targets)))) 1.
Proof.
  apply (OHEM_forward_hard_negatives OHEM.example Torch.insertion_sorter 3 2
           OHEM.example_logits OHEM.example_targets).
  - exact insertion_sorter_sorts.
  - lia.
  - exact OHEM_example_well_shaped.
Defined.

(** C2, as the claim has it, fails on the example batch: the row has two
    positive anchors, so [k = min(3 * 2, 3 - 1) = 2], but only one
    anchor is not positive, and that one anchor is the only negative
    that enters the loss. *)
Lemma OHEM_fewer_negatives_than_num_neg :
  OHEM.num_neg OHEM.example 3 [1; 1; 0]%Z = 2%Z /\
  exists hard : list bool,
    nth_error (OHEM.hard_negative_mask OHEM.example Torch.insertion_sorter
                 OHEM.example_logits OHEM.example_targets) 0
    = Some hard /\
    length (OHEM.indices hard) = 1%nat.
Proof.
  split; [reflexivity|].
  eexists. split.
  - exact (hard_negative_mask_row OHEM.example Torch.insertion_sorter 0
             OHEM.example_logits OHEM.example_targets _ _ eq_refl eq_refl).
  - pose proof OHEM_example_well_shaped as Hws.
    destruct (well_shaped_row 3 2 0 _ _ _ _ Hws eq_refl eq_refl)
      as (Hlr & Htr & Hvec & Hcls).
    destruct (OHEM_row_selection OHEM.example Torch.insertion_sorter
                insertion_sorter_sorts 3 2 _ _ Hlr Htr Hvec Hcls
                ltac:(lia)) as [Hlen _].
    exact Hlen.
Qed.

(** ** [MultiBoxLoss] *)

Section RegressionFacts.
Import Torch.

Lemma smooth_l1_same (x : R) : smooth_l1 x x = 0.
Proof.
  unfold smooth_l1. replace (x - x) with 0 by lra. rewrite Rabs_R0.
  destruct (Rlt_dec 0 1); lra.
Qed.

Lemma smooth_l1_far (x y : R) :
  1 <= Rabs (x - y) -> smooth_l1 x y = Rabs (x - y) - 5 / 10.
Proof.
  intros Hfar. unfold smooth_l1.
  destruct (Rlt_dec (Rabs (x - y)) 1); [lra | reflexivity].
Qed.

Lemma Rmax_1_ge (x : R) : 1 <= Rmax x 1.
Proof. apply Rmax_r. Qed.

Lemma count_true_filter (sel : Z -> bool) (row : list Z) :
  count_true (map sel row) = Z.of_nat (length (filter sel row)).
Proof.
  unfold count_true.
  induction row as [|l row IH]; [reflexivity|].
  simpl. destruct (sel l); simpl length; rewrite IH; lia.
Qed.

Lemma count_mask (sel : Z -> bool) (labels : list (list Z)) :
  IZR (sumZ (map count_true (map (map sel) labels)))
  = INR (MultiBoxLoss.count_where sel labels).
Proof.
  rewrite INR_IZR_INZ. f_equal. unfold MultiBoxLoss.count_where.
  induction labels as [|row labels IH]; [reflexivity|].
  simpl. rewrite filter_app, length_app, Nat2Z.inj_add, <- IH.
  now rewrite count_true_filter.
Qed.

Lemma row_select_sum (sel : Z -> bool) (lrow : list Z)
    (prow grow : list (list R)) (X Y : list (list R)) :
  Forall2 (fun p g : list R => length p = length g) prow grow ->
  length lrow = length prow ->
  sum (map2 smooth_l1 (concat (select_row (map sel lrow) prow ++ X))
         (concat (select_row (map sel lrow) grow ++ Y)))
  = MultiBoxLoss.row_sum_where sel lrow prow grow
    + sum (map2 smooth_l1 (concat X) (concat Y)).
Proof.
  intros Hpg. revert lrow.
  induction Hpg as [|p g prow grow Hlen _ IH]; intros [|l lrow] Hl;
    simpl in *; try discriminate.
  - unfold select_row. simpl. lra.
  - injection Hl as Hl. rewrite !select_row_cons.
    specialize (IH lrow Hl).
    destruct (sel l); simpl.
    + rewrite map2_app, sum_app, IH by assumption.
      unfold MultiBoxLoss.anchor_smooth_l1. lra.
    + rewrite IH. lra.
Qed.

Lemma batch_select_sum (sel : Z -> bool) (labels : list (list Z))
    (preds gts : list (list (list R))) :
  MultiBoxLoss.aligned labels preds gts ->
  smooth_l1_loss_sum (masked_select (map (map sel) labels) preds)
    (masked_select (map (map sel) labels) gts)
  = MultiBoxLoss.batch_sum_where sel labels preds gts.
Proof.
  intros [Hlp Hpg]. unfold smooth_l1_loss_sum, masked_select.
  revert gts Hpg.
  induction Hlp as [|lrow prow labels preds Hl _ IH]; intros gts Hpg.
  - inversion Hpg; subst. reflexivity.
  - inversion Hpg as [|? grow ? gts' Hrow Hpg']; subst.
    simpl. rewrite (row_select_sum sel lrow prow grow) by assumption.
    now rewrite IH.
Qed.

(** The code's losses are the anchor-by-anchor readings. *)
Lemma landmark_loss_where (labels : list (list Z))
    (gts preds : list (list (list R))) :
  MultiBoxLoss.aligned labels preds gts ->
  MultiBoxLoss.landmark_loss labels gts preds
  = MultiBoxLoss.regression_loss_where MultiBoxLoss.is_positive labels gts
      preds.
Proof.
  intros Hal.
  unfold MultiBoxLoss.landmark_loss, MultiBoxLoss.N1,
    MultiBoxLoss.pos_ldmks_mask, MultiBoxLoss.regression_loss_where.
  rewrite (batch_select_sum (fun l => Z.ltb 0 l)) by assumption.
  now rewrite (count_mask (fun l => Z.ltb 0 l)).
Qed.

Lemma box_loss_where (labels : list (list Z))
    (gts preds : list (list (list R))) :
  MultiBoxLoss.aligned labels preds gts ->
  MultiBoxLoss.box_loss labels gts preds
  = MultiBoxLoss.regression_loss_where MultiBoxLoss.is_nonzero labels gts
      preds.
Proof.
  intros Hal.
  unfold MultiBoxLoss.box_loss, MultiBoxLoss.N,
    MultiBoxLoss.pos_boxes_mask, MultiBoxLoss.regression_loss_where.
  rewrite (batch_select_sum (fun l => negb (Z.eqb l 0))) by assumption.
  now rewrite (count_mask (fun l => negb (Z.eqb l 0))).
Qed.

(** Without a selected anchor the selection is empty and the loss 0. *)
Lemma masked_select_none {X : Type} (sel : Z -> bool)
    (labels : list (list Z)) (t : list (list X)) :
  Forall (Forall (fun l => sel l = false)) labels ->
  masked_select (map (map sel) labels) t = [].
Proof.
  unfold masked_select. intros Hnone. revert t.
  induction Hnone as [|lrow labels Hrow _ IH]; intros [|trow t]; simpl;
    try reflexivity.
  rewrite IH, app_nil_r. clear IH. revert trow.
  induction Hrow as [|l lrow Hl _ IHrow]; intros [|x trow];
    try reflexivity.
  simpl map. rewrite select_row_cons, Hl. apply IHrow.
Qed.

End RegressionFacts.

Section MultiBoxLossFacts.
Import Torch.

Variables (srt : sorter) (self : MultiBoxLoss.t).
Variables (pred_logits : list (list (list R))) (labels : list (list Z)).

Lemma cls_loss_of_OHEM :
  MultiBoxLoss.cls_loss_type self = "OHEM"%string ->
  MultiBoxLoss.cls_loss_of self srt pred_logits labels
  = Ok (Some (OHEM.forward (MultiBoxLoss.ohem self) srt pred_logits labels)).
Proof.
  intros Hty. unfold MultiBoxLoss.cls_loss_of. rewrite Hty. reflexivity.
Qed.

Lemma cls_loss_of_FocalLoss :
  MultiBoxLoss.cls_loss_type self = "FocalLoss"%string ->
  MultiBoxLoss.cls_loss_of self srt pred_logits labels
  = (oh <- one_hot (concat labels) ;;
     r <- FocalLoss.forward (MultiBoxLoss.focal_loss self)
            (concat (concat pred_logits)) (snd oh) ;;
     Ok (Some r)).
Proof.
  intros Hty. unfold MultiBoxLoss.cls_loss_of. rewrite Hty. reflexivity.
Qed.

Lemma cls_loss_of_other :
  MultiBoxLoss.cls_loss_type self <> "OHEM"%string ->
  MultiBoxLoss.cls_loss_type self <> "FocalLoss"%string ->
  MultiBoxLoss.cls_loss_of self srt pred_logits labels = Ok None.
Proof.
  intros H1 H2. unfold MultiBoxLoss.cls_loss_of.
  apply String.eqb_neq in H1, H2. now rewrite H1, H2.
Qed.

Lemma cls_loss_of_assigned (c : R) :
  MultiBoxLoss.cls_loss_of self srt pred_logits labels = Ok (Some c) ->
  MultiBoxLoss.cls_loss_type self = "OHEM"%string \/
  MultiBoxLoss.cls_loss_type self = "FocalLoss"%string.
Proof.
  intros Hc.
  destruct (String.eqb_spec (MultiBoxLoss.cls_loss_type self) "OHEM")
    as [H1|H1]; [now left|].
  destruct (String.eqb_spec (MultiBoxLoss.cls_loss_type self) "FocalLoss")
    as [H2|H2]; [now right|].
  rewrite cls_loss_of_other in Hc by assumption. discriminate.
Qed.

End MultiBoxLossFacts.

Section MultiBoxLossExample.
Import Torch.

Lemma example_box_loss_minus_one :
  MultiBoxLoss.box_loss [[(-1)%Z]] [[MultiBoxLoss.zeros 4]]
    [[2 :: MultiBoxLoss.zeros 3]] = 3 / 2.
Proof.
  unfold MultiBoxLoss.box_loss, MultiBoxLoss.N, smooth_l1_loss_sum.
  simpl. unfold sum. simpl.
  rewrite !smooth_l1_same, smooth_l1_far.
  - replace (2 - 0) with 2 by lra.
    rewrite (Rabs_pos_eq 2) by lra.
    change (count_true [true]) with 1%Z.
    unfold Rmax. destruct (Rle_dec 1 1); lra.
  - replace (2 - 0) with 2 by lra. rewrite (Rabs_pos_eq 2); lra.
Qed.

Lemma example_landmark_loss_minus_one :
  MultiBoxLoss.landmark_loss [[(-1)%Z]] [[MultiBoxLoss.zeros 10]]
    [[2 :: MultiBoxLoss.zeros 9]] = 0.
Proof.
  unfold MultiBoxLoss.landmark_loss, smooth_l1_loss_sum.
  simpl. unfold sum. simpl. lra.
Qed.

Lemma example_box_loss_zero :
  MultiBoxLoss.box_loss [[0%Z]] [[MultiBoxLoss.zeros 4]]
    [[2 :: MultiBoxLoss.zeros 3]] = 0.
Proof.
  unfold MultiBoxLoss.box_loss, smooth_l1_loss_sum.
  simpl. unfold sum. simpl. lra.
Qed.

(** The example under the adaptive matching, with the OHEM loss. *)
Lemma example_forward (srt : sorter) :
  MultiBoxLoss.forward MultiBoxLoss.example_tools srt
    (MultiBoxLoss.init (MultiBoxLoss.example_config "OHEM"))
    MultiBoxLoss.example_predictions MultiBoxLoss.example_anchor_boxes
    MultiBoxLoss.example_targets
  = Ok (OHEM.forward (OHEM.mk 7 2) srt [[[0; 0]]] [[1%Z]], 3 / 2, 0).
Proof.
  unfold MultiBoxLoss.forward, MultiBoxLoss.losses_of,
    MultiBoxLoss.example_tools, MultiBoxLoss.example_predictions.
  simpl MultiBoxLoss.match_atss. cbv iota beta.
  rewrite example_box_loss_minus_one, example_landmark_loss_minus_one.
  rewrite cls_loss_of_OHEM by reflexivity. reflexivity.
Qed.

End MultiBoxLossExample.

(** C4.  For predictions and matched targets of the documented shapes,
    the landmark loss that [forward] returns is the smooth-L1 distance
    summed over the anchors whose matched label is greater than 0,
    divided by the larger of their number and 1; the box loss is the
    smooth-L1 distance summed over the anchors whose matched label is not
    0, divided by the larger of their number and 1.  The label -1 is
    among the second and not among the first. *)
Theorem MultiBoxLoss_forward_regression_losses
    (tools : MultiBoxLoss.box_utils) (srt : Torch.sorter)
    (self : MultiBoxLoss.t)
    (pred_logits pred_boxes pred_landmarks : list (list (list R)))
    (anchor_boxes : list (list R)) (targets : list (list (list R)))
    (matched_labels : list (list Z))
    (matched_boxes matched_landmarks : list (list (list R))) :
  MultiBoxLoss.match_atss tools (MultiBoxLoss.cfg self) targets anchor_boxes
    (MultiBoxLoss.variance self)
  = (matched_labels, matched_boxes, matched_landmarks) ->
  MultiBoxLoss.aligned matched_labels pred_boxes matched_boxes ->
  MultiBoxLoss.aligned matched_labels pred_landmarks matched_landmarks ->
  MultiBoxLoss.forward tools srt self
    (pred_logits, pred_boxes, pred_landmarks) anchor_boxes targets
  = (cls_loss <- MultiBoxLoss.cls_loss_of self srt pred_logits
                   (MultiBoxLoss.relabel matched_labels) ;;
     match cls_loss with
     | Some cls_loss =>
         Torch.Ok
           (cls_loss,
            MultiBoxLoss.regression_loss_where MultiBoxLoss.is_nonzero
              matched_labels matched_boxes pred_boxes,
            MultiBoxLoss.regression_loss_where MultiBoxLoss.is_positive
              matched_labels matched_landmarks pred_landmarks)
     | None => Torch.Raise Torch.UnboundLocalError
     end) /\
  MultiBoxLoss.is_nonzero (-1) = true /\
  MultiBoxLoss.is_positive (-1) = false.
Proof.
  intros Hm Hboxes Hldmks. split; [|split; reflexivity].
  unfold MultiBoxLoss.forward, MultiBoxLoss.losses_of. rewrite Hm.
  rewrite landmark_loss_where, box_loss_where by assumption.
  reflexivity.
Qed.

Lemma MultiBoxLoss_example_aligned (n : nat) :
  MultiBoxLoss.aligned [[(-1)%Z]] [[2 :: MultiBoxLoss.zeros n]]
    [[MultiBoxLoss.zeros (S n)]].
Proof.
  split; repeat constructor.
Qed.

(** The example: one anchor with the label -1. *)
Lemma MultiBoxLoss_forward_regression_losses_witness :
  MultiBoxLoss.forward MultiBoxLoss.example_tools Torch.insertion_sorter
    (MultiBoxLoss.init (MultiBoxLoss.example_config "OHEM"))
    ([[[0; 0]]], [[2 :: MultiBoxLoss.zeros 3]], [[2 :: MultiBoxLoss.zeros 9]])
    MultiBoxLoss.example_anchor_boxes MultiBoxLoss.example_targets
  = (cls_loss <- MultiBoxLoss.cls_loss_of
                   (MultiBoxLoss.init (MultiBoxLoss.example_config "OHEM"))
                   Torch.insertion_sorter [[[0; 0]]]
                   (MultiBoxLoss.relabel [[(-1)%Z]]) ;;
     match cls_loss with
     | Some cls_loss =>
         Torch.Ok
           (cls_loss,
            MultiBoxLoss.regression_loss_where MultiBoxLoss.is_nonzero
              [[(-1)%Z]] [[MultiBoxLoss.zeros 4]]
              [[2 :: MultiBoxLoss.zeros 3]],
            MultiBoxLoss.regression_loss_where MultiBoxLoss.is_positive
              [[(-1)%Z]] [[MultiBoxLoss.zeros 10]]
              [[2 :: MultiBoxLoss.zeros 9]])
     | None => Torch.Raise Torch.UnboundLocalError
     end) /\
  MultiBoxLoss.is_nonzero (-1) = true /\
  MultiBoxLoss.is_positive (-1) = false.
Proof.
  apply (MultiBoxLoss_forward_regression_losses MultiBoxLoss.example_tools
           Torch.insertion_sorter
           (MultiBoxLoss.init (MultiBoxLoss.example_config "OHEM"))
           [[[0; 0]]] [[2 :: MultiBoxLoss.zeros 3]]
           [[2 :: MultiBoxLoss.zeros 9]]
           MultiBoxLoss.example_anchor_boxes MultiBoxLoss.example_targets
           [[(-1)%Z]] [[MultiBoxLoss.zeros 4]] [[MultiBoxLoss.zeros 10]]).
  - reflexivity.
  - exact (MultiBoxLoss_example_aligned 3).
  - exact (MultiBoxLoss_example_aligned 9).
Defined.

Section NoMatchedAnchor.
Import Torch.

Lemma relabel_all_zero (labels : list (list Z)) :
  Forall (Forall (fun l => l = 0%Z)) labels ->
  MultiBoxLoss.relabel labels = labels.
Proof.
  unfold MultiBoxLoss.relabel, MultiBoxLoss.pos_boxes_mask, masked_fill.
  induction 1 as [|row labels Hrow _ IH]; [reflexivity|].
  simpl. rewrite IH. f_equal.
  induction Hrow as [|l row Hl _ IHrow]; [reflexivity|].
  simpl. rewrite IHrow. subst l. reflexivity.
Qed.

Lemma loss_of_nothing (input target : list (list R)) (n : R) :
  input = [] -> target = [] -> smooth_l1_loss_sum input target / n = 0.
Proof.
  intros -> ->. unfold smooth_l1_loss_sum, sum, Rdiv. simpl.
  apply Rmult_0_l.
Qed.

Lemma landmark_loss_none (labels : list (list Z))
    (gts preds : list (list (list R))) :
  Forall (Forall (fun l => (l <= 0)%Z)) labels ->
  MultiBoxLoss.landmark_loss labels gts preds = 0.
Proof.
  intros Hnone. unfold MultiBoxLoss.landmark_loss, MultiBoxLoss.pos_ldmks_mask.
  assert (Hsel : Forall (Forall (fun l => Z.ltb 0 l = false)) labels).
  { eapply Forall_impl; [|exact Hnone]. intros row Hrow.
    eapply Forall_impl; [|exact Hrow]. intros l Hl. cbv beta in Hl.
    apply Z.ltb_ge. exact Hl. }
  apply loss_of_nothing; now apply masked_select_none.
Qed.

Lemma box_loss_none (labels : list (list Z))
    (gts preds : list (list (list R))) :
  Forall (Forall (fun l => l = 0%Z)) labels ->
  MultiBoxLoss.box_loss labels gts preds = 0.
Proof.
  intros Hnone. unfold MultiBoxLoss.box_loss, MultiBoxLoss.pos_boxes_mask.
  assert (Hsel : Forall (Forall (fun l => negb (Z.eqb l 0) = false)) labels).
  { eapply Forall_impl; [|exact Hnone]. intros row Hrow.
    eapply Forall_impl; [|exact Hrow]. intros l ->. reflexivity. }
  apply loss_of_nothing;
    now apply (masked_select_none (fun l => negb (Z.eqb l 0))).
Qed.

(** With [cls_loss_type = 'FocalLoss'] and background labels only, the
    one-hot targets have one column and the logits two: the sizes differ
    and the framework raises. *)
Lemma MultiBoxLoss_FocalLoss_background_only (srt : sorter) :
  MultiBoxLoss.losses_of
    (MultiBoxLoss.init (MultiBoxLoss.example_config "FocalLoss")) srt
    ([[0%Z]], [[MultiBoxLoss.zeros 4]], [[MultiBoxLoss.zeros 10]])
    MultiBoxLoss.example_predictions
  = Raise ValueError.
Proof. reflexivity. Qed.

End NoMatchedAnchor.

(** C5, as the code has it.  The divisors [N1] and [N] are at least 1
    for every input.  When no anchor has a matched label above 0 the
    landmark loss is 0; when no anchor has a matched label other than 0,
    the box loss is 0 as well, and with [cls_loss_type = 'OHEM'] the code
    returns them. *)
Theorem MultiBoxLoss_forward_no_matched_anchor
    (tools : MultiBoxLoss.box_utils) (srt : Torch.sorter)
    (self : MultiBoxLoss.t)
    (pred_logits pred_boxes pred_landmarks : list (list (list R)))
    (anchor_boxes : list (list R)) (targets : list (list (list R)))
    (matched_labels : list (list Z))
    (matched_boxes matched_landmarks : list (list (list R))) :
  MultiBoxLoss.match_atss tools (MultiBoxLoss.cfg self) targets anchor_boxes
    (MultiBoxLoss.variance self)
  = (matched_labels, matched_boxes, matched_landmarks) ->
  1 <= MultiBoxLoss.N1 matched_labels /\
  1 <= MultiBoxLoss.N matched_labels /\
  (Forall (Forall (fun l => (l <= 0)%Z)) matched_labels ->
   MultiBoxLoss.landmark_loss matched_labels matched_landmarks pred_landmarks
   = 0) /\
  (Forall (Forall (fun l => l = 0%Z)) matched_labels ->
   MultiBoxLoss.box_loss matched_labels matched_boxes pred_boxes = 0 /\
   MultiBoxLoss.landmark_loss matched_labels matched_landmarks pred_landmarks
   = 0 /\
   (MultiBoxLoss.cls_loss_type self = "OHEM"%string ->
    MultiBoxLoss.forward tools srt self
      (pred_logits, pred_boxes, pred_landmarks) anchor_boxes targets
    = Torch.Ok
        (OHEM.forward (MultiBoxLoss.ohem self) srt pred_logits matched_labels,
         0, 0))).
Proof.
  intros Hm. split; [apply Rmax_1_ge|]. split; [apply Rmax_1_ge|].
  split; [apply landmark_loss_none|].
  intros Hzero.
  assert (Hle : Forall (Forall (fun l => (l <= 0)%Z)) matched_labels).
  { eapply Forall_impl; [|exact Hzero]. intros row Hrow.
    eapply Forall_impl; [|exact Hrow]. intros l ->. lia. }
  split; [now apply box_loss_none|].
  split; [now apply landmark_loss_none|].
  intros Hty. unfold MultiBoxLoss.forward, MultiBoxLoss.losses_of.
  rewrite Hm, box_loss_none, landmark_loss_none, relabel_all_zero
    by assumption.
  now rewrite cls_loss_of_OHEM.
Qed.

(** The example under the fixed-threshold tools turned around: the
    adaptive matching gives the only anchor the label 0. *)
Lemma MultiBoxLoss_forward_no_matched_anchor_witness :
  1 <= MultiBoxLoss.N1 [[0%Z]] /\
  1 <= MultiBoxLoss.N [[0%Z]] /\
  (Forall (Forall (fun l => (l <= 0)%Z)) [[0%Z]] ->
   MultiBoxLoss.landmark_loss [[0%Z]] [[MultiBoxLoss.zeros 10]]
     [[2 :: MultiBoxLoss.zeros 9]] = 0) /\
  (Forall (Forall (fun l => l = 0%Z)) [[0%Z]] ->
   MultiBoxLoss.box_loss [[0%Z]] [[MultiBoxLoss.zeros 4]]
     [[2 :: MultiBoxLoss.zeros 3]] = 0 /\
   MultiBoxLoss.landmark_loss [[0%Z]] [[MultiBoxLoss.zeros 10]]
     [[2 :: MultiBoxLoss.zeros 9]] = 0 /\
   (MultiBoxLoss.cls_loss_type
      (MultiBoxLoss.init (MultiBoxLoss.example_config "OHEM"))
    = "OHEM"%string ->
    MultiBoxLoss.forward
      (MultiBoxLoss.mkTools
         (MultiBoxLoss.match_ MultiBoxLoss.example_tools)
         (fun _ => MultiBoxLoss.match_ MultiBoxLoss.example_tools []))
      Torch.insertion_sorter
      (MultiBoxLoss.init (MultiBoxLoss.example_config "OHEM"))
      ([[[0; 0]]], [[2 :: MultiBoxLoss.zeros 3]],
       [[2 :: MultiBoxLoss.zeros 9]])
      MultiBoxLoss.example_anchor_boxes MultiBoxLoss.example_targets
    = Torch.Ok
        (OHEM.forward
           (MultiBoxLoss.ohem
              (MultiBoxLoss.init (MultiBoxLoss.example_config "OHEM")))
           Torch.insertion_sorter [[[0; 0]]] [[0%Z]],
         0, 0))).
Proof.
  apply (MultiBoxLoss_forward_no_matched_anchor
           (MultiBoxLoss.mkTools
              (MultiBoxLoss.match_ MultiBoxLoss.example_tools)
              (fun _ => MultiBoxLoss.match_ MultiBoxLoss.example_tools []))
           Torch.insertion_sorter
           (MultiBoxLoss.init (MultiBoxLoss.example_config "OHEM"))
           [[[0; 0]]] [[2 :: MultiBoxLoss.zeros 3]]
           [[2 :: MultiBoxLoss.zeros 9]]
           MultiBoxLoss.example_anchor_boxes MultiBoxLoss.example_targets
           [[0%Z]] [[MultiBoxLoss.zeros 4]] [[MultiBoxLoss.zeros 10]]).
  reflexivity.
Defined.

(** C5, as the claim has it, fails on the example: the only anchor has
    the label -1, so no anchor has a positive label, and the box loss
    that [forward] returns is 3/2. *)
Lemma MultiBoxLoss_box_loss_of_unusable_landmarks :
  MultiBoxLoss.match_atss MultiBoxLoss.example_tools
    (MultiBoxLoss.cfg (MultiBoxLoss.init (MultiBoxLoss.example_config "OHEM")))
    MultiBoxLoss.example_targets MultiBoxLoss.example_anchor_boxes
    (MultiBoxLoss.variance
       (MultiBoxLoss.init (MultiBoxLoss.example_config "OHEM")))
  = ([[(-1)%Z]], [[MultiBoxLoss.zeros 4]], [[MultiBoxLoss.zeros 10]]) /\
  MultiBoxLoss.forward MultiBoxLoss.example_tools Torch.insertion_sorter
    (MultiBoxLoss.init (MultiBoxLoss.example_config "OHEM"))
    MultiBoxLoss.example_predictions MultiBoxLoss.example_anchor_boxes
    MultiBoxLoss.example_targets
  = Torch.Ok
      (OHEM.forward (OHEM.mk 7 2) Torch.insertion_sorter [[[0; 0]]] [[1%Z]],
       3 / 2, 0) /\
  3 / 2 <> 0.
Proof.
  split; [reflexivity|]. split; [apply example_forward | lra].
Qed.

(** C10.  [forward] returns a result only when [cls_loss_type] is 'OHEM'
    or 'FocalLoss'; for every other value no statement assigns
    [cls_loss], and the [return] raises. *)
Theorem MultiBoxLoss_forward_cls_loss_type (tools : MultiBoxLoss.box_utils)
    (srt : Torch.sorter) (self : MultiBoxLoss.t)
    (predictions : list (list (list R)) * list (list (list R))
                   * list (list (list R)))
    (anchor_boxes : list (list R)) (targets : list (list (list R))) :
  (forall r,
     MultiBoxLoss.forward tools srt self predictions anchor_boxes targets
     = Torch.Ok r ->
     MultiBoxLoss.cls_loss_type self = "OHEM"%string \/
     MultiBoxLoss.cls_loss_type self = "FocalLoss"%string) /\
  (MultiBoxLoss.cls_loss_type self <> "OHEM"%string ->
   MultiBoxLoss.cls_loss_type self <> "FocalLoss"%string ->
   MultiBoxLoss.forward tools srt self predictions anchor_boxes targets
   = Torch.Raise Torch.UnboundLocalError).
Proof.
  unfold MultiBoxLoss.forward, MultiBoxLoss.losses_of.
  destruct (MultiBoxLoss.match_atss tools _ _ _ _) as [[labels boxes] ldmks].
  destruct predictions as [[pl pb] pm].
  split.
  - intros r Hr.
    destruct (MultiBoxLoss.cls_loss_of self srt pl
                (MultiBoxLoss.relabel labels)) as [[c|]|e] eqn:Hc;
      simpl in Hr; try discriminate.
    now apply cls_loss_of_assigned in Hc.
  - intros H1 H2. now rewrite cls_loss_of_other.
Qed.

(** The example with [cls_loss_type = 'CrossEntropy']. *)
Lemma MultiBoxLoss_forward_cls_loss_type_witness :
  (forall r,
     MultiBoxLoss.forward MultiBoxLoss.example_tools Torch.insertion_sorter
       (MultiBoxLoss.init (MultiBoxLoss.example_config "CrossEntropy"))
       MultiBoxLoss.example_predictions MultiBoxLoss.example_anchor_boxes
       MultiBoxLoss.example_targets
     = Torch.Ok r ->
     MultiBoxLoss.cls_loss_type
       (MultiBoxLoss.init (MultiBoxLoss.example_config "CrossEntropy"))
     = "OHEM"%string \/
     MultiBoxLoss.cls_loss_type
       (MultiBoxLoss.init (MultiBoxLoss.example_config "CrossEntropy"))
     = "FocalLoss"%string) /\
  MultiBoxLoss.forward MultiBoxLoss.example_tools Torch.insertion_sorter
    (MultiBoxLoss.init (MultiBoxLoss.example_config "CrossEntropy"))
    MultiBoxLoss.example_predictions MultiBoxLoss.example_anchor_boxes
    MultiBoxLoss.example_targets
  = Torch.Raise Torch.UnboundLocalError.
Proof.
  destruct (MultiBoxLoss_forward_cls_loss_type MultiBoxLoss.example_tools
              Torch.insertion_sorter
              (MultiBoxLoss.init (MultiBoxLoss.example_config "CrossEntropy"))
              MultiBoxLoss.example_predictions
              MultiBoxLoss.example_anchor_boxes MultiBoxLoss.example_targets)
    as [Honly Hraise].
  split; [exact Honly|].
  apply Hraise; simpl; discriminate.
Defined.

(** ** [AnchorGenerator] *)

Section AnchorFacts.
Import AnchorGenerator.
Local Open Scope Q_scope.

Lemma ceil_div_nonneg (a b : Z) : (0 <= a)%Z -> (0 < b)%Z -> (0 <= ceil_div a b)%Z.
Proof.
  intros Ha Hb. unfold ceil_div. rewrite Zle_Qle.
  eapply Qle_trans; [|apply Qle_ceiling].
  apply Qmult_le_0_compat.
  - change 0 with (inject_Z 0). now rewrite <- Zle_Qle.
  - apply Qlt_le_weak, Qinv_lt_0_compat.
    change 0 with (inject_Z 0). now rewrite <- Zlt_Qlt.
Qed.

Lemma range_length (n : Z) : length (range n) = Z.to_nat n.
Proof. unfold range. now rewrite length_map, length_seq. Qed.

Lemma range_in (n i : Z) : In i (range n) <-> (0 <= i < n)%Z.
Proof.
  unfold range. rewrite in_map_iff. split.
  - intros (m & <- & Hm). apply in_seq in Hm. lia.
  - intros Hi. exists (Z.to_nat i). split; [lia|]. apply in_seq. lia.
Qed.

Lemma cell_anchor_eq (self : t) (step i j : Z) (min_size : Q) :
  cell_anchor self step i j min_size
  = anchor_at (fst (image_size self)) (snd (image_size self)) step i j
      min_size.
Proof. reflexivity. Qed.

Lemma view4_concat (rows : list (list Q)) :
  Forall (fun a => length a = 4%nat) rows -> view4 (concat rows) = rows.
Proof.
  induction 1 as [|a rows Ha _ IH]; [reflexivity|].
  destruct a as [|a0 [|a1 [|a2 [|a3 [|a4 a]]]]]; try discriminate.
  simpl. now rewrite IH.
Qed.

Lemma flat_map_flat_map {X Y Z' : Type} (g : X -> Y -> list Z')
    (h : X -> list Y) (l : list X) :
  flat_map (fun x => flat_map (g x) (h x)) l
  = concat (flat_map (fun x => map (g x) (h x)) l).
Proof.
  induction l as [|x l IH]; [reflexivity|].
  simpl. now rewrite concat_app, IH, flat_map_concat_map.
Qed.

(** The flat list of a level is its rows, one after the other. *)
Lemma level_anchors_rows (self : t) (k : nat) (f : Z * Z) (sizes : list Q) :
  nth_error (min_sizes self) k = Some sizes ->
  level_anchors self k f
  = Some (concat (level_rows self (nth k (steps self) 0%Z) f sizes)).
Proof.
  intros Hk. unfold level_anchors, level_rows. rewrite Hk. f_equal.
  set (step := nth k (steps self) 0%Z).
  set (g := fun (c : Z * Z) ms => cell_anchor self step (fst c) (snd c) ms).
  transitivity
    (flat_map (fun c => flat_map (g c) sizes)
       (product (range (fst f)) (range (snd f)))).
  - apply flat_map_ext. intros [i j]. reflexivity.
  - rewrite (flat_map_flat_map g (fun _ => sizes)). f_equal.
    apply flat_map_ext. intros [i j]. reflexivity.
Qed.

Lemma level_rows_length (self : t) (step : Z) (f : Z * Z) (sizes : list Q) :
  (0 <= fst f)%Z -> (0 <= snd f)%Z ->
  Z.of_nat (length (level_rows self step f sizes))
  = (fst f * snd f * Z.of_nat (length sizes))%Z.
Proof.
  intros H0 H1. unfold level_rows.
  rewrite (flat_map_constant_length (c := length sizes)).
  - unfold product. rewrite length_prod, !range_length. lia.
  - intros [i j] _. apply length_map.
Qed.

Lemma level_rows_in (self : t) (step : Z) (f : Z * Z) (sizes : list Q)
    (a : list Q) :
  In a (level_rows self step f sizes) ->
  exists i j min_size,
    (0 <= i < fst f)%Z /\ (0 <= j < snd f)%Z /\ In min_size sizes /\
    a = anchor_at (fst (image_size self)) (snd (image_size self)) step i j
          min_size.
Proof.
  unfold level_rows. rewrite in_flat_map.
  intros ([i j] & Hij & Ha).
  unfold product in Hij. apply in_prod_iff in Hij. destruct Hij as [Hi Hj].
  apply range_in in Hi, Hj.
  apply in_map_iff in Ha. destruct Ha as (ms & <- & Hms).
  exists i, j, ms. repeat split; try lia; assumption.
Qed.

Lemma level_rows_four (self : t) (step : Z) (f : Z * Z) (sizes : list Q) :
  Forall (fun a => length a = 4%nat) (level_rows self step f sizes).
Proof.
  apply Forall_forall. intros a Ha.
  apply level_rows_in in Ha. destruct Ha as (i & j & ms & _ & _ & _ & ->).
  reflexivity.
Qed.

Lemma skipn_cons_inv {X : Type} (k : nat) (l : list X) (x : X)
    (l' : list X) :
  skipn k l = x :: l' -> nth_error l k = Some x /\ skipn (S k) l = l'.
Proof.
  revert l. induction k as [|k IH]; intros [|y l] Hs; simpl in *;
    try discriminate.
  - injection Hs as -> ->. now split.
  - now apply IH.
Qed.

Lemma clamp01_bounds (x : Q) : 0 <= clamp01 x /\ clamp01 x <= 1.
Proof.
  unfold clamp01.
  destruct (Qlt_le_dec x 0) as [Hneg | Hpos]; [split; discriminate|].
  destruct (Qlt_le_dec 1 x) as [Hbig | Hsmall]; [split; discriminate|].
  now split.
Qed.

End AnchorFacts.

Section AnchorLevels.
Import AnchorGenerator.
Local Open Scope Q_scope.

Variable self : t.

Local Abbreviation H := (fst (image_size self)).
Local Abbreviation W := (snd (image_size self)).

Lemma levels_from_cons (k : nat) (f : Z * Z) (fs : list (Z * Z))
    (here rest : list Q) :
  level_anchors self k f = Some here ->
  levels_from self (S k) fs = Some rest ->
  levels_from self k (f :: fs) = Some (here ++ rest).
Proof. intros Hhere Hrest. simpl. now rewrite Hhere, Hrest. Qed.

Lemma levels_from_rows (ss : list Z) :
  forall (k : nat) (sz : list (list Q)),
    skipn k (steps self) = ss -> skipn k (min_sizes self) = sz ->
    (length ss <= length sz)%nat ->
    Forall (fun s => (0 < s)%Z) ss -> (0 <= H)%Z -> (0 <= W)%Z ->
    exists rows : list (list Q),
      levels_from self k
        (map (fun step => (ceil_div H step, ceil_div W step)) ss)
      = Some (concat rows) /\
      Forall (fun a => length a = 4%nat) rows /\
      Z.of_nat (length rows) = expected_count H W ss sz /\
      Forall (is_anchor self) rows.
Proof.
  induction ss as [|s ss IH]; intros k sz Hss Hsz Hlen Hpos HH HW.
  - exists []. repeat split; constructor.
  - destruct sz as [|z sz]; [simpl in Hlen; lia|].
    apply skipn_cons_inv in Hss, Hsz.
    destruct Hss as [Hs Hss]. destruct Hsz as [Hz Hsz].
    inversion Hpos as [|? ? Hs0 Hpos']; subst.
    destruct (IH (S k) (skipn (S k) (min_sizes self)) eq_refl eq_refl)
      as (rows & Hrows & Hfour & Hcount & Hform);
      [apply le_S_n; exact Hlen | assumption | assumption | assumption |].
    exists (level_rows self s (ceil_div H s, ceil_div W s) z ++ rows).
    assert (Hnth : nth k (steps self) 0%Z = s) by (now apply nth_error_nth).
    repeat split.
    + rewrite map_cons, concat_app. apply levels_from_cons; [|assumption].
      rewrite (level_anchors_rows self k _ z Hz), Hnth. reflexivity.
    + apply Forall_app. split; [apply level_rows_four | assumption].
    + rewrite length_app, Nat2Z.inj_add, Hcount. simpl expected_count.
      rewrite level_rows_length; simpl fst; simpl snd;
        try (now apply ceil_div_nonneg).
      reflexivity.
    + apply Forall_app. split; [|assumption].
      apply Forall_forall. intros a Ha.
      apply level_rows_in in Ha.
      destruct Ha as (i & j & ms & Hi & Hj & Hms & ->).
      exists k, s, z, i, j, ms. repeat split; try assumption;
        simpl in Hi, Hj; lia.
Qed.

End AnchorLevels.

Section AnchorInit.
Import AnchorGenerator.

Lemma init_some (cfg : Config) :
  Forall (fun s => (0 < s)%Z) (MODEL_strides cfg) ->
  init cfg
  = Some (mk (MODEL_anchor_sizes cfg) (MODEL_strides cfg)
            (TRAIN_clip_box cfg) (DATA_image_size cfg)
            (map (fun step =>
                    (ceil_div (fst (DATA_image_size cfg)) step,
                     ceil_div (snd (DATA_image_size cfg)) step))
               (MODEL_strides cfg))
            (TRAIN_use_gpu cfg)).
Proof.
  intros Hpos. unfold init.
  replace (existsb (fun step => Z.eqb step 0) (MODEL_strides cfg))
    with false; [reflexivity|].
  symmetry. induction Hpos as [|s ss Hs _ IH]; [reflexivity|].
  simpl. rewrite IH. destruct (Z.eqb_spec s 0); [lia | reflexivity].
Qed.

End AnchorInit.

(** C9.  For an image of height [H >= 0] and width [W >= 0], positive
    strides and sizes for every level, [generate_anchors] returns
    [sum_k ceil(H / step_k) * ceil(W / step_k) * len(min_sizes[k])]
    anchors.  Every anchor has four numbers: it is
    [(center_x, center_y, width, height)] of a cell of a level for one
    of the sizes of the level, divided by the width and the height of the
    image, and clamped when [clip] is set.  With [clip] set every number
    of every anchor is between 0 and 1. *)
Theorem AnchorGenerator_generate_anchors_count
    (cfg : AnchorGenerator.Config) :
  (0 <= fst (AnchorGenerator.DATA_image_size cfg))%Z ->
  (0 <= snd (AnchorGenerator.DATA_image_size cfg))%Z ->
  Forall (fun s => (0 < s)%Z) (AnchorGenerator.MODEL_strides cfg) ->
  (length (AnchorGenerator.MODEL_strides cfg)
   <= length (AnchorGenerator.MODEL_anchor_sizes cfg))%nat ->
  exists (self : AnchorGenerator.t) (output : list (list Q)),
    AnchorGenerator.init cfg = Some self /\
    AnchorGenerator.generate_anchors self = Some output /\
    Z.of_nat (length output)
    = AnchorGenerator.expected_count
        (fst (AnchorGenerator.DATA_image_size cfg))
        (snd (AnchorGenerator.DATA_image_size cfg))
        (AnchorGenerator.MODEL_strides cfg)
        (AnchorGenerator.MODEL_anchor_sizes cfg) /\
    Forall (fun a => length a = 4%nat) output /\
    Forall
      (fun a =>
         exists a0, AnchorGenerator.is_anchor self a0 /\
           a = if AnchorGenerator.TRAIN_clip_box cfg
               then map AnchorGenerator.clamp01 a0 else a0)
      output /\
    (AnchorGenerator.TRAIN_clip_box cfg = true ->
     Forall (Forall (fun c => (0 <= c)%Q /\ (c <= 1)%Q)) output).
Proof.
  intros HH HW Hpos Hlen.
  pose proof (init_some cfg Hpos) as Hinit.
  match type of Hinit with _ = Some ?s => set (self := s) in * end.
  destruct (levels_from_rows self (AnchorGenerator.MODEL_strides cfg) 0
              (AnchorGenerator.MODEL_anchor_sizes cfg) eq_refl eq_refl
              Hlen Hpos HH HW)
    as (rows & Hrows & Hfour & Hcount & Hform).
  exists self,
    (if AnchorGenerator.TRAIN_clip_box cfg
     then map (map AnchorGenerator.clamp01) rows else rows).
  split; [exact Hinit|].
  unfold AnchorGenerator.generate_anchors.
  change (AnchorGenerator.feature_maps self)
    with (map (fun step =>
                 (AnchorGenerator.ceil_div
                    (fst (AnchorGenerator.image_size self)) step,
                  AnchorGenerator.ceil_div
                    (snd (AnchorGenerator.image_size self)) step))
            (AnchorGenerator.MODEL_strides cfg)).
  rewrite Hrows, view4_concat by assumption.
  change (AnchorGenerator.clip self)
    with (AnchorGenerator.TRAIN_clip_box cfg).
  split; [reflexivity|].
  destruct (AnchorGenerator.TRAIN_clip_box cfg).
  - repeat split.
    + now rewrite length_map.
    + rewrite Forall_map. eapply Forall_impl; [|exact Hfour].
      intros a Ha. now rewrite length_map.
    + rewrite Forall_map. eapply Forall_impl; [|exact Hform].
      intros a Ha. now exists a.
    + intros _. rewrite Forall_map. apply Forall_forall. intros a _.
      rewrite Forall_map. apply Forall_forall. intros c _.
      apply clamp01_bounds.
  - repeat split; try assumption.
    + eapply Forall_impl; [|exact Hform]. intros a Ha. now exists a.
    + discriminate.
Qed.

(** Two levels on a 4 x 6 image: 2 * 3 cells with two sizes and 1 * 2
    cells with one size, 14 anchors. *)
Lemma AnchorGenerator_generate_anchors_count_witness :
  exists (self : AnchorGenerator.t) (output : list (list Q)),
    AnchorGenerator.init AnchorGenerator.example_config = Some self /\
    AnchorGenerator.generate_anchors self = Some output /\
    Z.of_nat (length output) = 14%Z /\
    Forall (fun a => length a = 4%nat) output /\
    Forall
      (fun a =>
         exists a0, AnchorGenerator.is_anchor self a0 /\
           a = map AnchorGenerator.clamp01 a0)
      output /\
    (true = true ->
     Forall (Forall (fun c => (0 <= c)%Q /\ (c <= 1)%Q)) output).
Proof.
  apply (AnchorGenerator_generate_anchors_count
           AnchorGenerator.example_config).
  - simpl. lia.
  - simpl. lia.
  - repeat constructor.
  - simpl. lia.
Defined.

(** The anchors of a 2 x 2 image with one level of stride 2 and the
    sizes 1 and 4: the center of the only cell is (1/2, 1/2); the size 4
    is wider than the image and is clamped to 1.  ([Qred] brings the
    fractions to lowest terms.) *)
Example AnchorGenerator_generate_anchors_small :
  option_map
    (fun self =>
       option_map (map (map Qred)) (AnchorGenerator.generate_anchors self))
    (AnchorGenerator.init
       (AnchorGenerator.mkConfig [[1; 4]%Q] [2%Z] true (2, 2)%Z false))
  = Some (Some [ [1 # 2; 1 # 2; 1 # 2; 1 # 2];
                 [1 # 2; 1 # 2; 1; 1] ]%Q).
Proof. vm_compute. reflexivity. Qed.

(** ** [PNet], [RNet], [ONet] *)

Section SoftmaxFacts.
Import Torch.

Lemma sum_map_div (f : R -> R) (d : R) (l : list R) :
  sum (map (fun x => f x / d) l) = sum (map f l) / d.
Proof.
  induction l as [|a l IH]; simpl map.
  - unfold sum, Rdiv. simpl. now rewrite Rmult_0_l.
  - rewrite !sum_cons, IH. unfold Rdiv. lra.
Qed.

Lemma sum_exp_pos (v : list R) : v <> [] -> 0 < sum (map exp v).
Proof.
  destruct v as [|a v]; [congruence|]. intros _.
  simpl map. rewrite sum_cons.
  assert (0 <= sum (map exp v)).
  { apply sum_nonneg. rewrite Forall_map. apply Forall_forall.
    intros x _. left. apply exp_pos. }
  pose proof (exp_pos a). lra.
Qed.

Lemma exp_le_sum (v : list R) (x : R) : In x v -> exp x <= sum (map exp v).
Proof.
  induction v as [|a v IH]; intros Hin; [contradiction|].
  simpl map. rewrite sum_cons.
  assert (0 <= sum (map exp v)).
  { apply sum_nonneg. rewrite Forall_map. apply Forall_forall.
    intros y _. left. apply exp_pos. }
  pose proof (exp_pos a).
  destruct Hin as [-> | Hin]; [lra|].
  specialize (IH Hin). lra.
Qed.

(** The softmax of a vector with at least one entry is a probability
    distribution. *)
Lemma softmax_distribution (v : list R) :
  v <> [] ->
  Forall (fun p => 0 <= p <= 1) (softmax v) /\ sum (softmax v) = 1.
Proof.
  intros Hv. pose proof (sum_exp_pos v Hv) as Hpos. unfold softmax. split.
  - rewrite Forall_map. apply Forall_forall. intros x Hx.
    pose proof (exp_pos x). pose proof (exp_le_sum v x Hx). split.
    + left. now apply Rdiv_lt_0_compat.
    + apply Rmult_le_reg_r with (sum (map exp v)); [assumption|].
      unfold Rdiv. rewrite Rmult_assoc, Rinv_l by lra. lra.
  - rewrite (sum_map_div exp). unfold Rdiv. apply Rinv_r. lra.
Qed.

Lemma softmax_scores (scores : list (list R)) :
  Forall (fun v => length v = 2%nat) scores ->
  Forall (fun v => length v = 2%nat /\
                   Forall (fun p => 0 <= p <= 1) v /\ sum v = 1)
    (map softmax scores).
Proof.
  intros H2. rewrite Forall_map. eapply Forall_impl; [|exact H2].
  intros v Hv. split.
  - unfold softmax. now rewrite length_map.
  - apply softmax_distribution. destruct v; [discriminate | congruence].
Qed.

(** The softmax of every score vector, one for one. *)
Lemma softmax_each (scores : list (list R)) :
  Forall (fun v => length v = 2%nat) scores ->
  Forall2 (fun raw out => out = softmax raw /\ distribution out)
    scores (map softmax scores).
Proof.
  induction 1 as [|v scores Hv _ IH]; simpl; constructor; [|exact IH].
  split; [reflexivity|]. unfold distribution. split.
  - unfold softmax. now rewrite length_map.
  - apply softmax_distribution. destruct v; [discriminate | congruence].
Qed.

End SoftmaxFacts.

Section LayerFacts.
Import Layers.
Local Open Scope Z_scope.

Lemma conv2d_shape (cin cout k n h w : Z) :
  k <= h -> k <= w ->
  layer_shape (Conv2d cin cout k 1) (n, cin, h, w)
  = Some (n, cout, h - k + 1, w - k + 1).
Proof.
  intros Hh Hw. unfold layer_shape, window_out.
  rewrite Z.eqb_refl, !Z.div_1_r.
  destruct (Z.leb_spec k h); [|lia]. destruct (Z.leb_spec k w); [|lia].
  reflexivity.
Qed.

Lemma prelu_shape (c n h w : Z) :
  layer_shape (PReLU c) (n, c, h, w) = Some (n, c, h, w).
Proof.
  unfold layer_shape. rewrite Z.eqb_refl, orb_true_r. reflexivity.
Qed.

Lemma maxpool_shape (k s n c h w : Z) :
  k <= h -> k <= w ->
  layer_shape (MaxPool2d k s false) (n, c, h, w)
  = Some (n, c, (h - k) / s + 1, (w - k) / s + 1).
Proof.
  intros Hh Hw. unfold layer_shape, window_out.
  destruct (Z.leb_spec k h); [|lia]. destruct (Z.leb_spec k w); [|lia].
  reflexivity.
Qed.

Lemma sequential_shape_cons (l : layer) (ls : list layer) (x y : shape) :
  layer_shape l x = Some y ->
  sequential_shape (l :: ls) x = sequential_shape ls y.
Proof. intros Hl. simpl. now rewrite Hl. Qed.

(** The spatial size after [features]: a pooling by 2 between
    convolutions that take off 2, 2 and 2. *)
Lemma pnet_size (X : Z) :
  12 <= X -> (X - 3 + 1 - 2) / 2 + 1 - 3 + 1 - 3 + 1 = (X - 12) / 2 + 1.
Proof.
  intros HX.
  replace (X - 3 + 1 - 2) with ((X - 12) + 4 * 2) by lia.
  rewrite Z.div_add by lia. lia.
Qed.

Lemma pnet_size_pos (X : Z) : 12 <= X -> 1 <= (X - 12) / 2 + 1.
Proof.
  intros HX. assert (0 <= (X - 12) / 2) by (apply Z.div_pos; lia). lia.
Qed.

Lemma pnet_features_shape (n H W : Z) :
  12 <= H -> 12 <= W ->
  sequential_shape PNet.features_layers (n, 3, H, W)
  = Some (n, 32, (H - 12) / 2 + 1, (W - 12) / 2 + 1).
Proof.
  intros HH HW. unfold PNet.features_layers.
  pose proof (pnet_size H HH) as EH. pose proof (pnet_size W HW) as EW.
  pose proof (pnet_size_pos H HH) as PH.
  pose proof (pnet_size_pos W HW) as PW.
  erewrite sequential_shape_cons by (apply conv2d_shape; lia).
  erewrite sequential_shape_cons by apply prelu_shape.
  erewrite sequential_shape_cons by (apply maxpool_shape; lia).
  erewrite sequential_shape_cons by (apply conv2d_shape; lia).
  erewrite sequential_shape_cons by apply prelu_shape.
  erewrite sequential_shape_cons by (apply conv2d_shape; lia).
  erewrite sequential_shape_cons by apply prelu_shape.
  simpl sequential_shape. now rewrite EH, EW.
Qed.

End LayerFacts.

(** C7.  For an image of height [H >= 12] and width [W >= 12] with three
    channels, [PNet.forward] returns score and offset maps of the
    spatial size [((H - 12) / 2 + 1, (W - 12) / 2 + 1)] (the quotient
    rounded down: a 12 x 12 window moved in steps of 2), with 2 score
    channels and 4 offset channels. *)
Theorem PNet_forward_shape (is_train : bool) (n H W : Z) :
  (12 <= H)%Z -> (12 <= W)%Z ->
  PNet.forward_shape is_train (n, 3, H, W)%Z
  = Some ((n, 2, (H - 12) / 2 + 1, (W - 12) / 2 + 1)%Z,
          (n, 4, (H - 12) / 2 + 1, (W - 12) / 2 + 1)%Z).
Proof.
  intros HH HW. unfold PNet.forward_shape.
  rewrite pnet_features_shape by assumption.
  pose proof (pnet_size_pos H HH) as PH.
  pose proof (pnet_size_pos W HW) as PW.
  unfold PNet.conv4_1_layer, PNet.conv4_2_layer.
  rewrite !conv2d_shape by lia.
  now rewrite !Z.sub_add.
Qed.

(** The smallest image: 12 x 12 gives one location. *)
Lemma PNet_forward_shape_witness :
  PNet.forward_shape false (1, 3, 12, 12)%Z
  = Some ((1, 2, (12 - 12) / 2 + 1, (12 - 12) / 2 + 1)%Z,
          (1, 4, (12 - 12) / 2 + 1, (12 - 12) / 2 + 1)%Z).
Proof.
  apply (PNet_forward_shape false 1 12 12); lia.
Defined.

(** An image of 13 x 20 pixels: one row of five locations. *)
Example PNet_forward_shape_13_20 :
  PNet.forward_shape false (1, 3, 13, 20)%Z
  = Some ((1, 2, 1, 5)%Z, (1, 4, 1, 5)%Z).
Proof. reflexivity. Qed.

(** An image smaller than the window is refused. *)
Example PNet_forward_shape_11 :
  PNet.forward_shape false (1, 3, 11, 12)%Z = None.
Proof. reflexivity. Qed.

(** C8.  With [is_train = False], [PNet], [RNet] and [ONet] return one
    score vector for every score vector of the last layer, and it is the
    softmax of that vector: a probability distribution over the two
    classes, its entries between 0 and 1 and adding up to 1.  With
    [is_train = True] the scores are those of the last layer,
    unchanged. *)
Theorem MTCNN_forward_scores {X F O L : Type}
    (pnet : PNet.t X F O) (rnet : RNet.t X F O) (onet : ONet.t X F O L)
    (train_landmarks : bool) (xp xr xo : X) :
  Forall (fun v => length v = 2%nat)
    (PNet.conv4_1 pnet (PNet.features pnet xp)) ->
  Forall (fun v => length v = 2%nat)
    (RNet.conv5_1 rnet (RNet.features rnet xr)) ->
  Forall (fun v => length v = 2%nat)
    (ONet.conv6_1 onet (ONet.features onet xo)) ->
  (PNet.is_train pnet = false ->
   Forall2 (fun raw out => out = Torch.softmax raw /\ Torch.distribution out)
     (PNet.conv4_1 pnet (PNet.features pnet xp))
     (fst (PNet.forward pnet xp))) /\
  (PNet.is_train pnet = true ->
   fst (PNet.forward pnet xp) = PNet.conv4_1 pnet (PNet.features pnet xp)) /\
  (RNet.is_train rnet = false ->
   Forall2 (fun raw out => out = Torch.softmax raw /\ Torch.distribution out)
     (RNet.conv5_1 rnet (RNet.features rnet xr))
     (fst (RNet.forward rnet xr))) /\
  (RNet.is_train rnet = true ->
   fst (RNet.forward rnet xr) = RNet.conv5_1 rnet (RNet.features rnet xr)) /\
  (ONet.is_train onet = false ->
   Forall2 (fun raw out => out = Torch.softmax raw /\ Torch.distribution out)
     (ONet.conv6_1 onet (ONet.features onet xo))
     (fst (fst (ONet.forward train_landmarks onet xo)))) /\
  (ONet.is_train onet = true ->
   fst (fst (ONet.forward train_landmarks onet xo))
   = ONet.conv6_1 onet (ONet.features onet xo)).
Proof.
  intros Hp Hr Ho.
  unfold PNet.forward, RNet.forward, ONet.forward.
  repeat split; intros Htrain; rewrite Htrain; simpl;
    try reflexivity; try (now apply softmax_each);
    destruct train_landmarks; simpl;
    try reflexivity; now apply softmax_each.
Qed.

(** Three networks in inference mode whose last layers give the scores
    (0, 0) at one location. *)
Lemma MTCNN_forward_scores_witness :
  (false = false ->
   Forall2 (fun raw out => out = Torch.softmax raw /\ Torch.distribution out)
     [[0; 0]]
     (fst (PNet.forward
             (PNet.mk false (fun x : unit => x) (fun _ => [[0; 0]])
                (fun _ => tt)) tt))) /\
  (false = true ->
   fst (PNet.forward
          (PNet.mk false (fun x : unit => x) (fun _ => [[0; 0]])
             (fun _ => tt)) tt) = [[0; 0]]) /\
  (false = false ->
   Forall2 (fun raw out => out = Torch.softmax raw /\ Torch.distribution out)
     [[0; 0]]
     (fst (RNet.forward
             (RNet.mk false (fun x : unit => x) (fun _ => [[0; 0]])
                (fun _ => tt)) tt))) /\
  (false = true ->
   fst (RNet.forward
          (RNet.mk false (fun x : unit => x) (fun _ => [[0; 0]])
             (fun _ => tt)) tt) = [[0; 0]]) /\
  (false = false ->
   Forall2 (fun raw out => out = Torch.softmax raw /\ Torch.distribution out)
     [[0; 0]]
     (fst (fst (ONet.forward true
                  (ONet.mk false (fun x : unit => x) (fun _ => [[0; 0]])
                     (fun _ => tt) (fun _ => tt)) tt)))) /\
  (false = true ->
   fst (fst (ONet.forward true
               (ONet.mk false (fun x : unit => x) (fun _ => [[0; 0]])
                  (fun _ => tt) (fun _ => tt)) tt)) = [[0; 0]]).
Proof.
  apply (MTCNN_forward_scores
           (PNet.mk false (fun x : unit => x) (fun _ => [[0; 0]])
              (fun _ => tt))
           (RNet.mk false (fun x : unit => x) (fun _ => [[0; 0]])
              (fun _ => tt))
           (ONet.mk false (fun x : unit => x) (fun _ => [[0; 0]])
              (fun _ => tt) (fun _ => tt))
           true tt tt tt);
    repeat constructor.
Defined.

(** * Further properties of the code *)

(** ** modules.py: the input sizes that the networks take *)

Section HeadsFacts.
Import Layers Heads.
Local Open Scope Z_scope.

Ltac dlia := Z.to_euclidean_division_equations; lia.

Lemma sequential_unfold (m : module) (ms : list module) (x : tshape) :
  sequential (m :: ms) x
  = match module_shape m x with
    | Some y => sequential ms y
    | None => None
    end.
Proof. simpl. now destruct (module_shape m x). Qed.

Lemma conv_image (cin cout k n h w : Z) :
  module_shape (Layer (Conv2d cin cout k 1)) (Image (n, cin, h, w))
  = if (k <=? h) && (k <=? w)
    then Some (Image (n, cout, h - k + 1, w - k + 1))
    else None.
Proof.
  unfold module_shape, layer_shape, window_out.
  rewrite Z.eqb_refl, !Z.div_1_r. simpl andb.
  now destruct ((k <=? h) && (k <=? w)).
Qed.

Lemma prelu_image (c n h w : Z) :
  module_shape (Layer (PReLU c)) (Image (n, c, h, w))
  = Some (Image (n, c, h, w)).
Proof. unfold module_shape. now rewrite prelu_shape. Qed.

Lemma pool_image (k s n c h w : Z) :
  module_shape (Layer (MaxPool2d k s false)) (Image (n, c, h, w))
  = if (k <=? h) && (k <=? w)
    then Some (Image (n, c, (h - k) / s + 1, (w - k) / s + 1))
    else None.
Proof.
  unfold module_shape, layer_shape, window_out.
  now destruct ((k <=? h) && (k <=? w)).
Qed.

(** One module of a convolutional part, with its size tests decided. *)
Ltac conv_step :=
  rewrite sequential_unfold;
  first [ rewrite conv_image | rewrite pool_image | rewrite prelu_image ];
  repeat match goal with
  | |- context [match (if (?a <=? ?b) && (?c <=? ?d) then _ else _)
                with _ => _ end] =>
      destruct (Z.leb_spec a b); destruct (Z.leb_spec c d); cbn [andb]
  end.

Ltac conv_done :=
  cbn [sequential];
  repeat match goal with
  | |- context [Z.leb ?a ?b] => destruct (Z.leb_spec a b); cbn [andb]
  end;
  first [ reflexivity | dlia | (do 3 f_equal; [f_equal|]; dlia) ].

(** The convolutional part of [RNet] takes the images with both sides at
    least 17. *)
Lemma rnet_conv_part (n H W : Z) :
  sequential (firstn 8 rnet_features) (Image (n, 3, H, W))
  = if (17 <=? H) && (17 <=? W)
    then Some (Image (n, 64, rnet_side H, rnet_side W))
    else None.
Proof.
  unfold rnet_features, rnet_side. cbn [firstn].
  repeat conv_step; conv_done.
Qed.

(** The convolutional part of [ONet] takes the images with both sides
    at least 33. *)
Lemma onet_conv_part (n H W : Z) :
  sequential (firstn 11 onet_features) (Image (n, 3, H, W))
  = if (33 <=? H) && (33 <=? W)
    then Some (Image (n, 128, onet_side H, onet_side W))
    else None.
Proof.
  unfold onet_features, onet_side. cbn [firstn].
  repeat conv_step; conv_done.
Qed.

End HeadsFacts.

Section HeadsForward.
Import Layers Heads.
Local Open Scope Z_scope.

Ltac dlia := Z.to_euclidean_division_equations; lia.

Lemma sequential_app (ms ms' : list module) (x : tshape) :
  sequential (ms ++ ms') x
  = match sequential ms x with
    | Some y => sequential ms' y
    | None => None
    end.
Proof.
  revert x. induction ms as [|m ms IH]; intros x; [reflexivity|].
  simpl. destruct (module_shape m x); [apply IH | reflexivity].
Qed.

(** Four locations: 2 x 2, 1 x 4 or 4 x 1. *)
Lemma four_locations (a b : Z) :
  1 <= a -> 1 <= b ->
  (a * b = 4 <-> (a = 2 /\ b = 2) \/ (a = 1 /\ b = 4) \/ (a = 4 /\ b = 1)).
Proof.
  intros Ha Hb. split.
  - intros Hab. assert (a <= 4) by nia.
    assert (a = 1 \/ a = 2 \/ a = 3 \/ a = 4) as [-> | [-> | [-> | ->]]] by lia;
      lia.
  - intros [[-> ->] | [[-> ->] | [-> ->]]]; reflexivity.
Qed.

Lemma rnet_takes_side (H W : Z) :
  Sizes.rnet_takes H W <->
  17 <= H /\ 17 <= W /\ 64 * rnet_side H * rnet_side W = 64 * 2 * 2.
Proof.
  unfold Sizes.rnet_takes. split.
  - intros Hr.
    assert ((rnet_side H = 2 /\ rnet_side W = 2) \/
            (rnet_side H = 1 /\ rnet_side W = 4) \/
            (rnet_side H = 4 /\ rnet_side W = 1)) as Hs
      by (unfold rnet_side; dlia).
    split; [lia|]. split; [lia|].
    destruct Hs as [[-> ->] | [[-> ->] | [-> ->]]]; reflexivity.
  - intros (HH & HW & Hs).
    assert (1 <= rnet_side H) by (unfold rnet_side; dlia).
    assert (1 <= rnet_side W) by (unfold rnet_side; dlia).
    assert (Hab : rnet_side H * rnet_side W = 4) by lia.
    apply four_locations in Hab; [|assumption|assumption].
    unfold rnet_side in Hab. dlia.
Qed.

Lemma onet_takes_side (H W : Z) :
  Sizes.onet_takes H W <->
  33 <= H /\ 33 <= W /\ 128 * onet_side H * onet_side W = 128 * 2 * 2.
Proof.
  unfold Sizes.onet_takes. split.
  - intros Hr.
    assert ((onet_side H = 2 /\ onet_side W = 2) \/
            (onet_side H = 1 /\ onet_side W = 4) \/
            (onet_side H = 4 /\ onet_side W = 1)) as Hs
      by (unfold onet_side; dlia).
    split; [lia|]. split; [lia|].
    destruct Hs as [[-> ->] | [[-> ->] | [-> ->]]]; reflexivity.
  - intros (HH & HW & Hs).
    assert (1 <= onet_side H) by (unfold onet_side; dlia).
    assert (1 <= onet_side W) by (unfold onet_side; dlia).
    assert (Hab : onet_side H * onet_side W = 4) by lia.
    apply four_locations in Hab; [|assumption|assumption].
    unfold onet_side in Hab. dlia.
Qed.

(** [RNet.forward] in closed form. *)
Lemma rnet_forward_shape_eq (n H W : Z) :
  n <> 0 ->
  rnet_forward_shape (Image (n, 3, H, W))
  = if (17 <=? H) && (17 <=? W)
       && (64 * rnet_side H * rnet_side W =? 64 * 2 * 2)
    then Some (Features n 2, Features n 4)
    else None.
Proof.
  intros Hn. unfold rnet_forward_shape.
  change rnet_features
    with (firstn 8 rnet_features
          ++ [Flatten; Linear (64 * 2 * 2) 128; Layer (PReLU 128); Dropout]).
  rewrite sequential_app, rnet_conv_part.
  destruct ((17 <=? H) && (17 <=? W)); [|reflexivity].
  cbn [andb sequential module_shape].
  destruct (Z.eqb_spec n 0) as [|_]; [contradiction|].
  destruct (64 * rnet_side H * rnet_side W =? 64 * 2 * 2); reflexivity.
Qed.

(** [ONet.forward] in closed form. *)
Lemma onet_forward_shape_eq (train_landmarks : bool) (n H W : Z) :
  n <> 0 ->
  onet_forward_shape train_landmarks (Image (n, 3, H, W))
  = if (33 <=? H) && (33 <=? W)
       && (128 * onet_side H * onet_side W =? 128 * 2 * 2)
    then Some (Features n 2, Features n 4,
               if train_landmarks then Some (Features n 10) else None)
    else None.
Proof.
  intros Hn. unfold onet_forward_shape.
  change onet_features
    with (firstn 11 onet_features
          ++ [Flatten; Linear (128 * 2 * 2) 256; Layer (PReLU 256); Dropout]).
  rewrite sequential_app, onet_conv_part.
  destruct ((33 <=? H) && (33 <=? W)); [|reflexivity].
  cbn [andb sequential module_shape].
  destruct (Z.eqb_spec n 0) as [|_]; [contradiction|].
  destruct (128 * onet_side H * onet_side W =? 128 * 2 * 2);
    destruct train_landmarks; reflexivity.
Qed.

End HeadsForward.

(** X1.  [RNet.forward] takes a batch of three-channel images exactly
    when the feature map before [Flatten] has four locations: both sides
    from 21 to 24 (2 x 2), or one side from 17 to 20 and the other from
    29 to 32.  It then returns scores of shape (n, 2) and offsets of shape
    (n, 4); for every other size the first [nn.Linear] refuses the
    flattened features, or a layer before it the image. *)
Theorem RNet_forward_takes (n H W : Z) :
  n <> 0%Z ->
  (Sizes.rnet_takes H W ->
   Heads.rnet_forward_shape (Heads.Image (n, 3, H, W)%Z)
   = Some (Heads.Features n 2, Heads.Features n 4)) /\
  (~ Sizes.rnet_takes H W ->
   Heads.rnet_forward_shape (Heads.Image (n, 3, H, W)%Z) = None).
Proof.
  intros Hn. rewrite rnet_forward_shape_eq by assumption.
  rewrite rnet_takes_side.
  destruct (Z.leb_spec 17 H); destruct (Z.leb_spec 17 W);
    destruct (Z.eqb_spec (64 * Heads.rnet_side H * Heads.rnet_side W)
                (64 * 2 * 2));
    cbn [andb]; split; intros Ht; try reflexivity; try lia;
    exfalso; apply Ht; repeat split; assumption.
Qed.

(** The size the network is exported with: one 24 x 24 image. *)
Lemma RNet_forward_takes_witness :
  (Sizes.rnet_takes 24 24 ->
   Heads.rnet_forward_shape (Heads.Image (1, 3, 24, 24)%Z)
   = Some (Heads.Features 1 2, Heads.Features 1 4)) /\
  (~ Sizes.rnet_takes 24 24 ->
   Heads.rnet_forward_shape (Heads.Image (1, 3, 24, 24)%Z) = None).
Proof.
  apply (RNet_forward_takes 1 24 24). discriminate.
Defined.

(** X2.  [ONet.forward] takes a batch of three-channel images exactly
    when the feature map before [Flatten] has four locations: both sides
    from 41 to 48 (2 x 2), or one side from 33 to 40 and the other from
    57 to 64.  It then returns scores of shape (n, 2), offsets of shape
    (n, 4) and, when landmarks are trained, landmarks of shape (n, 10);
    for every other size it raises. *)
Theorem ONet_forward_takes (train_landmarks : bool) (n H W : Z) :
  n <> 0%Z ->
  (Sizes.onet_takes H W ->
   Heads.onet_forward_shape train_landmarks (Heads.Image (n, 3, H, W)%Z)
   = Some (Heads.Features n 2, Heads.Features n 4,
           if train_landmarks then Some (Heads.Features n 10) else None)) /\
  (~ Sizes.onet_takes H W ->
   Heads.onet_forward_shape train_landmarks (Heads.Image (n, 3, H, W)%Z)
   = None).
Proof.
  intros Hn. rewrite onet_forward_shape_eq by assumption.
  rewrite onet_takes_side.
  destruct (Z.leb_spec 33 H); destruct (Z.leb_spec 33 W);
    destruct (Z.eqb_spec (128 * Heads.onet_side H * Heads.onet_side W)
                (128 * 2 * 2));
    cbn [andb]; split; intros Ht; try reflexivity; try lia;
    exfalso; apply Ht; repeat split; assumption.
Qed.

(** The size the network is exported with: one 48 x 48 image. *)
Lemma ONet_forward_takes_witness :
  (Sizes.onet_takes 48 48 ->
   Heads.onet_forward_shape true (Heads.Image (1, 3, 48, 48)%Z)
   = Some (Heads.Features 1 2, Heads.Features 1 4,
           Some (Heads.Features 1 10))) /\
  (~ Sizes.onet_takes 48 48 ->
   Heads.onet_forward_shape true (Heads.Image (1, 3, 48, 48)%Z) = None).
Proof.
  apply (ONet_forward_takes true 1 48 48). discriminate.
Defined.

Section PNetRefuses.
Import Layers.
Local Open Scope Z_scope.

Ltac dlia := Z.to_euclidean_division_equations; lia.

Lemma sequential_shape_unfold (l : layer) (ls : list layer) (x : shape) :
  sequential_shape (l :: ls) x
  = match layer_shape l x with
    | Some y => sequential_shape ls y
    | None => None
    end.
Proof. simpl. now destruct (layer_shape l x). Qed.

Lemma conv2d_shape_if (cin cout k n h w : Z) :
  layer_shape (Conv2d cin cout k 1) (n, cin, h, w)
  = if (k <=? h) && (k <=? w)
    then Some (n, cout, h - k + 1, w - k + 1)
    else None.
Proof.
  unfold layer_shape, window_out.
  rewrite Z.eqb_refl, !Z.div_1_r. simpl andb.
  now destruct ((k <=? h) && (k <=? w)).
Qed.

Lemma maxpool_shape_if (k s n c h w : Z) :
  layer_shape (MaxPool2d k s false) (n, c, h, w)
  = if (k <=? h) && (k <=? w)
    then Some (n, c, (h - k) / s + 1, (w - k) / s + 1)
    else None.
Proof.
  unfold layer_shape, window_out.
  now destruct ((k <=? h) && (k <=? w)).
Qed.

Lemma conv2d_channels (cin cout k s n c h w : Z) :
  c <> cin -> layer_shape (Conv2d cin cout k s) (n, c, h, w) = None.
Proof.
  intros Hc. unfold layer_shape.
  destruct (Z.eqb_spec c cin); [contradiction | reflexivity].
Qed.

Ltac layer_step :=
  rewrite sequential_shape_unfold;
  first [ rewrite conv2d_shape_if | rewrite maxpool_shape_if
        | rewrite prelu_shape ];
  repeat match goal with
  | |- context [match (if (?a <=? ?b) && (?c <=? ?d) then _ else _)
                with _ => _ end] =>
      destruct (Z.leb_spec a b); destruct (Z.leb_spec c d); cbn [andb]
  end.

(** The convolutional part of [PNet] refuses an image with a side below
    12. *)
Lemma pnet_features_small (n H W : Z) :
  H < 12 \/ W < 12 ->
  sequential_shape PNet.features_layers (n, 3, H, W) = None.
Proof.
  intros Hsmall. unfold PNet.features_layers.
  repeat layer_step; first [ reflexivity | exfalso; dlia ].
Qed.

End PNetRefuses.

(** X3.  [PNet.forward] raises for an input that has not three channels
    or has a side below 12: the first convolution refuses the channels,
    or a convolution or the pooling an image smaller than its window. *)
Theorem PNet_forward_refuses (is_train : bool) (n c H W : Z) :
  c <> 3%Z \/ (H < 12)%Z \/ (W < 12)%Z ->
  PNet.forward_shape is_train (n, c, H, W) = None.
Proof.
  intros Hbad. unfold PNet.forward_shape.
  destruct (Z.eq_dec c 3) as [-> | Hc].
  - rewrite pnet_features_small; [reflexivity|]. lia.
  - unfold PNet.features_layers.
    rewrite sequential_shape_unfold, conv2d_channels by assumption.
    reflexivity.
Qed.

(** An image of 11 x 40 pixels. *)
Lemma PNet_forward_refuses_witness :
  PNet.forward_shape false (1, 3, 11, 40)%Z = None.
Proof.
  apply (PNet_forward_refuses false 1 3 11 40). right. left. lia.
Defined.

(** ** modules.py: what the softmax keeps of the scores *)

Section SoftmaxOrder.
Import Torch.

Lemma softmax_pair (a b : R) :
  softmax [a; b] = [exp a / (exp a + exp b); exp b / (exp a + exp b)].
Proof.
  unfold softmax, sum. simpl. now rewrite Rplus_0_r.
Qed.

Lemma softmax_pair_half (a b : R) :
  1 / 2 < exp b / (exp a + exp b) <-> a < b.
Proof.
  pose proof (exp_pos a) as Ha. pose proof (exp_pos b) as Hb.
  assert (Hs : 0 < exp a + exp b) by lra.
  assert (E : exp b / (exp a + exp b) * (exp a + exp b) = exp b)
    by (field; lra).
  split.
  - intros Hq. apply exp_lt_inv.
    apply (Rmult_lt_compat_r (exp a + exp b)) in Hq; [|assumption].
    rewrite E in Hq. lra.
  - intros Hab. apply exp_increasing in Hab.
    apply (Rmult_lt_reg_r (exp a + exp b)); [assumption|].
    rewrite E. lra.
Qed.

(** The score of the second class (the face) is above 1/2 exactly when
    its raw score is above that of the first class. *)
Lemma softmax_keeps_order (scores : list (list R)) :
  Forall2
    (fun raw out =>
       forall a b, raw = [a; b] ->
         exists p q, out = [p; q] /\ (1 / 2 < q <-> a < b))
    scores (map softmax scores).
Proof.
  induction scores as [|v scores IH]; simpl; constructor; [|assumption].
  intros a b ->. rewrite softmax_pair. do 2 eexists. split; [reflexivity|].
  apply softmax_pair_half.
Qed.

End SoftmaxOrder.

(** X4.  In inference mode ([is_train = False]) the face probability
    that [PNet], [RNet] and [ONet] return for a pair of raw scores is
    above 1/2 exactly when the raw face score is above the raw non-face
    score: the softmax keeps the decision of the last layer. *)
Theorem MTCNN_forward_keeps_decision {X F O L : Type}
    (pnet : PNet.t X F O) (rnet : RNet.t X F O) (onet : ONet.t X F O L)
    (train_landmarks : bool) (xp xr xo : X) :
  PNet.is_train pnet = false ->
  RNet.is_train rnet = false ->
  ONet.is_train onet = false ->
  Forall2
    (fun raw out =>
       forall a b, raw = [a; b] ->
         exists p q, out = [p; q] /\ (1 / 2 < q <-> a < b))
    (PNet.conv4_1 pnet (PNet.features pnet xp))
    (fst (PNet.forward pnet xp)) /\
  Forall2
    (fun raw out =>
       forall a b, raw = [a; b] ->
         exists p q, out = [p; q] /\ (1 / 2 < q <-> a < b))
    (RNet.conv5_1 rnet (RNet.features rnet xr))
    (fst (RNet.forward rnet xr)) /\
  Forall2
    (fun raw out =>
       forall a b, raw = [a; b] ->
         exists p q, out = [p; q] /\ (1 / 2 < q <-> a < b))
    (ONet.conv6_1 onet (ONet.features onet xo))
    (fst (fst (ONet.forward train_landmarks onet xo))).
Proof.
  intros Hp Hr Ho. unfold PNet.forward, RNet.forward, ONet.forward.
  rewrite Hp, Hr, Ho. destruct train_landmarks; simpl;
    repeat split; apply softmax_keeps_order.
Qed.

(** Three networks in inference mode with the raw scores (0, 1) at one
    location. *)
Lemma MTCNN_forward_keeps_decision_witness :
  Forall2
    (fun raw out =>
       forall a b, raw = [a; b] ->
         exists p q, out = [p; q] /\ (1 / 2 < q <-> a < b))
    [[0; 1]]
    (fst (PNet.forward
            (PNet.mk false (fun x : unit => x) (fun _ => [[0; 1]])
               (fun _ => tt)) tt)) /\
  Forall2
    (fun raw out =>
       forall a b, raw = [a; b] ->
         exists p q, out = [p; q] /\ (1 / 2 < q <-> a < b))
    [[0; 1]]
    (fst (RNet.forward
            (RNet.mk false (fun x : unit => x) (fun _ => [[0; 1]])
               (fun _ => tt)) tt)) /\
  Forall2
    (fun raw out =>
       forall a b, raw = [a; b] ->
         exists p q, out = [p; q] /\ (1 / 2 < q <-> a < b))
    [[0; 1]]
    (fst (fst (ONet.forward false
                 (ONet.mk false (fun x : unit => x) (fun _ => [[0; 1]])
                    (fun _ => tt) (fun _ => tt)) tt))).
Proof.
  apply (MTCNN_forward_keeps_decision
           (PNet.mk false (fun x : unit => x) (fun _ => [[0; 1]])
              (fun _ => tt))
           (RNet.mk false (fun x : unit => x) (fun _ => [[0; 1]])
              (fun _ => tt))
           (ONet.mk false (fun x : unit => x) (fun _ => [[0; 1]])
              (fun _ => tt) (fun _ => tt))
           false tt tt tt); reflexivity.
Defined.

(** ** loss.py: [FocalLoss], the three reductions *)

Section FocalLossReductions.
Import Torch.

Lemma paper_elems (self : FocalLoss.t) (logits targets : list R) :
  FocalLoss.binary targets ->
  map2 (FocalLoss.paper_elem (FocalLoss.alpha self) (FocalLoss.gamma self))
    logits targets
  = map2 Rmult (map2 (FocalLoss.weight self) logits targets)
      (map2 bce_with_logits logits targets).
Proof.
  intros Hbin. revert logits.
  induction Hbin as [|tg targets Htg _ IH]; intros [|x logits];
    try reflexivity.
  simpl. rewrite IH. f_equal. symmetry.
  now apply FocalLoss_weight_paper.
Qed.

Lemma sum_products_le (w c : list R) :
  Forall (fun x => 0 <= x) w -> Forall (fun x => 0 <= x) c ->
  0 <= sum (map2 Rmult w c) <= sum w * sum c.
Proof.
  intros Hw. revert c.
  induction Hw as [|a w Ha Hw IH]; intros c Hc.
  - simpl map2. change (sum []) with 0. lra.
  - destruct Hc as [|p c Hp Hc].
    + simpl map2. change (sum []) with 0. lra.
    + simpl map2. rewrite !sum_cons.
      specialize (IH c Hc).
      pose proof (sum_nonneg w Hw). pose proof (sum_nonneg c Hc).
      assert (0 <= a * p) by (now apply Rmult_le_pos).
      assert (0 <= a * sum c) by (now apply Rmult_le_pos).
      assert (0 <= sum w * p) by (now apply Rmult_le_pos).
      nra.
Qed.

Lemma weights_nonneg (self : FocalLoss.t) (logits targets : list R) :
  0 <= FocalLoss.alpha self <= 1 -> FocalLoss.binary targets ->
  Forall (fun x => 0 <= x) (map2 (FocalLoss.weight self) logits targets).
Proof.
  intros Ha Hbin. revert logits.
  induction Hbin as [|tg targets Htg _ IH]; intros [|x logits]; simpl;
    constructor.
  - now apply FocalLoss_weight_nonneg.
  - apply IH.
Qed.

Lemma bces_nonneg (logits targets : list R) :
  FocalLoss.binary targets ->
  Forall (fun x => 0 <= x) (map2 bce_with_logits logits targets).
Proof.
  intros Hbin. revert logits.
  induction Hbin as [|tg targets Htg _ IH]; intros [|x logits]; simpl;
    constructor.
  - now apply bce_with_logits_nonneg.
  - apply IH.
Qed.

End FocalLossReductions.

(** X5.  With [reduction='none'] the loss is the focal loss of the
    paper: on binary targets of the size of the logits, [forward]
    returns the mean over the elements of
    [alpha_t * (1 - p_t)^gamma * ce_t]. *)
Theorem FocalLoss_forward_none_paper (self : FocalLoss.t)
    (logits targets : list R) :
  length targets = length logits ->
  FocalLoss.binary targets ->
  FocalLoss.reduction self = Torch.none ->
  FocalLoss.forward self logits targets
  = Torch.Ok (FocalLoss.paper_mean (FocalLoss.alpha self)
                (FocalLoss.gamma self) logits targets).
Proof.
  intros Hlen Hbin Hred. rewrite FocalLoss_forward_eq by assumption.
  rewrite Hred. simpl. unfold FocalLoss.paper_mean.
  now rewrite paper_elems.
Qed.

Lemma FocalLoss_forward_none_paper_witness :
  FocalLoss.forward (FocalLoss.mk Torch.none (25 / 100) 2) [0; 0] [1; 0]
  = Torch.Ok (FocalLoss.paper_mean (25 / 100) 2 [0; 0] [1; 0]).
Proof.
  apply (FocalLoss_forward_none_paper
           (FocalLoss.mk Torch.none (25 / 100) 2) [0; 0] [1; 0]).
  - reflexivity.
  - constructor; [now right|]. constructor; [now left|]. constructor.
  - reflexivity.
Defined.

(** X6.  With the default [reduction='sum'], on binary targets of the
    size of the logits and a weight [alpha] between 0 and 1, the value
    that [forward] returns is never below the focal loss of the paper,
    which is not negative. *)
Theorem FocalLoss_forward_sum_above_paper (self : FocalLoss.t)
    (logits targets : list R) :
  length targets = length logits ->
  FocalLoss.binary targets ->
  0 <= FocalLoss.alpha self <= 1 ->
  FocalLoss.reduction self = Torch.sum_ ->
  exists r : R,
    FocalLoss.forward self logits targets = Torch.Ok r /\
    0 <= FocalLoss.paper_mean (FocalLoss.alpha self) (FocalLoss.gamma self)
           logits targets
      <= r.
Proof.
  intros Hlen Hbin Ha Hred. eexists. split.
  - now apply FocalLoss_forward_sum.
  - unfold FocalLoss.paper_mean, Torch.mean.
    rewrite paper_elems by assumption.
    rewrite !map2_length by (rewrite ?map2_length; congruence).
    pose proof (sum_products_le _ _ (weights_nonneg self logits targets Ha Hbin)
                  (bces_nonneg logits targets Hbin)) as [H0 H1].
    pose proof (inv_INR_nonneg (length logits)) as Hn.
    unfold Rdiv. split.
    + now apply Rmult_le_pos.
    + now apply Rmult_le_compat_r.
Qed.

Lemma FocalLoss_forward_sum_above_paper_witness :
  exists r : R,
    FocalLoss.forward FocalLoss.default [0; 0] [1; 0] = Torch.Ok r /\
    0 <= FocalLoss.paper_mean (FocalLoss.alpha FocalLoss.default)
           (FocalLoss.gamma FocalLoss.default) [0; 0] [1; 0]
      <= r.
Proof.
  apply (FocalLoss_forward_sum_above_paper FocalLoss.default [0; 0] [1; 0]).
  - reflexivity.
  - constructor; [now right|]. constructor; [now left|]. constructor.
  - simpl. split; lra.
  - reflexivity.
Defined.

(** X7.  On tensors of the same size, [reduction='mean'] gives the value
    of [reduction='sum'] divided by the number of elements. *)
Theorem FocalLoss_forward_mean_of_sum (a : R) (g : nat)
    (logits targets : list R) :
  length targets = length logits ->
  exists r : R,
    FocalLoss.forward (FocalLoss.mk Torch.sum_ a g) logits targets
    = Torch.Ok r /\
    FocalLoss.forward (FocalLoss.mk Torch.mean_ a g) logits targets
    = Torch.Ok (r / INR (length logits)).
Proof.
  intros Hlen. eexists. split.
  - apply FocalLoss_forward_sum; [assumption | reflexivity].
  - rewrite FocalLoss_forward_eq by assumption. f_equal.
    simpl Torch.reduce. simpl Torch.mul_broadcast. unfold Torch.mean.
    rewrite sum_map_scale, length_map.
    rewrite !map2_length by congruence.
    unfold FocalLoss.weight. cbn [FocalLoss.alpha FocalLoss.gamma].
    unfold Rdiv. ring.
Qed.

Lemma FocalLoss_forward_mean_of_sum_witness :
  exists r : R,
    FocalLoss.forward (FocalLoss.mk Torch.sum_ (25 / 100) 2) [0; 0] [1; 0]
    = Torch.Ok r /\
    FocalLoss.forward (FocalLoss.mk Torch.mean_ (25 / 100) 2) [0; 0] [1; 0]
    = Torch.Ok (r / INR (length [0; 0])).
Proof.
  apply (FocalLoss_forward_mean_of_sum (25 / 100) 2 [0; 0] [1; 0]).
  reflexivity.
Defined.

(** ** loss.py: [OHEM], batches without positive anchors and the balance
    of negatives *)

Section OHEMEdge.
Import Torch.

Lemma count_true_none {X : Type} (f : X -> bool) (row : list X) :
  Forall (fun x => f x = false) row -> count_true (map f row) = 0%Z.
Proof.
  unfold count_true. induction 1 as [|x row Hx _ IH]; [reflexivity|].
  simpl. rewrite Hx. exact IH.
Qed.

Lemma select_row_none {X : Type} (mask : list bool) (row : list X) :
  Forall (fun b => b = false) mask -> select_row mask row = [].
Proof.
  intros Hmask. revert row.
  induction Hmask as [|b mask Hb _ IH]; intros [|x row]; try reflexivity.
  rewrite select_row_cons, Hb. apply IH.
Qed.

Lemma masked_select_all_false {X : Type} (mask : list (list bool))
    (t : list (list X)) :
  Forall (Forall (fun b => b = false)) mask -> masked_select mask t = [].
Proof.
  unfold masked_select. intros Hmask. revert t.
  induction Hmask as [|m mask Hm _ IH]; intros [|row t]; try reflexivity.
  simpl. now rewrite IH, select_row_none.
Qed.

Lemma keep_all_false (self : OHEM.t) (srt : sorter) (z : Z)
    (pl : list (list (list R))) (tg : list (list Z)) :
  Forall (Forall (fun l => l <> 1%Z)) tg ->
  Forall (Forall (fun b => b = false))
    (map2 (map2 orb) (OHEM.pos_boxes_mask tg)
       (map2 (OHEM.row_neg_mask self srt z) pl tg)).
Proof.
  intros Hnone. revert pl.
  induction Hnone as [|tr tg Hrow _ IH]; intros [|lr pl]; simpl;
    constructor; [|apply IH].
  assert (Hpos : Forall (fun l => Z.eqb l 1 = false) tr).
  { eapply Forall_impl; [|exact Hrow]. intros l Hl. now apply Z.eqb_neq. }
  unfold OHEM.row_neg_mask. rewrite (count_true_none _ tr Hpos).
  rewrite Z.mul_0_r.
  generalize (argsort_asc
                (srt (map2 (fun (m : bool) x => if m then 0 else x)
                        (map (fun l => Z.eqb l 1) tr)
                        (map2 cross_entropy lr tr)))) as ranks.
  clear Hrow. induction Hpos as [|l tr' Hl _ IHp]; intros [|r ranks];
    simpl; constructor.
  - rewrite Hl. simpl. apply Z.ltb_ge. lia.
  - apply IHp.
Qed.

End OHEMEdge.

(** X8.  For logits of shape (B, A, C) with at least one batch row and
    one anchor, [C = num_classes >= 1] and class targets of shape (B, A)
    with values from 0 to C - 1, when no
    target is 1 (a batch without a positive anchor) [OHEM.forward]
    returns 0: no negative is taken either, since [num_neg] is
    [neg_pos_ratio] times the number of positives.  This holds for every
    [neg_pos_ratio] and every order of the sort. *)
Theorem OHEM_forward_without_positives (self : OHEM.t) (srt : Torch.sorter)
    (A C : nat) (pred_logits : list (list (list R)))
    (targets : list (list Z)) :
  OHEM.well_shaped A C pred_logits targets ->
  pred_logits <> [] ->
  (1 <= A)%nat ->
  (1 <= C)%nat ->
  OHEM.num_classes self = C ->
  Forall (Forall (fun l => l <> 1%Z)) targets ->
  OHEM.forward self srt pred_logits targets = 0.
Proof.
  intros _ _ _ _ _ Hnone. unfold OHEM.forward. rewrite neg_boxes_mask_rows.
  rewrite !masked_select_all_false by (now apply keep_all_false).
  unfold Torch.sum, Rdiv. simpl. apply Rmult_0_l.
Qed.

(** Two background anchors. *)
Lemma OHEM_forward_without_positives_witness :
  OHEM.forward OHEM.example Torch.insertion_sorter [[[0; 0]; [1; 0]]]
    [[0; 0]%Z] = 0.
Proof.
  apply (OHEM_forward_without_positives OHEM.example Torch.insertion_sorter
           2 2 [[[0; 0]; [1; 0]]] [[0; 0]%Z]).
  - repeat constructor; lia.
  - discriminate.
  - lia.
  - lia.
  - reflexivity.
  - repeat constructor; discriminate.
Defined.

(** X9.  The balance that the hard-negative mining keeps: for logits of
    shape (B, A, C) with at least two classes, class targets of shape
    (B, A) and a ratio that is not negative, the negatives that enter
    the loss of a row are at most [neg_pos_ratio] times the positives of
    the row, and at most [A - 1]. *)
Theorem OHEM_forward_balance (self : OHEM.t) (srt : Torch.sorter)
    (A C : nat) (pred_logits : list (list (list R)))
    (targets : list (list Z)) (i : nat) (lr : list (list R))
    (tr : list Z) :
  Torch.sorts_descending srt ->
  (2 <= C)%nat ->
  (0 <= OHEM.neg_pos_ratio self)%Z ->
  OHEM.well_shaped A C pred_logits targets ->
  nth_error pred_logits i = Some lr ->
  nth_error targets i = Some tr ->
  exists hard : list bool,
    nth_error (OHEM.hard_negative_mask self srt pred_logits targets) i
    = Some hard /\
    (Z.of_nat (length (OHEM.indices hard))
     <= OHEM.neg_pos_ratio self
        * Torch.count_true (map (fun l => Z.eqb l 1) tr))%Z /\
    (length (OHEM.indices hard) <= A - 1)%nat.
Proof.
  intros Hsrt HC Hratio Hws Hl Ht.
  eexists. split; [exact (hard_negative_mask_row self srt i _ _ lr tr Hl Ht)|].
  rewrite (well_shaped_size1 A C i pred_logits targets tr Hws Ht).
  destruct (well_shaped_row A C i _ _ lr tr Hws Hl Ht)
    as (Hlr & Htr & Hvec & Hcls).
  destruct (OHEM_row_selection self srt Hsrt A C lr tr Hlr Htr Hvec Hcls HC)
    as (Hlen & Hin & _).
  rewrite Hlen. unfold OHEM.num_neg.
  assert (Hcount : (0 <= Torch.count_true (map (fun l => Z.eqb l 1) tr))%Z).
  { rewrite count_true_filter. lia. }
  assert (Hnp : (OHEM.non_positives tr <= A)%nat).
  { unfold OHEM.non_positives. rewrite <- Htr. apply filter_length_le. }
  split; lia.
Qed.

Lemma OHEM_forward_balance_witness :
  exists hard : list bool,
    nth_error (OHEM.hard_negative_mask OHEM.example Torch.insertion_sorter
                 OHEM.example_logits OHEM.example_targets) 0
    = Some hard /\
    (Z.of_nat (length (OHEM.indices hard))
     <= OHEM.neg_pos_ratio OHEM.example
        * Torch.count_true (map (fun l => Z.eqb l 1) [1; 1; 0]%Z))%Z /\
    (length (OHEM.indices hard) <= 3 - 1)%nat.
Proof.
  apply (OHEM_forward_balance OHEM.example Torch.insertion_sorter 3 2
           OHEM.example_logits OHEM.example_targets 0
           [[0; 0]; [0; 0]; [0; 0]] [1; 1; 0]%Z).
  - exact insertion_sorter_sorts.
  - lia.
  - simpl. lia.
  - exact OHEM_example_well_shaped.
  - reflexivity.
  - reflexivity.
Defined.

(** ** loss.py: [OHEM] does not depend on the order of equal losses *)

Section SortedUnique.
Import Torch.

Lemma sum_perm (l l' : list R) : Permutation l l' -> sum l = sum l'.
Proof.
  induction 1 as [|a l l' _ IH|a b l|l l' l'' _ IH1 _ IH2].
  - reflexivity.
  - rewrite !sum_cons, IH. reflexivity.
  - rewrite !sum_cons. lra.
  - congruence.
Qed.

(** Two falling arrangements of the same values are the same list. *)
Lemma sorted_perm_unique (l l' : list R) :
  StronglySorted Rge l -> StronglySorted Rge l' -> Permutation l l' ->
  l = l'.
Proof.
  intros Hl. revert l'.
  induction Hl as [|a l Hl IH Ha]; intros l' Hl' Hp.
  - now apply Permutation_nil in Hp.
  - destruct Hl' as [|a' l' Hl' Ha'].
    + apply Permutation_sym, Permutation_nil in Hp. discriminate.
    + assert (a = a') as <-.
      { rewrite Forall_forall in Ha, Ha'.
        assert (Hin' : In a' (a :: l))
          by (eapply Permutation_in;
              [apply Permutation_sym, Hp | now left]).
        assert (Hin : In a (a' :: l'))
          by (eapply Permutation_in; [exact Hp | now left]).
        destruct Hin' as [-> | Hin']; [reflexivity|].
        destruct Hin as [-> | Hin]; [reflexivity|].
        apply Rge_antisym; auto. }
      f_equal. apply IH; [assumption|].
      now apply Permutation_cons_inv in Hp.
Qed.

Lemma indices_cons (b : bool) (mask : list bool) :
  OHEM.indices (b :: mask)
  = (if b then [0%nat] else []) ++ map S (OHEM.indices mask).
Proof.
  unfold OHEM.indices. simpl length. rewrite <- cons_seq, <- seq_shift.
  simpl filter. rewrite filter_map_swap. now destruct b.
Qed.

Lemma select_row_indices {X : Type} (d : X) (mask : list bool)
    (row : list X) :
  length mask = length row ->
  select_row mask row = map (fun m => nth m row d) (OHEM.indices mask).
Proof.
  revert row. induction mask as [|b mask IH]; intros [|x row] Hlen;
    try discriminate; [reflexivity|].
  injection Hlen as Hlen.
  rewrite select_row_cons, indices_cons, map_app, map_map, (IH row Hlen).
  now destruct b.
Qed.

Lemma map2_map {X Y Z' W : Type} (f : Y -> Z' -> W) (g : X -> Y)
    (h : X -> Z') (l : list X) :
  map2 f (map g l) (map h l) = map (fun x => f (g x) (h x)) l.
Proof. induction l as [|x l IH]; simpl; congruence. Qed.

End SortedUnique.

Section SelectionSum.
Import Torch.

Variables (n : nat) (val : nat -> R) (isneg : nat -> bool) (p : list nat).
Variable k : nat.
Hypothesis Hp : Permutation p (seq 0 n).
Hypothesis Hs : StronglySorted Rge (map val p).
Hypothesis Hpos : forall m, (m < n)%nat -> isneg m = true -> 0 < val m.
Hypothesis Hzero : forall m, (m < n)%nat -> isneg m = false -> val m = 0.

(** The values of the anchors selected add up to the first values of the
    sorted row. *)
Lemma selected_sum :
  sum (map val
         (filter (fun m => Nat.ltb (nth m (argsort_asc p) 0%nat) k
                           && isneg m) (seq 0 n)))
  = sum (firstn (Nat.min k (length (filter isneg (seq 0 n)))) (map val p)).
Proof.
  destruct (p_split n val isneg p Hp Hs Hpos Hzero)
    as (l1 & l2 & Hsplit & H1 & H2).
  pose proof (p_NoDup n p Hp) as Hnd. rewrite Hsplit in Hnd.
  assert (Hnd1 : NoDup l1) by (now apply NoDup_app_remove_r in Hnd).
  rewrite (sum_perm _ (map val (firstn k l1))).
  - assert (Hall : Permutation l1 (filter isneg (seq 0 n))).
    { apply NoDup_Permutation;
        [assumption | apply NoDup_filter, seq_NoDup |].
      intros x. rewrite filter_In, in_seq.
      rewrite Forall_forall in H1, H2. split.
      - intros Hx. split; [|now apply H1].
        assert ((x < n)%nat)
          by (apply (p_in n p Hp); rewrite Hsplit; apply in_or_app;
              now left).
        lia.
      - intros [Hx Hneg].
        assert (Hin : In x p) by (apply (p_in n p Hp); lia).
        rewrite Hsplit in Hin. apply in_app_or in Hin.
        destruct Hin as [Hin | Hin]; [assumption|].
        apply H2 in Hin. congruence. }
    rewrite <- (Permutation_length Hall), firstn_map. do 2 f_equal.
    rewrite Hsplit, firstn_app.
    replace (Nat.min k (length l1) - length l1)%nat with 0%nat by lia.
    rewrite firstn_O, app_nil_r.
    destruct (Nat.le_gt_cases k (length l1)) as [Hk | Hk].
    + now rewrite Nat.min_l.
    + rewrite Nat.min_r by lia.
      now rewrite firstn_all, firstn_all2 by lia.
  - apply Permutation_map, NoDup_Permutation.
    + apply NoDup_filter, seq_NoDup.
    + now apply NoDup_firstn_of.
    + now apply (selected_in n isneg p k Hp l1 l2).
Qed.

End SelectionSum.

Section OHEMRowSum.
Import Torch.

Variables (self : OHEM.t) (A C : nat) (lr : list (list R)) (tr : list Z).
Hypothesis Hlr : length lr = A.
Hypothesis Htr : length tr = A.
Hypothesis Hvec : Forall (fun x => length x = C) lr.
Hypothesis Hcls : Forall (fun l => (0 <= l < Z.of_nat C)%Z) tr.
Hypothesis HC : (2 <= C)%nat.

Local Abbreviation pos := (map (fun l => Z.eqb l 1) tr).
Local Abbreviation v :=
  (map2 (fun (m : bool) x => if m then 0 else x) pos
     (map2 cross_entropy lr tr)).
Local Abbreviation hard_of srt :=
  (OHEM.hard_row pos (OHEM.row_neg_mask self srt (Z.of_nat A) lr tr)).

(** The cross-entropy of the negatives of a row that enter the loss is
    the sum of the first [min(num_neg, non-positives)] values of the
    sorted row. *)
Lemma row_hard_sum (srt : sorter) :
  sorts_descending srt ->
  sum (map2 cross_entropy (select_row (hard_of srt) lr)
         (select_row (hard_of srt) tr))
  = sum (firstn (Nat.min (Z.to_nat (OHEM.num_neg self A tr))
                   (OHEM.non_positives tr))
           (map (fun i => nth i v 0) (srt v))).
Proof.
  intros Hsrt.
  pose proof (row_hard_length self srt Hsrt A lr tr Hlr Htr) as Hhl.
  rewrite (select_row_indices [] (hard_of srt) lr) by congruence.
  rewrite (select_row_indices 0%Z (hard_of srt) tr) by congruence.
  rewrite map2_map.
  destruct (Hsrt v) as [Hperm Hsorted].
  rewrite (row_v_length A lr tr Hlr Htr) in Hperm.
  assert (Hpos : forall m, (m < A)%nat ->
            negb (Z.eqb (nth m tr 0%Z) 1) = true -> 0 < nth m v 0).
  { intros m Hm Hneg. rewrite (row_v_nth A C lr tr Hlr Htr HC) by assumption.
    apply negb_true_iff in Hneg. rewrite Hneg.
    now apply (row_loss_pos A C lr tr). }
  assert (Hzero : forall m, (m < A)%nat ->
            negb (Z.eqb (nth m tr 0%Z) 1) = false -> nth m v 0 = 0).
  { intros m Hm Hneg. rewrite (row_v_nth A C lr tr Hlr Htr HC) by assumption.
    apply negb_false_iff in Hneg. now rewrite Hneg. }
  rewrite (map_ext_in _ (fun m => nth m v 0)).
  - rewrite (row_indices_eq self srt Hsrt A C lr tr Hlr Htr HC).
    rewrite (selected_sum A (fun m => nth m v 0)
               (fun m => negb (Z.eqb (nth m tr 0%Z) 1)) (srt v)
               (Z.to_nat (OHEM.num_neg self A tr)) Hperm Hsorted Hpos Hzero).
    do 3 f_equal. unfold OHEM.non_positives. rewrite <- Htr.
    apply (filter_seq_length (fun l => negb (Z.eqb l 1)) 0%Z tr).
  - intros m Hm.
    rewrite (row_indices_eq self srt Hsrt A C lr tr Hlr Htr HC) in Hm.
    apply filter_In in Hm. destruct Hm as [Hm Hb].
    apply in_seq in Hm. apply andb_true_iff in Hb. destruct Hb as [_ Hb].
    apply negb_true_iff in Hb.
    rewrite (row_v_nth A C lr tr Hlr Htr HC) by lia. now rewrite Hb.
Qed.

Lemma sorted_values_unique (srt1 srt2 : sorter) :
  sorts_descending srt1 -> sorts_descending srt2 ->
  map (fun i => nth i v 0) (srt1 v) = map (fun i => nth i v 0) (srt2 v).
Proof.
  intros H1 H2.
  destruct (H1 v) as [Hp1 Hs1]. destruct (H2 v) as [Hp2 Hs2].
  apply sorted_perm_unique; try assumption.
  apply Permutation_map.
  eapply perm_trans; [exact Hp1 | apply Permutation_sym, Hp2].
Qed.

Lemma row_hard_sum_any (srt1 srt2 : sorter) :
  sorts_descending srt1 -> sorts_descending srt2 ->
  sum (map2 cross_entropy (select_row (hard_of srt1) lr)
         (select_row (hard_of srt1) tr))
  = sum (map2 cross_entropy (select_row (hard_of srt2) lr)
           (select_row (hard_of srt2) tr)).
Proof.
  intros H1 H2. rewrite !row_hard_sum by assumption.
  now rewrite (sorted_values_unique srt1 srt2).
Qed.

End OHEMRowSum.

Section OHEMAnySort.
Import Torch.

Lemma batch_hard_sum_any (self : OHEM.t) (srt1 srt2 : sorter) (A C : nat)
    (pl : list (list (list R))) (tg : list (list Z)) :
  sorts_descending srt1 -> sorts_descending srt2 -> (2 <= C)%nat ->
  OHEM.well_shaped A C pl tg ->
  sum (map2 cross_entropy
         (masked_select
            (map2 OHEM.hard_row (OHEM.pos_boxes_mask tg)
               (map2 (OHEM.row_neg_mask self srt1 (Z.of_nat A)) pl tg)) pl)
         (masked_select
            (map2 OHEM.hard_row (OHEM.pos_boxes_mask tg)
               (map2 (OHEM.row_neg_mask self srt1 (Z.of_nat A)) pl tg)) tg))
  = sum (map2 cross_entropy
           (masked_select
              (map2 OHEM.hard_row (OHEM.pos_boxes_mask tg)
                 (map2 (OHEM.row_neg_mask self srt2 (Z.of_nat A)) pl tg)) pl)
           (masked_select
              (map2 OHEM.hard_row (OHEM.pos_boxes_mask tg)
                 (map2 (OHEM.row_neg_mask self srt2 (Z.of_nat A)) pl tg))
              tg)).
Proof.
  intros H1 H2 HC Hws. unfold masked_select, OHEM.pos_boxes_mask.
  induction Hws as [|lr tr pl tg (Hlr & Htr & Hvec & Hcls) _ IH];
    [reflexivity|].
  simpl. rewrite !map2_app by (apply select_row_length; congruence).
  rewrite !sum_app, IH.
  now rewrite (row_hard_sum_any self A C lr tr Hlr Htr Hvec Hcls HC
                 srt1 srt2 H1 H2).
Qed.

End OHEMAnySort.

Section ReverseSorter.
Import Torch.

Lemma fold_insert_perm (le : nat -> nat -> bool) (l : list nat) :
  Permutation (fold_right (insert_by le) [] l) l.
Proof.
  induction l as [|i l IH]; simpl; [apply perm_nil|].
  eapply perm_trans; [apply insert_by_perm|]. now apply perm_skip.
Qed.

Lemma fold_insert_sorted (le : nat -> nat -> bool) (l : list nat) :
  (forall i j, le i j = false -> le j i = true) ->
  (forall i j k, le i j = true -> le j k = true -> le i k = true) ->
  StronglySorted (fun i j => le i j = true)
    (fold_right (insert_by le) [] l).
Proof.
  intros Htotal Htrans. induction l as [|i l IH]; simpl; [constructor|].
  now apply insert_by_sorted.
Qed.

Lemma reverse_sorter_sorts : sorts_descending Sorters.reverse_sorter.
Proof.
  intros v. unfold Sorters.reverse_sorter. split.
  - eapply perm_trans; [apply fold_insert_perm|].
    apply Permutation_sym, Permutation_rev.
  - apply StronglySorted_map.
    eapply StronglySorted_weaken; [|apply fold_insert_sorted].
    + intros x y Hxy. cbv beta in Hxy.
      destruct (Rle_dec (nth y v 0) (nth x v 0)); [lra | discriminate].
    + intros i j Hij.
      destruct (Rle_dec (nth j v 0) (nth i v 0)); [discriminate|].
      destruct (Rle_dec (nth i v 0) (nth j v 0)); [reflexivity | lra].
    + intros i j k Hij Hjk.
      destruct (Rle_dec (nth j v 0) (nth i v 0)); [|discriminate].
      destruct (Rle_dec (nth k v 0) (nth j v 0)); [|discriminate].
      destruct (Rle_dec (nth k v 0) (nth i v 0)); [reflexivity | lra].
Qed.

End ReverseSorter.

(** X10.  The value of [OHEM.forward] does not depend on the order in
    which the sort returns equal losses: for logits of shape (B, A, C)
    with at least two classes and class targets of shape (B, A), any two
    sorts that sort give the same loss. *)
Theorem OHEM_forward_any_sort (self : OHEM.t) (srt1 srt2 : Torch.sorter)
    (A C : nat) (pred_logits : list (list (list R)))
    (targets : list (list Z)) :
  Torch.sorts_descending srt1 ->
  Torch.sorts_descending srt2 ->
  (2 <= C)%nat ->
  OHEM.well_shaped A C pred_logits targets ->
  OHEM.forward self srt1 pred_logits targets
  = OHEM.forward self srt2 pred_logits targets.
Proof.
  intros H1 H2 HC Hws.
  pose proof (well_shaped_lengths A C _ _ Hws) as Hlen.
  rewrite !OHEM_forward_value by assumption.
  f_equal. f_equal. unfold OHEM.hard_negative_mask.
  rewrite !neg_boxes_mask_rows.
  destruct targets as [|tr targets].
  - inversion Hws; subst. reflexivity.
  - rewrite (well_shaped_size1 A C 0 pred_logits (tr :: targets) tr Hws
               eq_refl).
    now apply batch_hard_sum_any with C.
Qed.

(** The example batch, where the two positive anchors tie: sorted by
    insertion from the first and from the last index. *)
Lemma OHEM_forward_any_sort_witness :
  OHEM.forward OHEM.example Torch.insertion_sorter OHEM.example_logits
    OHEM.example_targets
  = OHEM.forward OHEM.example Sorters.reverse_sorter OHEM.example_logits
      OHEM.example_targets.
Proof.
  apply (OHEM_forward_any_sort OHEM.example Torch.insertion_sorter
           Sorters.reverse_sorter 3 2 OHEM.example_logits
           OHEM.example_targets).
  - exact insertion_sorter_sorts.
  - exact reverse_sorter_sorts.
  - lia.
  - exact OHEM_example_well_shaped.
Defined.

(** ** loss.py: [MultiBoxLoss], the labels of the classification loss *)

Section RelabelFacts.
Import Torch.

(** Line 141 in closed form: background stays 0, every other label
    becomes 1. *)
Lemma relabel_map (labels : list (list Z)) :
  MultiBoxLoss.relabel labels
  = map (map (fun l => if Z.eqb l 0 then 0%Z else 1%Z)) labels.
Proof.
  unfold MultiBoxLoss.relabel, MultiBoxLoss.pos_boxes_mask, masked_fill.
  induction labels as [|row labels IH]; [reflexivity|].
  simpl. rewrite IH. f_equal.
  induction row as [|l row IHrow]; [reflexivity|].
  simpl. rewrite IHrow. destruct (Z.eqb_spec l 0); subst; reflexivity.
Qed.

Lemma relabel_binary (labels : list (list Z)) :
  Forall (Forall (fun l => l = 0%Z \/ l = 1%Z)) (MultiBoxLoss.relabel labels).
Proof.
  rewrite relabel_map. rewrite Forall_map. apply Forall_forall.
  intros row _. rewrite Forall_map. apply Forall_forall. intros l _.
  destruct (Z.eqb l 0); auto.
Qed.

Lemma relabel_positives (labels : list (list Z)) :
  OHEM.pos_boxes_mask (MultiBoxLoss.relabel labels)
  = MultiBoxLoss.pos_boxes_mask labels.
Proof.
  rewrite relabel_map. unfold OHEM.pos_boxes_mask, MultiBoxLoss.pos_boxes_mask.
  rewrite map_map. apply map_ext. intros row. rewrite map_map.
  apply map_ext. intros l. now destruct (Z.eqb l 0).
Qed.

Lemma sumZ_cons (a : Z) (l : list Z) : sumZ (a :: l) = (a + sumZ l)%Z.
Proof. reflexivity. Qed.

Lemma count_positive_le_nonzero (row : list Z) :
  (count_true (map (fun l => Z.ltb 0 l) row)
   <= count_true (map (fun l => negb (Z.eqb l 0)) row))%Z.
Proof.
  unfold count_true. induction row as [|l row IH]; [simpl; lia|].
  rewrite !map_cons, !sumZ_cons.
  destruct (Z.ltb_spec 0 l); destruct (Z.eqb_spec l 0); cbn [negb]; lia.
Qed.

Lemma N1_le_N (labels : list (list Z)) :
  MultiBoxLoss.N1 labels <= MultiBoxLoss.N labels.
Proof.
  unfold MultiBoxLoss.N1, MultiBoxLoss.N, MultiBoxLoss.pos_ldmks_mask,
    MultiBoxLoss.pos_boxes_mask.
  apply Rle_max_compat_r. apply IZR_le.
  induction labels as [|row labels IH]; [simpl; lia|].
  rewrite !map_cons, !sumZ_cons.
  pose proof (count_positive_le_nonzero row). lia.
Qed.

End RelabelFacts.

(** X11.  The labels that the classification loss sees are 0 and 1
    only: line 141 turns every matched label other than 0, the label -1
    of a face without usable landmarks included, into 1.  So the
    positive anchors of [OHEM] are exactly the anchors of the box loss,
    and the divisor of the landmark loss is at most that of the box
    loss. *)
Theorem MultiBoxLoss_relabel_positives (labels : list (list Z)) :
  Forall (Forall (fun l => l = 0%Z \/ l = 1%Z))
    (MultiBoxLoss.relabel labels) /\
  OHEM.pos_boxes_mask (MultiBoxLoss.relabel labels)
  = MultiBoxLoss.pos_boxes_mask labels /\
  Rmax (IZR (Torch.sumZ
               (map Torch.count_true
                  (OHEM.pos_boxes_mask (MultiBoxLoss.relabel labels))))) 1
  = MultiBoxLoss.N labels /\
  MultiBoxLoss.N1 labels <= MultiBoxLoss.N labels.
Proof.
  split; [apply relabel_binary|]. split; [apply relabel_positives|].
  split; [|apply N1_le_N].
  now rewrite relabel_positives.
Qed.

(** ** loss.py: [MultiBoxLoss] with [cls_loss_type = 'FocalLoss'] *)

Section OneHotFacts.
Import Torch.

Lemma one_hot_row_length (w : nat) (l : Z) : length (one_hot_row w l) = w.
Proof. unfold one_hot_row. now rewrite length_map, length_seq. Qed.

Lemma one_hot_flat_length (w : nat) (labels : list Z) :
  length (concat (map (one_hot_row w) labels)) = (w * length labels)%nat.
Proof.
  induction labels as [|l labels IH]; simpl; [lia|].
  rewrite length_app, one_hot_row_length, IH. lia.
Qed.

Lemma max_binary (l0 : Z) (ls : list Z) :
  Forall (fun l => l = 0%Z \/ l = 1%Z) (l0 :: ls) ->
  fold_right Z.max l0 ls
  = if existsb (fun l => Z.eqb l 1) (l0 :: ls) then 1%Z else 0%Z.
Proof.
  intros Hbin. inversion Hbin as [|? ? H0 Hls]; subst. clear Hbin.
  induction Hls as [|l ls Hl _ IH].
  - simpl. destruct H0 as [-> | ->]; reflexivity.
  - simpl in *. rewrite IH.
    destruct H0 as [-> | ->]; destruct Hl as [-> | ->]; simpl;
      destruct (existsb (fun l => Z.eqb l 1) ls); reflexivity.
Qed.

Lemma no_negative_binary (labels : list Z) :
  Forall (fun l => l = 0%Z \/ l = 1%Z) labels ->
  existsb (fun l => Z.ltb l 0) labels = false.
Proof.
  induction 1 as [|l labels Hl _ IH]; [reflexivity|].
  simpl. rewrite IH. destruct Hl as [-> | ->]; reflexivity.
Qed.

(** The one-hot targets of labels that are 0 or 1: two columns when a
    label is 1, one column otherwise. *)
Lemma one_hot_binary (labels : list Z) :
  labels <> [] ->
  Forall (fun l => l = 0%Z \/ l = 1%Z) labels ->
  one_hot labels
  = Ok (if existsb (fun l => Z.eqb l 1) labels then 2%nat else 1%nat,
        concat (map (one_hot_row
                       (if existsb (fun l => Z.eqb l 1) labels
                        then 2%nat else 1%nat)) labels)).
Proof.
  intros Hne Hbin. destruct labels as [|l0 ls]; [congruence|].
  unfold one_hot. rewrite (no_negative_binary _ Hbin).
  rewrite (max_binary l0 ls Hbin).
  destruct (existsb (fun l => Z.eqb l 1) (l0 :: ls)); reflexivity.
Qed.

Lemma logits_flat_length (C : nat) (pl : list (list (list R))) :
  Forall (Forall (fun x => length x = C)) pl ->
  length (concat (concat pl)) = (C * length (concat pl))%nat.
Proof.
  induction 1 as [|row pl Hrow _ IH]; simpl; [lia|].
  rewrite concat_app, !length_app, IH.
  assert (Hr : length (concat row) = (C * length row)%nat).
  { clear IH. induction Hrow as [|x row Hx _ IHr]; simpl; [lia|].
    rewrite length_app, Hx, IHr. lia. }
  rewrite Hr. lia.
Qed.

Lemma concat_lengths {X Y : Type} (l : list (list X)) (m : list (list Y)) :
  Forall2 (fun a b => length a = length b) l m ->
  length (concat l) = length (concat m).
Proof.
  induction 1 as [|a b l m Hab _ IH]; simpl; [reflexivity|].
  rewrite !length_app. congruence.
Qed.

Lemma relabel_flat (labels : list (list Z)) :
  concat (MultiBoxLoss.relabel labels)
  = map (fun l => if Z.eqb l 0 then 0%Z else 1%Z) (concat labels).
Proof. rewrite relabel_map. now rewrite concat_map. Qed.

Lemma relabel_has_one (labels : list (list Z)) :
  existsb (fun l => Z.eqb l 1) (concat (MultiBoxLoss.relabel labels))
  = existsb (fun l => negb (Z.eqb l 0)) (concat labels).
Proof.
  rewrite relabel_flat. generalize (concat labels) as ls.
  induction ls as [|l ls IH]; [reflexivity|].
  simpl. rewrite IH. now destruct (Z.eqb l 0).
Qed.

End OneHotFacts.

(** X12.  With [cls_loss_type = 'FocalLoss'], two-class logits of shape
    (B, A, 2) and matched labels of shape (B, A): when some anchor has a
    matched label other than 0, the one-hot targets have two columns
    and [forward] returns the focal loss with the box and landmark
    losses; when all labels are 0, the one-hot targets have one column,
    the sizes differ and [forward] raises [ValueError]; when there is no
    anchor at all, [F.one_hot] raises. *)
Theorem MultiBoxLoss_forward_FocalLoss (tools : MultiBoxLoss.box_utils)
    (srt : Torch.sorter) (self : MultiBoxLoss.t)
    (pred_logits pred_boxes pred_landmarks : list (list (list R)))
    (anchor_boxes : list (list R)) (targets : list (list (list R)))
    (matched_labels : list (list Z))
    (matched_boxes matched_landmarks : list (list (list R))) :
  MultiBoxLoss.cls_loss_type self = "FocalLoss"%string ->
  MultiBoxLoss.match_atss tools (MultiBoxLoss.cfg self) targets anchor_boxes
    (MultiBoxLoss.variance self)
  = (matched_labels, matched_boxes, matched_landmarks) ->
  Forall2 (fun (lrow : list Z) (prow : list (list R)) =>
             length lrow = length prow) matched_labels pred_logits ->
  Forall (Forall (fun x : list R => length x = 2%nat)) pred_logits ->
  (existsb (fun l => negb (Z.eqb l 0)) (concat matched_labels) = true ->
   exists (target : list R) (cls_loss : R),
     Torch.one_hot (concat (MultiBoxLoss.relabel matched_labels))
     = Torch.Ok (2%nat, target) /\
     FocalLoss.forward (MultiBoxLoss.focal_loss self)
       (concat (concat pred_logits)) target = Torch.Ok cls_loss /\
     MultiBoxLoss.forward tools srt self
       (pred_logits, pred_boxes, pred_landmarks) anchor_boxes targets
     = Torch.Ok
         (cls_loss,
          MultiBoxLoss.box_loss matched_labels matched_boxes pred_boxes,
          MultiBoxLoss.landmark_loss matched_labels matched_landmarks
            pred_landmarks)) /\
  (existsb (fun l => negb (Z.eqb l 0)) (concat matched_labels) = false ->
   concat matched_labels <> [] ->
   MultiBoxLoss.forward tools srt self
     (pred_logits, pred_boxes, pred_landmarks) anchor_boxes targets
   = Torch.Raise Torch.ValueError) /\
  (concat matched_labels = [] ->
   MultiBoxLoss.forward tools srt self
     (pred_logits, pred_boxes, pred_landmarks) anchor_boxes targets
   = Torch.Raise Torch.RuntimeError).
Proof.
  intros Hty Hm Hrows Hvec.
  assert (Hbin : Forall (fun l => l = 0%Z \/ l = 1%Z)
                   (concat (MultiBoxLoss.relabel matched_labels))).
  { rewrite relabel_flat, Forall_map. apply Forall_forall. intros l _.
    destruct (Z.eqb l 0); auto. }
  assert (Hn : length (concat (MultiBoxLoss.relabel matched_labels))
               = length (concat matched_labels))
    by (now rewrite relabel_flat, length_map).
  assert (Hlogits : length (concat (concat pred_logits))
                    = (2 * length (concat matched_labels))%nat).
  { rewrite (logits_flat_length 2) by assumption.
    now rewrite (concat_lengths matched_labels pred_logits Hrows). }
  assert (Hfwd : MultiBoxLoss.forward tools srt self
                   (pred_logits, pred_boxes, pred_landmarks) anchor_boxes
                   targets
                 = (oh <- Torch.one_hot
                            (concat (MultiBoxLoss.relabel matched_labels)) ;;
                    r <- FocalLoss.forward (MultiBoxLoss.focal_loss self)
                           (concat (concat pred_logits)) (snd oh) ;;
                    Torch.Ok
                      (r,
                       MultiBoxLoss.box_loss matched_labels matched_boxes
                         pred_boxes,
                       MultiBoxLoss.landmark_loss matched_labels
                         matched_landmarks pred_landmarks))).
  { unfold MultiBoxLoss.forward, MultiBoxLoss.losses_of. rewrite Hm.
    rewrite cls_loss_of_FocalLoss by assumption.
    destruct (Torch.one_hot _) as [oh|e]; [|reflexivity]. simpl.
    destruct (FocalLoss.forward _ _ _); reflexivity. }
  rewrite Hfwd. split; [|split].
  - intros Hsome.
    assert (Hne : concat (MultiBoxLoss.relabel matched_labels) <> []).
    { intros Hnil. rewrite Hnil in Hn. symmetry in Hn.
      apply length_zero_iff_nil in Hn. rewrite Hn in Hsome. discriminate. }
    rewrite (one_hot_binary _ Hne Hbin), relabel_has_one, Hsome.
    simpl Torch.bind. cbn [snd].
    eexists. eexists. split; [reflexivity|].
    rewrite FocalLoss_forward_eq
      by (rewrite one_hot_flat_length, Hn, Hlogits; reflexivity).
    split; reflexivity.
  - intros Hnone Hne'.
    assert (Hne : concat (MultiBoxLoss.relabel matched_labels) <> []).
    { intros Hnil. rewrite Hnil in Hn. symmetry in Hn.
      now apply length_zero_iff_nil in Hn. }
    rewrite (one_hot_binary _ Hne Hbin), relabel_has_one, Hnone.
    simpl Torch.bind. cbn [snd].
    unfold FocalLoss.forward, Torch.binary_cross_entropy_with_logits.
    rewrite one_hot_flat_length, Hn, Hlogits.
    destruct (concat matched_labels) as [|l ls]; [congruence|].
    replace (Nat.eqb (1 * length (l :: ls)) (2 * length (l :: ls))) with false;
      [reflexivity|].
    symmetry. apply Nat.eqb_neq. simpl. lia.
  - intros Hnil. rewrite relabel_flat, Hnil. reflexivity.
Qed.

(** The example with the label -1 for its only anchor. *)
Lemma MultiBoxLoss_forward_FocalLoss_witness :
  (true = true ->
   exists (target : list R) (cls_loss : R),
     Torch.one_hot (concat (MultiBoxLoss.relabel [[(-1)%Z]]))
     = Torch.Ok (2%nat, target) /\
     FocalLoss.forward FocalLoss.default (concat (concat [[[0; 0]]])) target
     = Torch.Ok cls_loss /\
     MultiBoxLoss.forward MultiBoxLoss.example_tools Torch.insertion_sorter
       (MultiBoxLoss.init (MultiBoxLoss.example_config "FocalLoss"))
       ([[[0; 0]]], [[2 :: MultiBoxLoss.zeros 3]],
        [[2 :: MultiBoxLoss.zeros 9]])
       MultiBoxLoss.example_anchor_boxes MultiBoxLoss.example_targets
     = Torch.Ok
         (cls_loss,
          MultiBoxLoss.box_loss [[(-1)%Z]] [[MultiBoxLoss.zeros 4]]
            [[2 :: MultiBoxLoss.zeros 3]],
          MultiBoxLoss.landmark_loss [[(-1)%Z]] [[MultiBoxLoss.zeros 10]]
            [[2 :: MultiBoxLoss.zeros 9]])) /\
  (true = false ->
   [(-1)%Z] <> [] ->
   MultiBoxLoss.forward MultiBoxLoss.example_tools Torch.insertion_sorter
     (MultiBoxLoss.init (MultiBoxLoss.example_config "FocalLoss"))
     ([[[0; 0]]], [[2 :: MultiBoxLoss.zeros 3]],
      [[2 :: MultiBoxLoss.zeros 9]])
     MultiBoxLoss.example_anchor_boxes MultiBoxLoss.example_targets
   = Torch.Raise Torch.ValueError) /\
  ([(-1)%Z] = [] ->
   MultiBoxLoss.forward MultiBoxLoss.example_tools Torch.insertion_sorter
     (MultiBoxLoss.init (MultiBoxLoss.example_config "FocalLoss"))
     ([[[0; 0]]], [[2 :: MultiBoxLoss.zeros 3]],
      [[2 :: MultiBoxLoss.zeros 9]])
     MultiBoxLoss.example_anchor_boxes MultiBoxLoss.example_targets
   = Torch.Raise Torch.RuntimeError).
Proof.
  apply (MultiBoxLoss_forward_FocalLoss MultiBoxLoss.example_tools
           Torch.insertion_sorter
           (MultiBoxLoss.init (MultiBoxLoss.example_config "FocalLoss"))
           [[[0; 0]]] [[2 :: MultiBoxLoss.zeros 3]]
           [[2 :: MultiBoxLoss.zeros 9]]
           MultiBoxLoss.example_anchor_boxes MultiBoxLoss.example_targets
           [[(-1)%Z]] [[MultiBoxLoss.zeros 4]] [[MultiBoxLoss.zeros 10]]).
  - reflexivity.
  - reflexivity.
  - repeat constructor.
  - repeat constructor.
Defined.

(** ** anchor.py: errors and clipping of [generate_anchors] *)

Section AnchorErrors.
Import AnchorGenerator.

Lemma level_anchors_none (self : t) (k : nat) (f : Z * Z) :
  level_anchors self k f = None <-> (length (min_sizes self) <= k)%nat.
Proof.
  unfold level_anchors. rewrite <- nth_error_None.
  destruct (nth_error (min_sizes self) k); split; intros E;
    try discriminate; reflexivity.
Qed.

(** The loop fails exactly when a level has no entry in [min_sizes]. *)
Lemma levels_from_none (self : t) (fs : list (Z * Z)) :
  forall k : nat,
    (k <= length (min_sizes self))%nat ->
    (levels_from self k fs = None
     <-> (length (min_sizes self) < k + length fs)%nat).
Proof.
  induction fs as [|f fs IH]; intros k Hk0.
  - simpl. split; [discriminate | lia].
  - simpl levels_from. simpl length.
    destruct (level_anchors self k f) as [here|] eqn:Hk.
    + assert (Hlt : ~ (length (min_sizes self) <= k)%nat).
      { rewrite <- (level_anchors_none self k f), Hk. discriminate. }
      assert (Hk1 : (S k <= length (min_sizes self))%nat) by lia.
      destruct (levels_from self (S k) fs) as [rest|] eqn:Hrest.
      * assert (Hn : ~ (length (min_sizes self) < S k + length fs)%nat).
        { rewrite <- (IH _ Hk1), Hrest. discriminate. }
        split; [discriminate | lia].
      * assert (Hy : (length (min_sizes self) < S k + length fs)%nat)
          by (now apply IH).
        split; [lia | reflexivity].
    + apply level_anchors_none in Hk. split; [lia | reflexivity].
Qed.

Lemma init_none (cfg : Config) :
  init cfg = None <-> In 0%Z (MODEL_strides cfg).
Proof.
  unfold init.
  destruct (existsb (fun step => Z.eqb step 0) (MODEL_strides cfg)) eqn:E.
  - split; [intros _ | reflexivity].
    apply existsb_exists in E. destruct E as (s & Hs & Hz).
    apply Z.eqb_eq in Hz. now subst.
  - split; [discriminate|]. intros Hin.
    assert (Ht : existsb (fun step => Z.eqb step 0) (MODEL_strides cfg)
                 = true)
      by (apply existsb_exists; exists 0%Z; split; [assumption | reflexivity]).
    congruence.
Qed.

End AnchorErrors.

(** X13.  The errors of the anchor generator: [__init__] raises (the
    division by zero) exactly when a stride is 0; on a constructed
    generator [generate_anchors] raises (the [IndexError] of
    [self.min_sizes[k]]) exactly when there are fewer entries in
    [anchor_sizes] than strides, whatever the image size, the strides
    and the sizes are. *)
Theorem AnchorGenerator_generate_anchors_raises
    (cfg : AnchorGenerator.Config) :
  (AnchorGenerator.init cfg = None
   <-> In 0%Z (AnchorGenerator.MODEL_strides cfg)) /\
  (forall self : AnchorGenerator.t,
     AnchorGenerator.init cfg = Some self ->
     (AnchorGenerator.generate_anchors self = None
      <-> (length (AnchorGenerator.MODEL_anchor_sizes cfg)
           < length (AnchorGenerator.MODEL_strides cfg))%nat)).
Proof.
  split; [apply init_none|].
  intros self Hinit. unfold AnchorGenerator.init in Hinit.
  destruct (existsb _ _); [discriminate|]. injection Hinit as <-.
  unfold AnchorGenerator.generate_anchors.
  cbn [AnchorGenerator.feature_maps AnchorGenerator.clip].
  match goal with
  | |- context [AnchorGenerator.levels_from ?s 0 ?fs] =>
      pose proof (levels_from_none s fs 0%nat (Nat.le_0_l _)) as Hnone;
      destruct (AnchorGenerator.levels_from s 0 fs)
  end.
  - cbn [AnchorGenerator.min_sizes] in Hnone.
    rewrite length_map in Hnone. simpl in Hnone.
    split; [discriminate|]. intros Hlt. apply Hnone in Hlt. discriminate.
  - cbn [AnchorGenerator.min_sizes] in Hnone.
    rewrite length_map in Hnone. simpl in Hnone.
    split; [intros _; now apply Hnone | reflexivity].
Qed.

Section AnchorClip.
Import AnchorGenerator.
Local Open Scope Q_scope.

Lemma inject_Z_pos (z : Z) : (0 < z)%Z -> 0 < inject_Z z.
Proof. intros Hz. change 0 with (inject_Z 0). now rewrite <- Zlt_Qlt. Qed.

Lemma ceil_div_exact (q s : Z) : (0 < s)%Z -> ceil_div (q * s) s = q.
Proof.
  intros Hs. unfold ceil_div.
  rewrite (Qceiling_comp _ (inject_Z q)); [apply Qceiling_Z|].
  rewrite inject_Z_mult. apply Qdiv_mult_l.
  intros E. apply inject_Z_pos in Hs. rewrite E in Hs. discriminate.
Qed.

(** With a stride that divides the side of the image, the centres of
    all cells are inside the image. *)
Lemma centre_inside (side s i : Z) :
  (0 < s)%Z -> (0 < side)%Z -> (s | side)%Z ->
  (0 <= i < ceil_div side s)%Z ->
  0 <= (inject_Z i + half) * inject_Z s / inject_Z side /\
  (inject_Z i + half) * inject_Z s / inject_Z side <= 1.
Proof.
  intros Hs Hside [q ->] Hi. rewrite ceil_div_exact in Hi by assumption.
  pose proof (inject_Z_pos _ Hside) as Hpos.
  split.
  - apply Qle_shift_div_l; [assumption|]. rewrite Qmult_0_l.
    apply Qmult_le_0_compat.
    + unfold Qle, Qplus, inject_Z, half. simpl. lia.
    + apply Qlt_le_weak, inject_Z_pos. assumption.
  - apply Qle_shift_div_r; [assumption|]. rewrite Qmult_1_l.
    unfold Qle, Qmult, Qplus, inject_Z, half. simpl. nia.
Qed.

Lemma size_inside (side : Z) (min_size : Q) :
  (0 < side)%Z -> 0 <= min_size -> min_size <= inject_Z side ->
  0 <= min_size / inject_Z side /\ min_size / inject_Z side <= 1.
Proof.
  intros Hside H0 H1. pose proof (inject_Z_pos _ Hside) as Hpos. split.
  - apply Qle_shift_div_l; [assumption|]. now rewrite Qmult_0_l.
  - apply Qle_shift_div_r; [assumption|]. now rewrite Qmult_1_l.
Qed.

Lemma clamp01_inside (x : Q) : 0 <= x -> x <= 1 -> clamp01 x = x.
Proof.
  intros H0 H1. unfold clamp01.
  destruct (Qlt_le_dec x 0) as [Hneg|_];
    [exfalso; exact (Qlt_not_le _ _ Hneg H0)|].
  destruct (Qlt_le_dec 1 x) as [Hbig|_];
    [exfalso; exact (Qlt_not_le _ _ Hbig H1) | reflexivity].
Qed.

Lemma clamp_rows_inside (rows : list (list Q)) :
  Forall (Forall (fun x => 0 <= x /\ x <= 1)) rows ->
  map (map clamp01) rows = rows.
Proof.
  induction 1 as [|a rows Ha _ IH]; [reflexivity|].
  simpl. rewrite IH. f_equal.
  induction Ha as [|x a [H0 H1] _ IHa]; [reflexivity|].
  simpl. now rewrite IHa, clamp01_inside.
Qed.

(** The loop reads the sizes, the strides and the image size only. *)
Lemma levels_from_ext (self self' : t) (fs : list (Z * Z)) :
  min_sizes self = min_sizes self' -> steps self = steps self' ->
  image_size self = image_size self' ->
  forall k : nat, levels_from self k fs = levels_from self' k fs.
Proof.
  intros Hm Hs Hi. induction fs as [|f fs IH]; intros k; [reflexivity|].
  simpl. rewrite IH. unfold level_anchors, cell_anchor.
  now rewrite Hm, Hs, Hi.
Qed.

Lemma fits_unclipped (cfg : Config) :
  Clip.fits cfg ->
  exists (self : t) (anchors : list Q),
    init cfg = Some self /\
    min_sizes self = MODEL_anchor_sizes cfg /\
    steps self = MODEL_strides cfg /\
    image_size self = DATA_image_size cfg /\
    levels_from self 0 (feature_maps self) = Some anchors /\
    generate_anchors self = Some (view4 anchors) /\
    Forall (Forall (fun x => 0 <= x /\ x <= 1)) (view4 anchors).
Proof.
  intros (HH & HW & Hstr & Hsz & Hlen).
  assert (Hpos : Forall (fun s => (0 < s)%Z) (MODEL_strides cfg)).
  { eapply Forall_impl; [|exact Hstr]. cbv beta. intros s Hs. apply Hs. }
  pose proof (init_some cfg Hpos) as Hinit.
  match type of Hinit with _ = Some ?s => set (self := s) in * end.
  destruct (levels_from_rows self (MODEL_strides cfg) 0
              (MODEL_anchor_sizes cfg) eq_refl eq_refl Hlen Hpos
              (Z.lt_le_incl _ _ HH) (Z.lt_le_incl _ _ HW))
    as (rows & Hrows & Hfour & _ & Hform).
  assert (Hin : Forall (Forall (fun x => 0 <= x /\ x <= 1)) rows).
  { eapply Forall_impl; [|exact Hform]. cbv beta.
    intros a (k & step & sizes & i & j & ms & Hk & Hz & Hms & Hi & Hj & ->).
    apply nth_error_In in Hk, Hz.
    change (steps self) with (MODEL_strides cfg) in Hk.
    change (min_sizes self) with (MODEL_anchor_sizes cfg) in Hz.
    change (image_size self) with (DATA_image_size cfg) in *.
    rewrite Forall_forall in Hstr, Hsz.
    destruct (Hstr _ Hk) as (Hs & HdH & HdW).
    pose proof (Hsz _ Hz) as Hsizes. rewrite Forall_forall in Hsizes.
    destruct (Hsizes _ Hms) as (H0 & H1 & H2).
    unfold anchor_at.
    destruct (centre_inside _ _ j Hs HW HdW Hj).
    destruct (centre_inside _ _ i Hs HH HdH Hi).
    destruct (size_inside _ _ HW H0 H2).
    destruct (size_inside _ _ HH H0 H1).
    repeat (constructor; [split; assumption|]). constructor. }
  exists self, (concat rows).
  assert (Hlv : levels_from self 0 (feature_maps self) = Some (concat rows))
    by exact Hrows.
  repeat split; try reflexivity; try assumption.
  - unfold generate_anchors. rewrite Hlv.
    rewrite view4_concat by assumption.
    destruct (clip self); [|reflexivity].
    now rewrite clamp_rows_inside.
  - now rewrite view4_concat.
Qed.

End AnchorClip.

(** X14.  When every stride divides the height and the width of the
    image and no anchor size is larger than the image, clipping changes
    nothing: two configurations that differ in [TRAIN.clip_box] (and
    [TRAIN.use_gpu]) only give the same anchors, whose four numbers are
    all between 0 and 1. *)
Theorem AnchorGenerator_clip_changes_nothing
    (cfg cfg' : AnchorGenerator.Config) :
  Clip.fits cfg ->
  AnchorGenerator.MODEL_anchor_sizes cfg'
  = AnchorGenerator.MODEL_anchor_sizes cfg ->
  AnchorGenerator.MODEL_strides cfg' = AnchorGenerator.MODEL_strides cfg ->
  AnchorGenerator.DATA_image_size cfg'
  = AnchorGenerator.DATA_image_size cfg ->
  exists (self self' : AnchorGenerator.t) (output : list (list Q)),
    AnchorGenerator.init cfg = Some self /\
    AnchorGenerator.init cfg' = Some self' /\
    AnchorGenerator.generate_anchors self = Some output /\
    AnchorGenerator.generate_anchors self' = Some output /\
    Forall (Forall (fun x => (0 <= x)%Q /\ (x <= 1)%Q)) output.
Proof.
  intros Hfit Hsz Hst Him.
  assert (Hfit' : Clip.fits cfg').
  { unfold Clip.fits in *. now rewrite Hsz, Hst, Him. }
  destruct (fits_unclipped cfg Hfit)
    as (self & anchors & Hinit & Hm & Hs & Hi & Hlv & Hgen & Hin).
  destruct (fits_unclipped cfg' Hfit')
    as (self' & anchors' & Hinit' & Hm' & Hs' & Hi' & Hlv' & Hgen' & _).
  assert (Hfm : AnchorGenerator.feature_maps self'
                = AnchorGenerator.feature_maps self).
  { unfold AnchorGenerator.init in Hinit, Hinit'.
    destruct (existsb _ _); [discriminate|].
    destruct (existsb _ _); [discriminate|].
    injection Hinit as <-. injection Hinit' as <-.
    cbn [AnchorGenerator.feature_maps]. now rewrite Hst, Him. }
  assert (Heq : anchors' = anchors).
  { rewrite Hfm in Hlv'.
    rewrite (levels_from_ext self' self) in Hlv' by congruence.
    congruence. }
  subst anchors'.
  exists self, self', (AnchorGenerator.view4 anchors).
  repeat split; assumption.
Qed.

(** A 4 x 8 image with the strides 2 and 4, with and without
    [clip_box]. *)
Lemma AnchorGenerator_clip_changes_nothing_witness :
  exists (self self' : AnchorGenerator.t) (output : list (list Q)),
    AnchorGenerator.init
      (AnchorGenerator.mkConfig [[1; 2]%Q; [4]%Q] [2; 4]%Z true (4, 8)%Z
         false) = Some self /\
    AnchorGenerator.init
      (AnchorGenerator.mkConfig [[1; 2]%Q; [4]%Q] [2; 4]%Z false (4, 8)%Z
         false) = Some self' /\
    AnchorGenerator.generate_anchors self = Some output /\
    AnchorGenerator.generate_anchors self' = Some output /\
    Forall (Forall (fun x => (0 <= x)%Q /\ (x <= 1)%Q)) output.
Proof.
  apply (AnchorGenerator_clip_changes_nothing
           (AnchorGenerator.mkConfig [[1; 2]%Q; [4]%Q] [2; 4]%Z true (4, 8)%Z
              false)
           (AnchorGenerator.mkConfig [[1; 2]%Q; [4]%Q] [2; 4]%Z false
              (4, 8)%Z false)); try reflexivity.
  unfold Clip.fits. simpl. repeat split; try lia.
  - repeat constructor; try lia.
    + now exists 2%Z.
    + now exists 4%Z.
    + now exists 1%Z.
    + now exists 2%Z.
  - repeat constructor; discriminate.
Defined.

(** ** loss.py: the range of the two regression losses *)

Section RegressionRange.
Import Torch.

Lemma smooth_l1_nonneg (x y : R) : 0 <= smooth_l1 x y.
Proof.
  unfold smooth_l1. pose proof (Rabs_pos (x - y)) as Hd.
  destruct (Rlt_dec (Rabs (x - y)) 1); [nra | lra].
Qed.

Lemma smooth_l1_zero (x y : R) : smooth_l1 x y = 0 -> x = y.
Proof.
  unfold smooth_l1. pose proof (Rabs_pos (x - y)) as Hd.
  destruct (Rlt_dec (Rabs (x - y)) 1) as [Hnear|Hfar]; intros Hz.
  - assert (Hd0 : Rabs (x - y) = 0) by nra.
    destruct (Req_dec (x - y) 0) as [E|E]; [lra|].
    apply Rabs_no_R0 in E. contradiction.
  - lra.
Qed.

Lemma smooth_l1_sum_nonneg (l l' : list R) : 0 <= sum (map2 smooth_l1 l l').
Proof.
  revert l'. induction l as [|x l IH]; intros [|y l']; simpl map2;
    try (unfold sum; simpl; lra).
  rewrite sum_cons. pose proof (smooth_l1_nonneg x y). pose proof (IH l').
  lra.
Qed.

Lemma smooth_l1_sum_zero (l l' : list R) :
  length l = length l' -> sum (map2 smooth_l1 l l') = 0 -> l = l'.
Proof.
  revert l'. induction l as [|x l IH]; intros [|y l'] Hlen Hz;
    try discriminate; [reflexivity|].
  simpl map2 in Hz. rewrite sum_cons in Hz.
  pose proof (smooth_l1_nonneg x y). pose proof (smooth_l1_sum_nonneg l l').
  injection Hlen as Hlen.
  rewrite (smooth_l1_zero x y) by lra. f_equal. apply IH; [assumption | lra].
Qed.

Lemma smooth_l1_sum_same (l : list R) : sum (map2 smooth_l1 l l) = 0.
Proof.
  induction l as [|x l IH]; [reflexivity|].
  simpl map2. rewrite sum_cons, smooth_l1_same, IH. lra.
Qed.

Lemma app_same_length {X : Type} (a b x y : list X) :
  length a = length b -> a ++ x = b ++ y -> a = b /\ x = y.
Proof.
  revert b. induction a as [|u a IH]; intros [|v b] Hlen E;
    try discriminate; [now split|].
  injection Hlen as Hlen. injection E as -> E.
  destruct (IH b Hlen E) as [-> ->]. now split.
Qed.

Lemma concat_same_lengths {X : Type} (P G : list (list X)) :
  Forall2 (fun p g => length p = length g) P G ->
  concat P = concat G -> P = G.
Proof.
  induction 1 as [|p g P G Hlen _ IH]; [reflexivity|].
  simpl. intros E. destruct (app_same_length _ _ _ _ Hlen E) as [-> E'].
  now rewrite IH.
Qed.

Lemma select_row_pairs {X Y : Type} (Rel : X -> Y -> Prop)
    (mask : list bool) (l : list X) (l' : list Y) :
  Forall2 Rel l l' -> Forall2 Rel (select_row mask l) (select_row mask l').
Proof.
  intros Hl. revert mask.
  induction Hl as [|x y l l' Hxy _ IH]; intros [|b mask];
    try (unfold select_row; simpl; constructor).
  rewrite !select_row_cons. destruct b; [constructor; [assumption|]|];
    apply IH.
Qed.

Lemma masked_select_pairs {X Y : Type} (Rel : X -> Y -> Prop)
    (mask : list (list bool)) (t : list (list X)) (t' : list (list Y)) :
  Forall2 (Forall2 Rel) t t' ->
  Forall2 Rel (masked_select mask t) (masked_select mask t').
Proof.
  intros Ht. revert mask. unfold masked_select.
  induction Ht as [|row row' t t' Hrow _ IH]; intros [|m mask];
    try (simpl; constructor).
  simpl. apply Forall2_app; [now apply select_row_pairs | apply IH].
Qed.

(** The sum of the smooth-L1 distances of the selected anchors is not
    negative, and is 0 exactly when the selected predictions are the
    selected targets. *)
Lemma selected_smooth_l1 (mask : list (list bool))
    (preds gts : list (list (list R))) :
  Forall2 (Forall2 (fun p g : list R => length p = length g)) preds gts ->
  0 <= smooth_l1_loss_sum (masked_select mask preds) (masked_select mask gts)
  /\ (smooth_l1_loss_sum (masked_select mask preds) (masked_select mask gts)
      = 0
      <-> masked_select mask preds = masked_select mask gts).
Proof.
  intros Hpg. unfold smooth_l1_loss_sum.
  split; [apply smooth_l1_sum_nonneg|].
  pose proof (masked_select_pairs _ mask preds gts Hpg) as Hsel.
  split.
  - intros Hz. apply concat_same_lengths; [assumption|].
    apply smooth_l1_sum_zero; [|assumption].
    now apply concat_lengths.
  - intros ->. apply smooth_l1_sum_same.
Qed.

Lemma div_by_count (x n : R) :
  0 <= x -> 0 <= x / Rmax n 1 /\ (x / Rmax n 1 = 0 <-> x = 0).
Proof.
  intros Hx. pose proof (Rmax_1_ge n) as Hn.
  assert (Hi : 0 < / Rmax n 1) by (apply Rinv_0_lt_compat; lra).
  unfold Rdiv. split; [nra|]. split; intros Hz.
  - destruct (Rmult_integral _ _ Hz); lra.
  - rewrite Hz. lra.
Qed.

End RegressionRange.

(** X15.  For predictions and matched targets of the same shape, the box
    loss and the landmark loss that [forward] returns are not negative;
    the box loss is 0 exactly when the predicted boxes of the anchors
    with a label other than 0 are their matched boxes, and the landmark
    loss is 0 exactly when the predicted landmarks of the anchors with a
    label greater than 0 are their matched landmarks. *)
Theorem MultiBoxLoss_regression_losses_zero
    (matched_labels : list (list Z))
    (matched_boxes matched_landmarks pred_boxes pred_landmarks
       : list (list (list R))) :
  Forall2 (Forall2 (fun p g : list R => length p = length g))
    pred_boxes matched_boxes ->
  Forall2 (Forall2 (fun p g : list R => length p = length g))
    pred_landmarks matched_landmarks ->
  0 <= MultiBoxLoss.box_loss matched_labels matched_boxes pred_boxes /\
  0 <= MultiBoxLoss.landmark_loss matched_labels matched_landmarks
         pred_landmarks /\
  (MultiBoxLoss.box_loss matched_labels matched_boxes pred_boxes = 0
   <-> Torch.masked_select (MultiBoxLoss.pos_boxes_mask matched_labels)
         pred_boxes
       = Torch.masked_select (MultiBoxLoss.pos_boxes_mask matched_labels)
           matched_boxes) /\
  (MultiBoxLoss.landmark_loss matched_labels matched_landmarks
     pred_landmarks = 0
   <-> Torch.masked_select (MultiBoxLoss.pos_ldmks_mask matched_labels)
         pred_landmarks
       = Torch.masked_select (MultiBoxLoss.pos_ldmks_mask matched_labels)
           matched_landmarks).
Proof.
  intros Hb Hl.
  destruct (selected_smooth_l1 (MultiBoxLoss.pos_boxes_mask matched_labels)
              _ _ Hb) as [Hb0 Hbz].
  destruct (selected_smooth_l1 (MultiBoxLoss.pos_ldmks_mask matched_labels)
              _ _ Hl) as [Hl0 Hlz].
  unfold MultiBoxLoss.box_loss, MultiBoxLoss.landmark_loss,
    MultiBoxLoss.N, MultiBoxLoss.N1.
  match goal with
  | |- 0 <= ?x / Rmax ?n 1 /\ 0 <= ?y / Rmax ?m 1 /\ _ =>
      destruct (div_by_count x n Hb0) as [Hb1 Hb2];
      destruct (div_by_count y m Hl0) as [Hl1 Hl2]
  end.
  split; [exact Hb1|]. split; [exact Hl1|]. split.
  - rewrite Hb2. exact Hbz.
  - rewrite Hl2. exact Hlz.
Qed.

(** One image with two anchors, the labels 1 and 0: the second anchor
    is background, its predictions do not count. *)
Lemma MultiBoxLoss_regression_losses_zero_witness :
  0 <= MultiBoxLoss.box_loss [[1; 0]%Z]
         [[MultiBoxLoss.zeros 4; MultiBoxLoss.zeros 4]]
         [[MultiBoxLoss.zeros 4; 2 :: MultiBoxLoss.zeros 3]] /\
  0 <= MultiBoxLoss.landmark_loss [[1; 0]%Z]
         [[MultiBoxLoss.zeros 10; MultiBoxLoss.zeros 10]]
         [[MultiBoxLoss.zeros 10; 2 :: MultiBoxLoss.zeros 9]] /\
  (MultiBoxLoss.box_loss [[1; 0]%Z]
     [[MultiBoxLoss.zeros 4; MultiBoxLoss.zeros 4]]
     [[MultiBoxLoss.zeros 4; 2 :: MultiBoxLoss.zeros 3]] = 0
   <-> Torch.masked_select (MultiBoxLoss.pos_boxes_mask [[1; 0]%Z])
         [[MultiBoxLoss.zeros 4; 2 :: MultiBoxLoss.zeros 3]]
       = Torch.masked_select (MultiBoxLoss.pos_boxes_mask [[1; 0]%Z])
           [[MultiBoxLoss.zeros 4; MultiBoxLoss.zeros 4]]) /\
  (MultiBoxLoss.landmark_loss [[1; 0]%Z]
     [[MultiBoxLoss.zeros 10; MultiBoxLoss.zeros 10]]
     [[MultiBoxLoss.zeros 10; 2 :: MultiBoxLoss.zeros 9]] = 0
   <-> Torch.masked_select (MultiBoxLoss.pos_ldmks_mask [[1; 0]%Z])
         [[MultiBoxLoss.zeros 10; 2 :: MultiBoxLoss.zeros 9]]
       = Torch.masked_select (MultiBoxLoss.pos_ldmks_mask [[1; 0]%Z])
           [[MultiBoxLoss.zeros 10; MultiBoxLoss.zeros 10]]).
Proof.
  apply (MultiBoxLoss_regression_losses_zero [[1; 0]%Z]
           [[MultiBoxLoss.zeros 4; MultiBoxLoss.zeros 4]]
           [[MultiBoxLoss.zeros 10; MultiBoxLoss.zeros 10]]
           [[MultiBoxLoss.zeros 4; 2 :: MultiBoxLoss.zeros 3]]
           [[MultiBoxLoss.zeros 10; 2 :: MultiBoxLoss.zeros 9]]).
  - repeat constructor.
  - repeat constructor.
Defined.

(** ** anchor.py: the order of the anchors *)

Section AnchorOrder.
Import AnchorGenerator.

Lemma nth_error_flat_map_const {X Y : Type} (f : X -> list Y) (c : nat)
    (l : list X) :
  (forall x, In x l -> length (f x) = c) ->
  forall (a b : nat) (x : X),
    nth_error l a = Some x -> (b < c)%nat ->
    nth_error (flat_map f l) (a * c + b) = nth_error (f x) b.
Proof.
  induction l as [|x0 l IH]; intros Hc a b x Ha Hb.
  - destruct a; discriminate.
  - simpl flat_map. destruct a as [|a].
    + simpl in Ha. injection Ha as ->. simpl.
      apply nth_error_app1. rewrite Hc by (now left). exact Hb.
    + simpl in Ha. rewrite nth_error_app2 by (rewrite Hc by (now left); lia).
      rewrite Hc by (now left).
      replace (S a * c + b - c)%nat with (a * c + b)%nat by lia.
      apply IH; [|assumption|assumption].
      intros y Hy. apply Hc. now right.
Qed.

Lemma nth_error_list_prod {X Y : Type} (a : list X) (b : list Y) :
  forall (i j : nat) (x : X) (y : Y),
    nth_error a i = Some x -> nth_error b j = Some y ->
    nth_error (list_prod a b) (i * length b + j) = Some (x, y).
Proof.
  induction a as [|x0 a IH]; intros i j x y Hi Hj.
  - destruct i; discriminate.
  - assert (Hjb : (j < length b)%nat)
      by (apply nth_error_Some; rewrite Hj; discriminate).
    simpl list_prod. destruct i as [|i].
    + simpl in Hi. injection Hi as ->. simpl.
      rewrite nth_error_app1 by (now rewrite length_map).
      now apply map_nth_error.
    + simpl in Hi. rewrite nth_error_app2 by (rewrite length_map; lia).
      rewrite length_map.
      replace (S i * length b + j - length b)%nat
        with (i * length b + j)%nat by lia.
      now apply IH.
Qed.

Lemma nth_error_range (n : Z) (i : nat) :
  (Z.of_nat i < n)%Z -> nth_error (range n) i = Some (Z.of_nat i).
Proof.
  intros Hi. unfold range. apply map_nth_error.
  rewrite nth_error_nth' with (d := 0%nat) by (rewrite length_seq; lia).
  rewrite seq_nth by lia. reflexivity.
Qed.

(** Within a level the cells come row by row, and the sizes of a cell
    one after the other. *)
Lemma level_rows_nth (self : t) (step : Z) (f : Z * Z) (sizes : list Q)
    (i j s : nat) (min_size : Q) :
  (Z.of_nat i < fst f)%Z -> (Z.of_nat j < snd f)%Z ->
  nth_error sizes s = Some min_size ->
  nth_error (level_rows self step f sizes)
    ((i * Z.to_nat (snd f) + j) * length sizes + s)
  = Some (cell_anchor self step (Z.of_nat i) (Z.of_nat j) min_size).
Proof.
  intros Hi Hj Hs. unfold level_rows.
  transitivity
    (nth_error
       (map (fun ms => cell_anchor self step (Z.of_nat i) (Z.of_nat j) ms)
          sizes) s); [|now apply map_nth_error].
  match goal with
  | |- nth_error (flat_map ?F ?L) _ = _ =>
      apply (nth_error_flat_map_const F (length sizes) L)
        with (x := (Z.of_nat i, Z.of_nat j))
  end.
  - intros [a b] _. apply length_map.
  - unfold product. rewrite <- (range_length (snd f)).
    apply nth_error_list_prod; now apply nth_error_range.
  - apply nth_error_Some. rewrite Hs. discriminate.
Qed.

End AnchorOrder.

Section AnchorLevelOrder.
Import AnchorGenerator.

Variable self : t.

Local Abbreviation H := (fst (image_size self)).
Local Abbreviation W := (snd (image_size self)).

(** The rows of level [k'] follow the rows of the levels before it. *)
Lemma levels_from_split (ss : list Z) :
  forall (k : nat) (sz : list (list Q)),
    skipn k (steps self) = ss -> skipn k (min_sizes self) = sz ->
    (length ss <= length sz)%nat ->
    Forall (fun s => (0 < s)%Z) ss -> (0 <= H)%Z -> (0 <= W)%Z ->
    forall (k' : nat) (step : Z) (sizes : list Q),
      nth_error ss k' = Some step -> nth_error sz k' = Some sizes ->
      exists pre post : list (list Q),
        levels_from self k
          (map (fun step => (ceil_div H step, ceil_div W step)) ss)
        = Some (concat
                  (pre ++
                   level_rows self step (ceil_div H step, ceil_div W step)
                     sizes ++ post)) /\
        Forall (fun a => length a = 4%nat)
          (pre ++
           level_rows self step (ceil_div H step, ceil_div W step) sizes
           ++ post) /\
        Z.of_nat (length pre)
        = expected_count H W (firstn k' ss) (firstn k' sz).
Proof.
  induction ss as [|s ss IH];
    intros k sz Hss Hsz Hlen Hpos HH HW k' step sizes Hk' Hsz'.
  - destruct k'; discriminate.
  - destruct sz as [|z sz]; [simpl in Hlen; lia|].
    apply skipn_cons_inv in Hss, Hsz.
    destruct Hss as [Hs Hss]. destruct Hsz as [Hz Hsz].
    inversion Hpos as [|? ? Hs0 Hpos']; subst.
    assert (Hnth : nth k (steps self) 0%Z = s) by (now apply nth_error_nth).
    assert (Hhere : level_anchors self k (ceil_div H s, ceil_div W s)
                    = Some (concat
                              (level_rows self s
                                 (ceil_div H s, ceil_div W s) z))).
    { rewrite (level_anchors_rows self k _ z Hz), Hnth. reflexivity. }
    assert (Hlen' : (length (skipn (S k) (steps self))
                     <= length (skipn (S k) (min_sizes self)))%nat)
      by (apply le_S_n; exact Hlen).
    destruct k' as [|k'].
    + simpl in Hk', Hsz'. injection Hk' as <-. injection Hsz' as <-.
      destruct (levels_from_rows self (skipn (S k) (steps self)) (S k)
                  (skipn (S k) (min_sizes self)) eq_refl eq_refl Hlen'
                  Hpos' HH HW)
        as (rows & Hrows & Hfour & _ & _).
      exists [], rows. simpl app. split; [|split].
      * rewrite map_cons, concat_app. now apply levels_from_cons.
      * apply Forall_app. split; [apply level_rows_four | assumption].
      * reflexivity.
    + simpl in Hk', Hsz'.
      destruct (IH (S k) (skipn (S k) (min_sizes self)) eq_refl eq_refl
                  Hlen' Hpos' HH HW k' step sizes Hk' Hsz')
        as (pre & post & Hrows & Hfour & Hcount).
      exists (level_rows self s (ceil_div H s, ceil_div W s) z ++ pre), post.
      split; [|split].
      * rewrite map_cons, <- app_assoc, concat_app.
        now apply levels_from_cons.
      * rewrite <- app_assoc. apply Forall_app.
        split; [apply level_rows_four | assumption].
      * rewrite length_app, Nat2Z.inj_add, Hcount.
        simpl firstn. simpl expected_count.
        rewrite level_rows_length; simpl fst; simpl snd;
          try (now apply ceil_div_nonneg).
        reflexivity.
Qed.

End AnchorLevelOrder.

(** X16.  The place of every anchor in the output of
    [generate_anchors]: the anchors of level [k] come after all anchors
    of the levels before it; within the level the cells come row by row
    ([i] the row, [j] the column), and the sizes of one cell one after
    the other.  So the anchor of level [k], cell [(i, j)] and the size
    number [s] is at the index
    [sum_(k' < k) ceil(H/step_k') * ceil(W/step_k') * len(min_sizes[k'])
     + (i * ceil(W/step_k) + j) * len(min_sizes[k]) + s]. *)
Theorem AnchorGenerator_generate_anchors_order
    (cfg : AnchorGenerator.Config) (k i j s : nat) (step : Z)
    (sizes : list Q) (min_size : Q) :
  (0 <= fst (AnchorGenerator.DATA_image_size cfg))%Z ->
  (0 <= snd (AnchorGenerator.DATA_image_size cfg))%Z ->
  Forall (fun s => (0 < s)%Z) (AnchorGenerator.MODEL_strides cfg) ->
  (length (AnchorGenerator.MODEL_strides cfg)
   <= length (AnchorGenerator.MODEL_anchor_sizes cfg))%nat ->
  nth_error (AnchorGenerator.MODEL_strides cfg) k = Some step ->
  nth_error (AnchorGenerator.MODEL_anchor_sizes cfg) k = Some sizes ->
  nth_error sizes s = Some min_size ->
  (Z.of_nat i
   < AnchorGenerator.ceil_div (fst (AnchorGenerator.DATA_image_size cfg))
       step)%Z ->
  (Z.of_nat j
   < AnchorGenerator.ceil_div (snd (AnchorGenerator.DATA_image_size cfg))
       step)%Z ->
  exists (self : AnchorGenerator.t) (output : list (list Q)),
    AnchorGenerator.init cfg = Some self /\
    AnchorGenerator.generate_anchors self = Some output /\
    nth_error output
      (Z.to_nat
         (AnchorGenerator.expected_count
            (fst (AnchorGenerator.DATA_image_size cfg))
            (snd (AnchorGenerator.DATA_image_size cfg))
            (firstn k (AnchorGenerator.MODEL_strides cfg))
            (firstn k (AnchorGenerator.MODEL_anchor_sizes cfg)))
       + (i * Z.to_nat
                (AnchorGenerator.ceil_div
                   (snd (AnchorGenerator.DATA_image_size cfg)) step)
          + j) * length sizes
       + s)
    = Some
        (if AnchorGenerator.TRAIN_clip_box cfg
         then map AnchorGenerator.clamp01
                (AnchorGenerator.anchor_at
                   (fst (AnchorGenerator.DATA_image_size cfg))
                   (snd (AnchorGenerator.DATA_image_size cfg))
                   step (Z.of_nat i) (Z.of_nat j) min_size)
         else AnchorGenerator.anchor_at
                (fst (AnchorGenerator.DATA_image_size cfg))
                (snd (AnchorGenerator.DATA_image_size cfg))
                step (Z.of_nat i) (Z.of_nat j) min_size).
Proof.
  intros HH HW Hpos Hlen Hk Hsz Hs Hi Hj.
  pose proof (init_some cfg Hpos) as Hinit.
  match type of Hinit with _ = Some ?s => set (self := s) in * end.
  destruct (levels_from_split self (AnchorGenerator.MODEL_strides cfg) 0
              (AnchorGenerator.MODEL_anchor_sizes cfg) eq_refl eq_refl
              Hlen Hpos HH HW k step sizes Hk Hsz)
    as (pre & post & Hrows & Hfour & Hcount).
  change (fst (AnchorGenerator.image_size self))
    with (fst (AnchorGenerator.DATA_image_size cfg)) in *.
  change (snd (AnchorGenerator.image_size self))
    with (snd (AnchorGenerator.DATA_image_size cfg)) in *.
  rewrite <- Hcount, Nat2Z.id.
  set (rows := AnchorGenerator.level_rows self step
                 (AnchorGenerator.ceil_div
                    (fst (AnchorGenerator.DATA_image_size cfg)) step,
                  AnchorGenerator.ceil_div
                    (snd (AnchorGenerator.DATA_image_size cfg)) step)
                 sizes) in *.
  assert (Hnth :
    nth_error (pre ++ rows ++ post)
      (length pre
       + (i * Z.to_nat
                (AnchorGenerator.ceil_div
                   (snd (AnchorGenerator.DATA_image_size cfg)) step)
          + j) * length sizes
       + s)
    = Some (AnchorGenerator.anchor_at
              (fst (AnchorGenerator.DATA_image_size cfg))
              (snd (AnchorGenerator.DATA_image_size cfg))
              step (Z.of_nat i) (Z.of_nat j) min_size)).
  { pose proof (level_rows_nth self step
                  (AnchorGenerator.ceil_div
                     (fst (AnchorGenerator.DATA_image_size cfg)) step,
                   AnchorGenerator.ceil_div
                     (snd (AnchorGenerator.DATA_image_size cfg)) step)
                  sizes i j s min_size Hi Hj Hs) as Hrow.
    cbn [fst snd] in Hrow. fold rows in Hrow.
    rewrite nth_error_app2 by lia.
    match goal with
    | |- nth_error _ ?n = _ =>
        replace n
          with ((i * Z.to_nat
                       (AnchorGenerator.ceil_div
                          (snd (AnchorGenerator.DATA_image_size cfg)) step)
                 + j) * length sizes + s)%nat by lia
    end.
    rewrite nth_error_app1
      by (apply nth_error_Some; rewrite Hrow; discriminate).
    exact Hrow. }
  exists self,
    (if AnchorGenerator.TRAIN_clip_box cfg
     then map (map AnchorGenerator.clamp01) (pre ++ rows ++ post)
     else pre ++ rows ++ post).
  split; [exact Hinit|].
  unfold AnchorGenerator.generate_anchors.
  change (AnchorGenerator.feature_maps self)
    with (map (fun step =>
                 (AnchorGenerator.ceil_div
                    (fst (AnchorGenerator.DATA_image_size cfg)) step,
                  AnchorGenerator.ceil_div
                    (snd (AnchorGenerator.DATA_image_size cfg)) step))
            (AnchorGenerator.MODEL_strides cfg)).
  rewrite Hrows, view4_concat by assumption.
  change (AnchorGenerator.clip self)
    with (AnchorGenerator.TRAIN_clip_box cfg).
  split; [reflexivity|].
  destruct (AnchorGenerator.TRAIN_clip_box cfg); [|exact Hnth].
  now apply map_nth_error.
Qed.

(** The 4 x 6 image with the strides 2 and 4: the only size of the
    second cell of the second level is the last of the 14 anchors. *)
Lemma AnchorGenerator_generate_anchors_order_witness :
  exists (self : AnchorGenerator.t) (output : list (list Q)),
    AnchorGenerator.init AnchorGenerator.example_config = Some self /\
    AnchorGenerator.generate_anchors self = Some output /\
    nth_error output 13
    = Some (map AnchorGenerator.clamp01
              (AnchorGenerator.anchor_at 4 6 4 0 1 4%Q)).
Proof.
  apply (AnchorGenerator_generate_anchors_order
           AnchorGenerator.example_config 1 0 1 0 4%Z [4%Q] 4%Q).
  - simpl. lia.
  - simpl. lia.
  - repeat constructor.
  - simpl. lia.
  - reflexivity.
  - reflexivity.
  - reflexivity.
  - vm_compute. reflexivity.
  - vm_compute. reflexivity.
Defined.
